(* ===== verification/_CoqProject ===== *)
-Q . S2P
Prelude.v
Types.v
Os.v
Limits.v
Write.v
Read.v
Net.v
BufSize.v
Lifecycle.v
Construct.v
Concurrent.v
Refine.v
