(* ===== verification/Prelude.v ===== *)
(** * A verification development of Ice's UDP transceiver

    The program is [src/cpp/src/Ice/UdpTransceiver.cpp] of Ice 3.3: the
    class [IceInternal::UdpTransceiver], the datagram transport of the Ice
    request/reply runtime.  One object owns one non-blocking UDP socket and
    offers the [Transceiver] contract of the runtime: [write] and [read] of
    one datagram with a timeout, [shutdownReadWrite] (callable from another
    thread to wake a blocked reader), [close], and two constructors (the
    client "connect" mode and the server "bind" mode, possibly multicast).
    The sizes of the OS buffers are negotiated once, by [setBufSize].

    ** Parts of the program and how they interact

    - The transceiver's members ([_fd], [_addr], [_connect], [_warn],
      [_shutdownReadWrite], [_mcastServer], [_rcvSize], [_sndSize], the
      trace level, the statistics sink) form the record [transceiver] of
      [Types.v]; the runtime configuration it reads at construction
      ([Instance]: trace levels, properties, statistics) is [instance].
    - Every call to the platform layer ([IceInternal::Network]: createSocket,
      doConnect, doBind, getRecvBufferSize, ... and the raw send, recv,
      recvfrom, poll/select, connect) goes through the typeclass
      [SocketApi] of [Os.v]: the transceiver code is proved against that
      interface, as the C++ code is written against the platform layer.
      [Os.v] also gives an implementation, [ScriptOS], whose replies come
      from a script and which logs every call: it runs the witnesses and
      proves termination and "no system call" facts.  [Net.v] gives a
      second implementation, [NetOS], a model of the kernel's UDP sockets
      through which two transceivers exchange datagrams.
    - Every trace ([if(_traceLevels->network >= n) { Trace out; out << ...
      << toString(); }]) is [trace] of [Os.v], which evaluates [toString]
      as the code does: on a multicast server with a valid descriptor it
      calls [fdToRemoteAddress], which may throw, and before
      [_mcastServer] is assigned it reads an indeterminate [bool]
      ([Abort]).  A trace is "quiet" ([trace_quiet]) when it is off or
      its [toString] formats the descriptor alone; the functional theorems
      of [write], [read], [close] and [shutdownReadWrite] assume it, and
      their logs then hold [trace_events].
    - The code runs in the state-and-exception monad of this file
      ([stm]): the state is the transceiver, the OS world and the list of
      log events (traces, warnings, statistics, [cerr]); a C++ [throw] is
      [Throw], a failed [assert] is [Abort], and the [goto] loops of
      [write] and [read] are fixpoints on fuel that return [OutOfFuel]
      only when the fuel runs out.

    ** Files

    - [Prelude.v] (this file): the monad, its notation (scope [udp_scope]),
      the 32-bit [int] conversion [to_int], [std::vector::resize], the
      tactics and the hint databases [udp] and [udp_rw].
    - [Types.v]: Ice exceptions, errno values, addresses with the
      multicast tests [IN_MULTICAST] / [IN6_IS_ADDR_MULTICAST], [Buffer],
      log events, [transceiver], [instance], platforms.
    - [Os.v]: the [SocketApi] class, the lifting of its calls into the
      monad, the errno classifiers [interrupted], [wouldBlock],
      [recvTruncated], [toString] (lines 372-385) and [trace], and the
      [ScriptOS] implementation.
    - [Limits.v]: [_udpOverhead], [_maxPacketSize], the packet-size
      ceilings of [write]/[read] and [checkSendSize].
    - [BufSize.v]: [setBufSize] (lines 576-644).
    - [Write.v]: [write] (lines 108-213), its [goto repeat] /
      [goto repeatSelect] loop as [write_loop], the code after a
      successful send as [write_done].
    - [Read.v]: [read] (lines 215-364), as [read_loop], the receive step
      as [read_recv] and the code after a successful receive as
      [read_done].
    - [Net.v]: [NetOS], the kernel as a table of sockets, each with its
      bound address, its connected peer and its queue of received
      datagrams; [::send] queues a datagram at the socket bound to the
      peer's address if that socket accepts it, [::recvfrom] takes the
      oldest one, truncated to the length asked.
    - [Lifecycle.v]: [fd], [close], [shutdownWrite], [shutdownReadWrite]
      with the wake-up of a blocked reader ([wakeup_reader]), the
      destructor, [type], [initialize], [effectivePort], and the
      life-cycle step relation [lc_step] with the preorder [evolves].
    - [Construct.v]: the two constructors (lines 406-574) as [ctor_connect]
      and [ctor_bind], with the [catch] block that invalidates [_fd].
    - [Concurrent.v]: the thread-per-connection use of the transport, a
      reader thread looping in [read] interleaved with [shutdownReadWrite]
      and with the kernel's delivery of datagrams.  The shared state
      ([cstate]) is the two threads' labels, [_shutdownReadWrite], the
      mutex, [_connect] and the kernel's socket; each thread's atomic step
      is an executable function ([reader_step], [shutdown_step]) and
      [cstep] is the interleaving.  It loads stdpp for its relations
      ([rtc], [nf], [sn]).
    - [Refine.v]: the link between the two models of [read]: the
      relation [matches] between a transceiver over [NetOS] and a state
      of the interleaving, and [read_matched], what the reader must do
      to match one outcome of [read].

    ** What the theorems show

    - Limits: the ceilings are [min 65507 (size - 28)]; the size check
      compares with the [int] cast of [size_t], so that a buffer of
      [2^32 + k] bytes passes it (bounds).
    - Buffer negotiation: the stored size is the OS default when the
      property is absent, equal to the default or below 28; otherwise the
      size the OS reports after setting it; the warnings are emitted
      exactly on those branches; the stored size can still be below 28
      (the OS default is not checked), and then every [write] fails
      ([write_rejects_all_below_overhead], run through [ScriptOS]).
    - write / read: the behaviour on every branch (size error before any
      system call, "not ready" on [timeout = 0], [EINTR] absorbed, socket
      errors, success with the statistics event); read's shutdown check;
      the one-way [_connect] transition on the first datagram; the buffer
      after a read is exactly the datagram; termination of both loops
      against any finite script of OS replies; read does not depend on a
      non-zero timeout value (it waits with [-1]); write throws a
      pointer on a poll timeout.
    - Life cycle: [close] then any I/O aborts; after [shutdownReadWrite]
      every read throws [ConnectionLostException]; on the wake-up
      platforms the shutdown sends a one-byte datagram from a fresh socket,
      which leaks when [setBlock] fails; against the kernel [NetOS] that
      datagram reaches the socket's own queue, so a [read] blocked in
      [poll], which otherwise never returns, returns and throws
      [ConnectionLostException] ([shutdown_wakes_blocked_read]); along
      any sequence of steps the transceiver only evolves one way
      ([lifecycle_one_way]).
    - Constructors: on failure [_fd] is invalid, and the socket already
      created is never closed; on success the client and server members
      are those of the code ([ctor_connect_result], [ctor_bind_result]);
      [toString] then reads the never-initialized [_mcastServer]
      ([toString_after_ctor_undefined]); the multicast bit tests are the
      RFC ranges ([addr_is_multicast_ref]).
    - Buffers: [write] and [read] return well-formed buffers whatever the
      OS does ([write_result_buffer], [read_result_buffer]);
      [checkSendSize] accepts exactly the buffers [write] does not reject
      as too large ([checkSendSize_agrees_write]).
    - Composition: over [NetOS], a datagram written by one transceiver
      to the address of another is read by the second one, connected or
      waiting for its first peer, cut to the receiver's ceiling: whole
      when it fits, a prefix with no error when the receiver's buffer is
      the smaller ([write_read_roundtrip]).
    - Refinement: each outcome of one [read] over [NetOS] is reached by
      steps of [Concurrent.v]'s reader alone, after which the two models
      agree again ([reader_refines_read]), so that the interleaving's
      reader is the code of [Read.v] and not a second, unrelated model;
      the kernel's delivery is the interleaving's [deliver_step]
      ([deliver_matches]).
    - Traces: with network tracing on, the client constructor's own
      trace is undefined behaviour, and a server constructor returns
      normally only on a multicast address ([toString_after_ctor_undefined]);
      [shutdownReadWrite] writes its trace before it sets the flag, so a
      [toString] that throws leaves the flag unset
      ([shutdownReadWrite_trace_fails]).
    - Concurrency: an invariant of every interleaving (the mutex is held
      through all of [shutdownReadWrite]'s system calls; [reachable_inv]);
      every interleaving terminates, and in every final state where
      [shutdownReadWrite] returned the reader is stopped by
      [ConnectionLostException], on every platform; when it throws
      instead (its trace, the shut, or the decoy's socket calls), an
      interleaving ends with the reader blocked in [poll] for ever
      ([shutdown_wakes_reader], with a measure that decreases at each
      step); after [shutdownReadWrite] returns the reader returns at most
      one more datagram ([after_shutdown_at_most_one]), and that datagram
      can be the 1-byte decoy ([decoy_read_as_datagram]).

    ** Bounds and fuel

    The loops consume one OS reply per iteration; a script of [n]
    replies is exhausted after at most [2 * n + 2] iterations, after which
    [ScriptOS] answers with success, so fuel [2 * n + 3] is enough
    (theorems [write_terminates] and [read_terminates]).  Integers of
    the C++ [int] type are [Z] with the [int] range written out
    ([to_int] wraps modulo [2^32] as [static_cast<int>] does on every
    supported compiler).

    The interleavings of [Concurrent.v] need no fuel: their termination
    is [sn] (every sequence of steps is finite), proved with the measure
    [rpot + 10 * |queue| + 20 * |in flight| + 20 * spot], which every
    step decreases: a datagram costs the reader at most a [recv] and a
    flag check, and a pending decoy at most one more datagram.

    ** Not modelled

    Text formatting ([addressesToString], [fdToString], [addrToString],
    the text of traces and warnings): a log event records which message,
    which numbers and which formatter with which arguments, not the text.
    The Windows [FD_SET] bookkeeping has no effect on the result.
    The C++ memory model is not modelled: the mutex is the ordering of
    the flag's accesses, and [Concurrent.v] takes each step of a thread
    as atomic and the reader's system calls as succeeding (their error
    paths are those of [Read.v]); the shutdown thread's exceptions are
    steps of their own ([shutdown_fail]).  The helpers of [Network.cpp] and the
    kernel, not among the sources, are the [SocketApi] interface, its
    implementations [ScriptOS] and [NetOS], and, in [Concurrent.v],
    [accepts] and [shut_wakes], modelled from the spec and the comments
    of the code; [NetOS] has no buffer limits, no [SIGPIPE] and no
    address resolution beyond the table of bound sockets. *)

From Stdlib Require Import String ZArith List Lia Bool.
Import ListNotations.

Declare Scope udp_scope.
Delimit Scope udp_scope with udp.
Open Scope Z_scope.

(** ** C++ [int] *)

Definition INT_MIN : Z := - 2 ^ 31.
Definition INT_MAX : Z := 2 ^ 31 - 1.

(** [static_cast<int>] of an integer: reduction modulo [2^32] into
    [[INT_MIN, INT_MAX]]. *)
Definition to_int (z : Z) : Z := (z + 2 ^ 31) mod 2 ^ 32 - 2 ^ 31.

(** ** [std::vector<Ice::Byte>::resize] *)

Definition resize (n : nat) (l : list Byte.byte) : list Byte.byte :=
  firstn n l ++ repeat Byte.x00 (n - length l)%nat.

(** ** The state-and-exception monad

    [Ok] is a normal return, [Throw] a C++ exception, [Abort] a failed
    [assert], [OutOfFuel] the end of the fuel of a [goto] loop. *)

Inductive outcome (E A : Type) : Type :=
| Ok (a : A)
| Throw (e : E)
| Abort
| OutOfFuel.
Arguments Ok {E A} a.
Arguments Throw {E A} e.
Arguments Abort {E A}.
Arguments OutOfFuel {E A}.

Definition stm (S E A : Type) : Type := S -> S * outcome E A.

Section Monad.
Context {S E : Type}.

Definition sret {A} (a : A) : stm S E A := fun s => (s, Ok a).

Definition sbind {A B} (c : stm S E A) (k : A -> stm S E B) : stm S E B :=
  fun s =>
    let '(s', o) := c s in
    match o with
    | Ok a => k a s'
    | Throw e => (s', Throw e)
    | Abort => (s', Abort)
    | OutOfFuel => (s', OutOfFuel)
    end.

Definition sthrow {A} (e : E) : stm S E A := fun s => (s, Throw e).
Definition sabort {A} : stm S E A := fun s => (s, Abort).
Definition sfuel {A} : stm S E A := fun s => (s, OutOfFuel).

(** [assert(b)] *)
Definition sassert (b : bool) : stm S E unit :=
  if b then sret tt else sabort.

Definition sget : stm S E S := fun s => (s, Ok s).
Definition sgets {A} (f : S -> A) : stm S E A := fun s => (s, Ok (f s)).
Definition smodify (f : S -> S) : stm S E unit := fun s => (f s, Ok tt).

(** [if (c) { body }] with no else branch. *)
Definition swhen (b : bool) (c : stm S E unit) : stm S E unit :=
  if b then c else sret tt.
End Monad.

Notation "x <- c ;; k" := (sbind c (fun x => k))
  (at level 61, c at next level, right associativity) : udp_scope.
Notation "c ;; k" := (sbind c (fun _ => k))
  (at level 61, right associativity) : udp_scope.
Open Scope udp_scope.

(** ** Generic lemmas *)

Section MonadLemmas.
Context {S E : Type}.

Lemma sbind_ret {A B} (a : A) (k : A -> stm S E B) s :
  sbind (sret a) k s = k a s.
Proof. reflexivity. Qed.

Lemma sbind_ok {A B} (c : stm S E A) (k : A -> stm S E B) s s' a :
  c s = (s', Ok a) -> sbind c k s = k a s'.
Proof. unfold sbind. intros ->. reflexivity. Qed.

Lemma sbind_throw {A B} (c : stm S E A) (k : A -> stm S E B) s s' e :
  c s = (s', Throw e) -> sbind c k s = (s', Throw e).
Proof. unfold sbind. intros ->. reflexivity. Qed.

Lemma sbind_abort {A B} (c : stm S E A) (k : A -> stm S E B) s s' :
  c s = (s', Abort) -> sbind c k s = (s', Abort).
Proof. unfold sbind. intros ->. reflexivity. Qed.

Lemma sbind_assoc {A B C} (c : stm S E A) (k1 : A -> stm S E B)
      (k2 : B -> stm S E C) s :
  sbind (sbind c k1) k2 s = sbind c (fun a => sbind (k1 a) k2) s.
Proof.
  unfold sbind. destruct (c s) as [s' []]; reflexivity.
Qed.

(** A bind that returns normally ran both parts normally. *)
Lemma sbind_ok_inv {A B} (c : stm S E A) (k : A -> stm S E B) s s' b :
  sbind c k s = (s', Ok b) -> exists s1 a, c s = (s1, Ok a) /\ k a s1 = (s', Ok b).
Proof.
  unfold sbind. destruct (c s) as [s1 [a| | |]]; intros Hk; try discriminate.
  exists s1, a. auto.
Qed.

Lemma sassert_true s : sassert (S:=S) (E:=E) true s = (s, Ok tt).
Proof. reflexivity. Qed.

Lemma swhen_false c s : swhen (S:=S) (E:=E) false c s = (s, Ok tt).
Proof. reflexivity. Qed.
End MonadLemmas.

(** ** Integer lemmas *)

Lemma to_int_small z : INT_MIN <= z <= INT_MAX -> to_int z = z.
Proof.
  unfold to_int, INT_MIN, INT_MAX. intros H.
  rewrite Z.mod_small by lia. lia.
Qed.

Lemma to_int_range z : INT_MIN <= to_int z <= INT_MAX.
Proof.
  unfold to_int, INT_MIN, INT_MAX.
  pose proof (Z.mod_pos_bound (z + 2 ^ 31) (2 ^ 32)). lia.
Qed.

Lemma to_int_add_wrap z k : to_int (z + k * 2 ^ 32) = to_int z.
Proof.
  unfold to_int.
  replace (z + k * 2 ^ 32 + 2 ^ 31) with (z + 2 ^ 31 + k * 2 ^ 32) by lia.
  rewrite Z.mod_add by lia. reflexivity.
Qed.

(** ** List lemmas *)

Lemma length_resize n l : length (resize n l) = n.
Proof.
  unfold resize. rewrite length_app, length_firstn, repeat_length. lia.
Qed.

Lemma resize_app_exact (d l : list Byte.byte) :
  resize (length d) (d ++ l) = d.
Proof.
  unfold resize. rewrite firstn_app, firstn_all, Nat.sub_diag.
  rewrite length_app. replace (length d - (length d + length l))%nat with 0%nat by lia.
  simpl. rewrite !app_nil_r. reflexivity.
Qed.

(** ** Sequences of steps *)

Section Star.
Context {A : Type} (R : A -> A -> Prop).

Inductive star : A -> A -> Prop :=
| star_refl a : star a a
| star_step a b c : R a b -> star b c -> star a c.

Lemma star_one a b : R a b -> star a b.
Proof. intros H. eapply star_step; [exact H|constructor]. Qed.

Lemma star_trans a b c : star a b -> star b c -> star a c.
Proof. induction 1; eauto using star. Qed.

(** A preorder that every step respects holds along every sequence. *)
Lemma star_preserves (P : A -> A -> Prop) :
  (forall a, P a a) -> (forall a b c, P a b -> P b c -> P a c) ->
  (forall a b, R a b -> P a b) ->
  forall a b, star a b -> P a b.
Proof. intros Hr Ht Hs a b. induction 1; eauto. Qed.
End Star.

(** ** Automation *)

Create HintDb udp.
Create Rewrite HintDb udp_rw.
#[export] Hint Rewrite @sbind_ret @sbind_assoc : udp_rw.
#[export] Hint Rewrite @sassert_true @swhen_false : udp_rw.
(** A list with an element appended is not empty. *)
Lemma snoc_ne {A} (l : list A) x : l ++ [x] <> [].
Proof. destruct l; discriminate. Qed.

#[export] Hint Resolve to_int_range snoc_ne : udp.

(** Unfold one monadic bind whose left-hand side is known by an equation of
    the context. *)
Ltac step_bind :=
  match goal with
  | H : ?c ?s = (_, Ok _) |- context [sbind ?c _ ?s] => rewrite (sbind_ok _ _ _ _ _ H)
  | H : ?c ?s = (_, Throw _) |- context [sbind ?c _ ?s] => rewrite (sbind_throw _ _ _ _ _ H)
  | H : ?c ?s = (_, Abort) |- context [sbind ?c _ ?s] => rewrite (sbind_abort _ _ _ _ H)
  end.

(** Split a normal return of a chain of binds into its steps. *)
Ltac ok_inv H :=
  repeat match type of H with
         | sbind _ _ _ = (_, Ok _) =>
             let s1 := fresh "s" in let a := fresh "a" in let H1 := fresh "Hstep" in
             apply sbind_ok_inv in H as (s1 & a & H1 & H)
         end.

(** Run a computation of the monad by unfolding and simplification. *)
Ltac run := repeat (autorewrite with udp_rw; cbn [sbind sret sthrow sabort sassert sget sgets smodify swhen fst snd]).
