(* ===== verification/Types.v ===== *)
(** * Data of the UDP transceiver

    The exceptions the transceiver throws, the errno values of the socket
    calls, socket addresses with the multicast tests of the constructors,
    [IceInternal::Buffer], the events written to the logger and the
    statistics sink, the members of [UdpTransceiver] ([transceiver]),
    the runtime configuration it reads ([instance]), and the state and
    monad ([St], [M]) every operation runs in. *)

From Stdlib Require Import String ZArith List Lia Bool.
From S2P Require Import Prelude.
Import ListNotations.
Open Scope Z_scope.
Open Scope udp_scope.

(** ** errno values, as classified by [Network.cpp] *)

Inductive errno : Type :=
| EINTR
| EWOULDBLOCK          (** also [EAGAIN], [WSAEWOULDBLOCK] *)
| EMSGSIZE             (** [WSAEMSGSIZE]: datagram truncated *)
| ECONNREFUSED
| ENOTCONN
| EOther (code : Z).

Definition errno_eqb (a b : errno) : bool :=
  match a, b with
  | EINTR, EINTR | EWOULDBLOCK, EWOULDBLOCK | EMSGSIZE, EMSGSIZE
  | ECONNREFUSED, ECONNREFUSED | ENOTCONN, ENOTCONN => true
  | EOther x, EOther y => x =? y
  | _, _ => false
  end.

(** ** Ice local exceptions *)

Inductive ice_exn : Type :=
| DatagramLimitException
| MemoryLimitException
| TimeoutException
| ConnectionLostException
| ConnectFailedException (error : errno)
| SocketException (error : errno)
| DNSException.

(** What a [throw] expression throws: an exception object, or (for
    [throw new E]) a pointer to a heap-allocated one, which a handler
    [catch(const E&)] does not catch. *)
Inductive thrown : Type :=
| Thrown (e : ice_exn)
| ThrownPtr (e : ice_exn).

(** ** Socket addresses ([struct sockaddr_storage]) *)

Inductive family : Type := AF_INET | AF_INET6 | AF_UNSPEC.

(** The address is the 32-bit [sin_addr] (host order) or the 128-bit
    [sin6_addr] read as a big-endian number. *)
Record sockaddr : Type := mk_sockaddr {
  ss_family : family;
  s_addr : Z;
  sin_port : Z
}.

(** [IN_MULTICAST(a)]: [((a) & 0xf0000000) == 0xe0000000]. *)
Definition IN_MULTICAST (a : Z) : bool :=
  Z.land a 0xf0000000 =? 0xe0000000.

(** [IN6_IS_ADDR_MULTICAST(a)]: the first byte of the address is [0xff]. *)
Definition IN6_IS_ADDR_MULTICAST (a : Z) : bool :=
  Z.land (Z.shiftr a 120) 0xff =? 0xff.

(** The multicast test of both constructors (lines 432-445 and 497-510):
    every family other than [AF_INET] is read as IPv6. *)
Definition addr_is_multicast (a : sockaddr) : bool :=
  match ss_family a with
  | AF_INET => IN_MULTICAST (s_addr a)
  | _ => IN6_IS_ADDR_MULTICAST (s_addr a)
  end.

(** The multicast ranges as the RFCs state them: [224.0.0.0/4] for IPv4
    (RFC 5771) and [ff00::/8] for IPv6 (RFC 4291); addresses are read as
    numbers in network byte order. *)
Definition multicast_ref (a : sockaddr) : bool :=
  match ss_family a with
  | AF_INET => (0xe0000000 <=? s_addr a) && (s_addr a <=? 0xefffffff)
  | _ => 0xff * 2 ^ 120 <=? s_addr a
  end.

(** The width of the address of each family, in bits. *)
Definition addr_bits (f : family) : Z :=
  match f with AF_INET => 32 | _ => 128 end.

(** [getPort(addr)] *)
Definition getPort (a : sockaddr) : Z := sin_port a.

(** ** [IceInternal::Buffer]: the bytes [b] and the iterator [i] (an offset). *)

Record Buffer : Type := mkBuffer {
  b : list Byte.byte;
  i : nat
}.

Definition buf_size (buf : Buffer) : Z := Z.of_nat (length (b buf)).

(** The invariant of [Buffer]: the iterator [i] points into [b], from
    [b.begin()] to [b.end()]. *)
Definition buf_wf (buf : Buffer) : bool := Nat.leb (i buf) (length (b buf)).

(** ** Log events *)

Inductive trace_msg : Type :=
| TrClosing
| TrShuttingDown
| TrSent (n : Z)
| TrReceived (n : Z)
| TrConnected
| TrStartSend
| TrAttemptBind (a : sockaddr)
| TrStartReceive.

Inductive warn_msg : Type :=
| WDatagramLimit (packetSize : Z)
| WInvalidProperty (prop : string) (requested dflt : Z)
| WBufferAdjusted (direction : string) (requested applied : Z).

(** What [toString] formats: [addressesToString(_addr, remoteAddr,
    peerConnected)] or [fdToString(_fd)].  The text itself is not
    modelled, only which formatter runs on which values. *)
Inductive description : Type :=
| DAddresses (local remote : sockaddr) (peerConnected : bool)
| DFd (fd : Z).

(** A trace line carries its message and the [toString()] it ends
    with; [ETraceLine] is a trace line without [toString()]. *)
Inductive event : Type :=
| ETrace (level : Z) (m : trace_msg) (d : description)
| ETraceLine (level : Z) (m : trace_msg)
| EWarning (w : warn_msg)
| EBytesSent (transport : string) (n : Z)
| EBytesReceived (transport : string) (n : Z)
| ECerr (packetSize maxPacketSize sndSize : Z).

(** ** Platforms, as distinguished by the preprocessor tests *)

Inductive platform : Type := Win32 | Sun | HPPA | AIX | Apple | OtherUnix.

Definition is_win32 (p : platform) : bool :=
  match p with Win32 => true | _ => false end.

(** [#if defined(_WIN32) || defined(__sun) || defined(__hppa) ||
    defined(_AIX) || defined(__APPLE__)] of [shutdownReadWrite]. *)
Definition wakeup_needed (p : platform) : bool :=
  match p with OtherUnix => false | _ => true end.

(** ** The runtime configuration read by the transceiver ([Instance]) *)

Record instance : Type := mkInstance {
  traceNetwork : Z;                       (** [traceLevels()->network] *)
  statsPresent : bool;                    (** [initializationData().stats] non-null *)
  properties : list (string * Z);         (** integer-valued properties *)
  protocolSupport : Z;
  inst_platform : platform
}.

Fixpoint lookup_prop (key : string) (l : list (string * Z)) : option Z :=
  match l with
  | [] => None
  | (k, v) :: l' => if String.eqb k key then Some v else lookup_prop key l'
  end.

(** [Properties::getPropertyAsIntWithDefault] and [getPropertyAsInt]. *)
Definition getPropertyAsIntWithDefault (inst : instance) (key : string) (dflt : Z) : Z :=
  match lookup_prop key (properties inst) with Some v => v | None => dflt end.

Definition getPropertyAsInt (inst : instance) (key : string) : Z :=
  getPropertyAsIntWithDefault inst key 0.

(** ** The members of [UdpTransceiver] *)

Definition INVALID_SOCKET : Z := -1.

Record transceiver : Type := mkTransceiver {
  _traceNetwork : Z;
  _stats : bool;
  _incoming : bool;
  _addr : sockaddr;
  _connect : bool;
  _warn : bool;
  _shutdownReadWrite : bool;
  _mcastServer : option bool;   (** [None]: never assigned *)
  _fd : Z;
  _rcvSize : Z;
  _sndSize : Z;
  _platform : platform
}.

Definition set_fd (fd : Z) (t : transceiver) : transceiver :=
  {| _traceNetwork := _traceNetwork t; _stats := _stats t; _incoming := _incoming t;
     _addr := _addr t; _connect := _connect t; _warn := _warn t;
     _shutdownReadWrite := _shutdownReadWrite t; _mcastServer := _mcastServer t;
     _fd := fd; _rcvSize := _rcvSize t; _sndSize := _sndSize t; _platform := _platform t |}.

Definition set_connect (c : bool) (t : transceiver) : transceiver :=
  {| _traceNetwork := _traceNetwork t; _stats := _stats t; _incoming := _incoming t;
     _addr := _addr t; _connect := c; _warn := _warn t;
     _shutdownReadWrite := _shutdownReadWrite t; _mcastServer := _mcastServer t;
     _fd := _fd t; _rcvSize := _rcvSize t; _sndSize := _sndSize t; _platform := _platform t |}.

Definition set_shutdownReadWrite (f : bool) (t : transceiver) : transceiver :=
  {| _traceNetwork := _traceNetwork t; _stats := _stats t; _incoming := _incoming t;
     _addr := _addr t; _connect := _connect t; _warn := _warn t;
     _shutdownReadWrite := f; _mcastServer := _mcastServer t;
     _fd := _fd t; _rcvSize := _rcvSize t; _sndSize := _sndSize t; _platform := _platform t |}.

Definition set_mcastServer (m : bool) (t : transceiver) : transceiver :=
  {| _traceNetwork := _traceNetwork t; _stats := _stats t; _incoming := _incoming t;
     _addr := _addr t; _connect := _connect t; _warn := _warn t;
     _shutdownReadWrite := _shutdownReadWrite t; _mcastServer := Some m;
     _fd := _fd t; _rcvSize := _rcvSize t; _sndSize := _sndSize t; _platform := _platform t |}.

Definition set_addr (a : sockaddr) (t : transceiver) : transceiver :=
  {| _traceNetwork := _traceNetwork t; _stats := _stats t; _incoming := _incoming t;
     _addr := a; _connect := _connect t; _warn := _warn t;
     _shutdownReadWrite := _shutdownReadWrite t; _mcastServer := _mcastServer t;
     _fd := _fd t; _rcvSize := _rcvSize t; _sndSize := _sndSize t; _platform := _platform t |}.

(** [_rcvSize] (direction 0) or [_sndSize] (direction 1). *)
Definition set_bufsize (dir : nat) (n : Z) (t : transceiver) : transceiver :=
  {| _traceNetwork := _traceNetwork t; _stats := _stats t; _incoming := _incoming t;
     _addr := _addr t; _connect := _connect t; _warn := _warn t;
     _shutdownReadWrite := _shutdownReadWrite t; _mcastServer := _mcastServer t;
     _fd := _fd t;
     _rcvSize := if Nat.eqb dir 0 then n else _rcvSize t;
     _sndSize := if Nat.eqb dir 0 then _sndSize t else n;
     _platform := _platform t |}.

(** ** The state every operation runs in, and its monad *)

Record St (W : Type) : Type := mkSt {
  tr : transceiver;
  os : W;
  log : list event
}.
Arguments mkSt {W} tr os log.
Arguments tr {W} s.
Arguments os {W} s.
Arguments log {W} s.

Definition M (W A : Type) : Type := stm (St W) thrown A.

Section StateOps.
Context {W : Type}.

Definition get_tr : M W transceiver := sgets tr.

Definition modify_tr (f : transceiver -> transceiver) : M W unit :=
  smodify (fun s => mkSt (f (tr s)) (os s) (log s)).

Definition emit (e : event) : M W unit :=
  smodify (fun s => mkSt (tr s) (os s) (log s ++ [e])).

Definition throw {A} (e : ice_exn) : M W A := sthrow (Thrown e).

(** [assert(_fd != INVALID_SOCKET)] *)
Definition assert_fd : M W unit :=
  t <- get_tr ;; sassert (negb (_fd t =? INVALID_SOCKET)).

(** [if(_traceLevels->network >= level) { Trace out(...); out << m; }]
    for the one trace whose message does not end with [toString()]. *)
Definition trace_line (level : Z) (m : trace_msg) : M W unit :=
  t <- get_tr ;; swhen (level <=? _traceNetwork t) (emit (ETraceLine level m)).
End StateOps.

(** [_fd != INVALID_SOCKET] in a state. *)
Definition fd_valid {W} (s : St W) : bool := negb (_fd (tr s) =? INVALID_SOCKET).

(** [toString()] formats the descriptor alone, without a system call:
    [_mcastServer] was assigned, and is false or the descriptor invalid. *)
Definition tostring_local (t : transceiver) : bool :=
  match _mcastServer t with
  | Some m => negb m || (_fd t =? INVALID_SOCKET)
  | None => false
  end.

(** A trace at [level] is off, or its [toString()] is local. *)
Definition trace_quiet (t : transceiver) (level : Z) : bool :=
  negb (level <=? _traceNetwork t) || tostring_local t.

(** The trace line a quiet trace writes. *)
Definition trace_events (t : transceiver) (level : Z) (m : trace_msg) : list event :=
  if level <=? _traceNetwork t then [ETrace level m (DFd (_fd t))] else [].

Section StateOpLemmas.
Context {W : Type}.

Lemma assert_fd_run (s : St W) :
  assert_fd s = (s, if fd_valid s then Ok tt else Abort).
Proof.
  unfold assert_fd, fd_valid, get_tr, sgets, sbind, sassert, sret, sabort.
  destruct (negb _); reflexivity.
Qed.

(** A local [toString()] makes every trace level quiet. *)
Lemma quiet_of_local t l : tostring_local t = true -> trace_quiet t l = true.
Proof. intros H. unfold trace_quiet. rewrite H, orb_true_r. reflexivity. Qed.

(** A trace quiet at [l] is quiet at every higher level. *)
Lemma quiet_mono t l l' : (l <= l')%Z -> trace_quiet t l = true -> trace_quiet t l' = true.
Proof.
  unfold trace_quiet. intros Hle. rewrite !orb_true_iff, !negb_true_iff, !Z.leb_gt.
  intros [H|H]; [left; lia|right; exact H].
Qed.

Lemma emit_when_run (c : bool) e (s : St W) :
  swhen c (emit e) s = (mkSt (tr s) (os s) (log s ++ if c then [e] else []), Ok tt).
Proof.
  unfold swhen, emit, smodify, sret. destruct c; cbn; rewrite ?app_nil_r; [reflexivity|].
  destruct s; reflexivity.
Qed.
End StateOpLemmas.

(** ** The multicast tests *)

(** Masking with [k] ones above bit [n] selects the [k] bits of [a]
    above bit [n]. *)
Lemma land_shifted_ones a n k :
  0 <= n -> 0 <= k -> Z.land a (Z.shiftl (Z.ones k) n) = Z.shiftl (Z.land (Z.shiftr a n) (Z.ones k)) n.
Proof.
  intros Hn Hk. apply Z.bits_inj'. intros m Hm.
  rewrite Z.land_spec, !Z.shiftl_spec, Z.land_spec by lia.
  destruct (Z.lt_ge_cases m n).
  - rewrite !(Z.testbit_neg_r _ (m - n)) by lia. apply andb_false_r.
  - rewrite Z.shiftr_spec by lia. now replace (m - n + n) with m by lia.
Qed.

(** For [0 <= a < 2^w], the [k] bits above bit [n = w - k] are [a / 2^n]. *)
Lemma top_bits a n k :
  0 <= n -> 0 <= k -> 0 <= a < 2 ^ (n + k) ->
  Z.land a (Z.shiftl (Z.ones k) n) = a / 2 ^ n * 2 ^ n.
Proof.
  intros Hn Hk Ha. rewrite land_shifted_ones, Z.land_ones, Z.shiftl_mul_pow2,
    Z.shiftr_div_pow2 by lia.
  rewrite Z.mod_small; [reflexivity|split].
  - apply Z.div_pos; lia.
  - apply Z.div_lt_upper_bound; [lia|]. now rewrite <- Z.pow_add_r by lia.
Qed.

Lemma div_pow_eq_iff a n h :
  0 < 2 ^ n -> a / 2 ^ n = h <-> h * 2 ^ n <= a < (h + 1) * 2 ^ n.
Proof.
  intros Hp. pose proof (Z.div_mod a (2 ^ n) ltac:(lia)).
  pose proof (Z.mod_pos_bound a (2 ^ n) Hp). split; [intros <-; nia|].
  intros [H1 H2]. assert (a / 2 ^ n < h + 1) by nia. assert (h <= a / 2 ^ n) by nia. lia.
Qed.

(** C34: The bit tests of the constructors are exactly the multicast
    ranges: [IN_MULTICAST] holds of the IPv4 addresses [224.0.0.0] to
    [239.255.255.255] and [IN6_IS_ADDR_MULTICAST] of the IPv6 addresses
    whose first byte is [0xff], for every address of its width. *)
Theorem addr_is_multicast_ref a :
  0 <= s_addr a < 2 ^ addr_bits (ss_family a) ->
  addr_is_multicast a = multicast_ref a.
Proof.
  unfold addr_is_multicast, multicast_ref, IN_MULTICAST, IN6_IS_ADDR_MULTICAST.
  destruct a as [f x p]; cbn [ss_family s_addr]. intros H.
  destruct f; cbn [addr_bits] in H; apply eq_iff_eq_true; rewrite Z.eqb_eq.
  1: { change 0xf0000000 with (Z.shiftl (Z.ones 4) 28).
        rewrite top_bits by lia. rewrite andb_true_iff, !Z.leb_le.
        change 0xe0000000 with (14 * 2 ^ 28).
        rewrite Z.mul_cancel_r, div_pow_eq_iff by lia. lia. }
  (* every other family is read as IPv6 *)
  all: change 0xff with (Z.ones 8); rewrite Z.land_ones, Z.shiftr_div_pow2 by lia.
  all: rewrite Z.mod_small by (split; [apply Z.div_pos|apply Z.div_lt_upper_bound]; lia).
  all: rewrite Z.leb_le, (div_pow_eq_iff x 120 (Z.ones 8)) by lia.
  all: change (Z.ones 8) with 255; lia.
Qed.

Lemma addr_is_multicast_ref_witness :
  0 <= s_addr (mk_sockaddr AF_INET 0xefffffff 0) < 2 ^ addr_bits AF_INET /\
  addr_is_multicast (mk_sockaddr AF_INET 0xefffffff 0) =
  multicast_ref (mk_sockaddr AF_INET 0xefffffff 0).
Proof.
  split; [cbn; lia|].
  apply (addr_is_multicast_ref (mk_sockaddr AF_INET 0xefffffff 0)). cbn. lia.
Defined.
