(* ===== verification/Os.v ===== *)
(** * The platform layer the transceiver calls

    [UdpTransceiver.cpp] calls the helpers of [IceInternal::Network]
    ([createSocket], [doConnect], [doBind], [getRecvBufferSize], ...) and
    the raw socket calls [::send], [::recv], [::recvfrom], [::poll] (or
    [::select] on Windows) and [::connect].  None of them is among the
    sources: they are the typeclass [SocketApi], the interface the
    transceiver's theorems are proved against, with its calls lifted into
    the monad [M] ([liftNet], [liftSys]).  A helper reports failure by
    throwing an Ice exception ([inl]); a raw call returns [SOCKET_ERROR]
    and sets [errno] ([SysErr]).

    [toString] (lines 372-385) and [trace] live here because a trace
    calls [toString], which calls [fdToRemoteAddress] on a multicast
    server: every trace of the transceiver can reach the platform layer.

    [ScriptOS] implements the interface for a world made of a script of
    replies and the log of the calls made: a call takes the next reply
    when it has the call's kind, and otherwise succeeds with a default.
    It is the implementation of the witnesses and of the termination
    theorems. *)

From Stdlib Require Import String ZArith List Lia Bool.
From S2P Require Import Prelude Types.
Import ListNotations.
Open Scope Z_scope.
Open Scope udp_scope.

(** Result of a raw socket call: a non-negative count, or [SOCKET_ERROR]
    with the [errno] it set. *)
Inductive sysret : Type :=
| SysOk (n : Z)
| SysErr (e : errno).

Inductive direction : Type := DirRead | DirWrite.

Class SocketApi (W : Type) : Type := {
  createSocket : bool -> family -> W -> W * (ice_exn + Z);
  closeSocket : Z -> W -> W * (ice_exn + unit);
  setBlock : Z -> bool -> W -> W * (ice_exn + unit);
  setReuseAddress : Z -> bool -> W -> W * (ice_exn + unit);
  doConnect : Z -> sockaddr -> Z -> W -> W * (ice_exn + unit);
  doBind : Z -> sockaddr -> W -> W * (ice_exn + unit);
  getAddressForServer : string -> Z -> Z -> W -> W * (ice_exn + sockaddr);
  setMcastGroup : Z -> sockaddr -> string -> W -> W * (ice_exn + unit);
  setMcastInterface : Z -> string -> bool -> W -> W * (ice_exn + unit);
  setMcastTtl : Z -> Z -> bool -> W -> W * (ice_exn + unit);
  getRecvBufferSize : Z -> W -> W * (ice_exn + Z);
  getSendBufferSize : Z -> W -> W * (ice_exn + Z);
  setRecvBufferSize : Z -> Z -> W -> W * (ice_exn + unit);
  setSendBufferSize : Z -> Z -> W -> W * (ice_exn + unit);
  shutdownSocketReadWrite : Z -> W -> W * (ice_exn + unit);
  fdToLocalAddress : Z -> W -> W * (ice_exn + sockaddr);
  (** [fdToRemoteAddress(fd, addr)]: whether the socket has a peer, and
      the peer's address when it has one *)
  fdToRemoteAddress : Z -> W -> W * (ice_exn + (bool * sockaddr));
  (** [::send(fd, data, size, 0)] *)
  sys_send : Z -> list Byte.byte -> W -> W * sysret;
  (** [::recv(fd, buf, len, 0)]: the count and the bytes received *)
  sys_recv : Z -> Z -> W -> W * (sysret * list Byte.byte);
  (** [::recvfrom(fd, buf, len, 0, &peer, &len)] *)
  sys_recvfrom : Z -> Z -> W -> W * (sysret * list Byte.byte * sockaddr);
  (** [::poll] for [POLLIN]/[POLLOUT] (or [::select]) with a timeout in ms,
      [-1] for none: the number of ready descriptors *)
  sys_wait : Z -> direction -> Z -> W -> W * sysret;
  (** [::connect(fd, addr, len)], its result ignored by the caller *)
  sys_connect : Z -> sockaddr -> W -> W * sysret
}.

(** ** [errno] classification ([Network.cpp]) *)

Definition interrupted (e : errno) : bool := errno_eqb e EINTR.
Definition wouldBlock (e : errno) : bool := errno_eqb e EWOULDBLOCK.
Definition recvTruncated (e : errno) : bool := errno_eqb e EMSGSIZE.

(** ** Lifting the calls into the monad *)

Section Lift.
Context {W : Type}.

Definition liftNet {A} (f : W -> W * (ice_exn + A)) : M W A :=
  fun s =>
    let '(w', r) := f (os s) in
    (mkSt (tr s) w' (log s),
     match r with inl e => Throw (Thrown e) | inr a => Ok a end).

Definition liftSys {A} (f : W -> W * A) : M W A :=
  fun s => let '(w', r) := f (os s) in (mkSt (tr s) w' (log s), Ok r).

Lemma liftSys_run {A} (f : W -> W * A) s w' r :
  f (os s) = (w', r) -> liftSys f s = (mkSt (tr s) w' (log s), Ok r).
Proof. unfold liftSys. intros ->. reflexivity. Qed.

Lemma liftNet_ok {A} (f : W -> W * (ice_exn + A)) s w' a :
  f (os s) = (w', inr a) -> liftNet f s = (mkSt (tr s) w' (log s), Ok a).
Proof. unfold liftNet. intros ->. reflexivity. Qed.

Lemma liftNet_fail {A} (f : W -> W * (ice_exn + A)) s w' e :
  f (os s) = (w', inl e) -> liftNet f s = (mkSt (tr s) w' (log s), Throw (Thrown e)).
Proof. unfold liftNet. intros ->. reflexivity. Qed.
Lemma liftNet_ok_inv {A} (f : W -> W * (ice_exn + A)) s s' a :
  liftNet f s = (s', Ok a) -> exists w', f (os s) = (w', inr a) /\ s' = mkSt (tr s) w' (log s).
Proof.
  unfold liftNet. destruct (f (os s)) as [w' [e|a']]; intros Hf; [discriminate|].
  injection Hf as <- ->. eauto.
Qed.
End Lift.

(** ** [toString] and the traces that print it *)

Section Trace.
Context {W : Type} `{SocketApi W}.

(** [string UdpTransceiver::toString() const] (lines 372-385).
    [_mcastServer] is [None] when no constructor assigned it: reading it
    is undefined behaviour, modelled as [Abort]. *)
Definition toString : M W description :=
  t <- get_tr ;;
  match _mcastServer t with
  | None => sabort
  | Some mcast =>
      if mcast && negb (_fd t =? INVALID_SOCKET) then
        r <- liftNet (fdToRemoteAddress (_fd t)) ;;
        sret (DAddresses (_addr t) (snd r) (fst r))
      else sret (DFd (_fd t))
  end.

(** [if(_traceLevels->network >= level) { Trace out(...); out << m << toString(); }] *)
Definition trace (level : Z) (m : trace_msg) : M W unit :=
  t <- get_tr ;;
  swhen (level <=? _traceNetwork t) (d <- toString ;; emit (ETrace level m d)).

Lemma toString_local (s : St W) :
  tostring_local (tr s) = true -> toString s = (s, Ok (DFd (_fd (tr s)))).
Proof.
  unfold tostring_local, toString, get_tr, sgets, sbind. cbn.
  destruct (_mcastServer (tr s)) as [[|]|]; cbn; try discriminate; [|reflexivity].
  intros ->. reflexivity.
Qed.

Lemma trace_run level m (s : St W) :
  trace_quiet (tr s) level = true ->
  trace level m s = (mkSt (tr s) (os s) (log s ++ trace_events (tr s) level m), Ok tt).
Proof.
  unfold trace_quiet, trace, trace_events, get_tr, sgets, sbind at 1, swhen. cbn.
  destruct (level <=? _traceNetwork (tr s)); cbn.
  - intros Hl. unfold sbind. rewrite toString_local by exact Hl. reflexivity.
  - intros _. rewrite app_nil_r. destruct s; reflexivity.
Qed.

(** Before [_mcastServer] is assigned, [toString] reads an
    uninitialized member. *)
Lemma toString_uninit (s : St W) :
  _mcastServer (tr s) = None -> toString s = (s, Abort).
Proof. intros Hm. unfold toString, get_tr, sgets, sbind. cbn. rewrite Hm. reflexivity. Qed.

(** A trace that is on aborts while [_mcastServer] is unassigned. *)
Lemma trace_uninit level m (s : St W) :
  _mcastServer (tr s) = None -> (level <=? _traceNetwork (tr s)) = true ->
  trace level m s = (s, Abort).
Proof.
  intros Hm Hl. unfold trace, get_tr, sgets, sbind at 1, swhen. cbn. rewrite Hl.
  unfold sbind. rewrite toString_uninit by exact Hm. reflexivity.
Qed.

(** On an invalid descriptor a trace makes no system call: it writes its
    line, or aborts on an uninitialized [_mcastServer]. *)
Lemma trace_invalid_fd level m (s : St W) :
  _fd (tr s) = INVALID_SOCKET ->
  trace level m s = (mkSt (tr s) (os s) (log s ++ trace_events (tr s) level m), Ok tt) \/
  trace level m s = (s, Abort).
Proof.
  intros Hf. destruct (trace_quiet (tr s) level) eqn:Hq; [left; apply trace_run, Hq|right].
  unfold trace_quiet, tostring_local in Hq. rewrite Hf, Z.eqb_refl in Hq.
  destruct (level <=? _traceNetwork (tr s)) eqn:Hl; [|discriminate].
  destruct (_mcastServer (tr s)) as [b|] eqn:Hm; [rewrite orb_true_r in Hq; discriminate|].
  apply trace_uninit; assumption.
Qed.
End Trace.

(** ** Computations that leave the transceiver's members alone *)

Definition keeps_tr {W A} (c : M W A) : Prop := forall s, tr (fst (c s)) = tr s.

Section KeepsTr.
Context {W : Type}.

Lemma keeps_tr_bind {A B} (c : M W A) (k : A -> M W B) :
  keeps_tr c -> (forall a, keeps_tr (k a)) -> keeps_tr (sbind c k).
Proof.
  intros Hc Hk s. unfold sbind. specialize (Hc s).
  destruct (c s) as [s' o]; cbn in Hc. destruct o; cbn; rewrite ?Hk; assumption.
Qed.

Lemma keeps_tr_ret {A} (a : A) : keeps_tr (W:=W) (sret a).
Proof. intros s. reflexivity. Qed.

Lemma keeps_tr_throw {A} e : keeps_tr (W:=W) (A:=A) (sthrow e).
Proof. intros s. reflexivity. Qed.

Lemma keeps_tr_liftNet {A} (f : W -> W * (ice_exn + A)) : keeps_tr (liftNet f).
Proof. intros s. unfold liftNet. destruct (f (os s)) as [w' r]. reflexivity. Qed.

Lemma keeps_tr_liftSys {A} (f : W -> W * A) : keeps_tr (liftSys f).
Proof. intros s. unfold liftSys. destruct (f (os s)) as [w' r]. reflexivity. Qed.

Lemma keeps_tr_assert_fd : keeps_tr (W:=W) assert_fd.
Proof. intros s. rewrite assert_fd_run. reflexivity. Qed.

Lemma keeps_tr_get_tr : keeps_tr (W:=W) get_tr.
Proof. intros s. reflexivity. Qed.

Lemma keeps_tr_swhen (c : bool) (k : M W unit) : keeps_tr k -> keeps_tr (swhen c k).
Proof. intros Hk s. destruct c; [apply Hk|reflexivity]. Qed.

Lemma keeps_tr_emit e : keeps_tr (W:=W) (emit e).
Proof. intros s. reflexivity. Qed.

Lemma keeps_tr_sassert c : keeps_tr (W:=W) (sassert c).
Proof. intros s. destruct c; reflexivity. Qed.
End KeepsTr.

Section KeepsTrTrace.
Context {W : Type} `{SocketApi W}.

Lemma keeps_tr_toString : keeps_tr (W:=W) toString.
Proof.
  intros s. unfold toString, get_tr, sgets, sbind. cbn.
  destruct (_mcastServer (tr s)) as [m|]; [|reflexivity].
  destruct (m && _); [|reflexivity].
  unfold liftNet. destruct (fdToRemoteAddress _ _) as [w' [e|a]]; reflexivity.
Qed.

Lemma keeps_tr_trace level m : keeps_tr (W:=W) (trace level m).
Proof.
  intros s. unfold trace, get_tr, sgets, sbind at 1. cbn.
  destruct (level <=? _traceNetwork (tr s)); [|reflexivity]. cbn. unfold sbind.
  pose proof (keeps_tr_toString s) as Hk.
  destruct (toString s) as [s1 [d| | |]]; cbn in *; exact Hk.
Qed.

(** A trace ends normally, aborts on an unassigned [_mcastServer], or
    throws what [fdToRemoteAddress] throws on a multicast server. *)
Lemma trace_cases level m (s : St W) :
  snd (trace level m s) = Ok tt \/ snd (trace level m s) = Abort \/
  exists e, snd (trace level m s) = Throw (Thrown e) /\ _mcastServer (tr s) = Some true.
Proof.
  unfold trace, get_tr, sgets, sbind at 1. cbn.
  destruct (level <=? _traceNetwork (tr s)); [|now left]. cbn.
  unfold sbind, toString, get_tr, sgets, sbind. cbn.
  destruct (_mcastServer (tr s)) as [[|]|] eqn:Hm; cbn; [|now left|now right; left].
  destruct (negb _); cbn; [|now left].
  unfold liftNet. destruct (fdToRemoteAddress _ _) as [w' [e|a]]; cbn; [|now left].
  right; right. eauto.
Qed.

(** A trace followed by a return never runs out of fuel, and returns
    the value unless [toString] aborted or threw. *)
Lemma trace_ret_cases {A} level m (r : A) (s : St W) :
  snd ((trace level m ;; sret r) s) = Ok r \/ snd ((trace level m ;; sret r) s) = Abort \/
  exists e, snd ((trace level m ;; sret r) s) = Throw (Thrown e).
Proof.
  unfold sbind. destruct (trace_cases level m s) as [E|[E|[e [E _]]]];
    destruct (trace level m s) as [s1 o]; cbn in E; subst; cbn; eauto.
Qed.
End KeepsTrTrace.

Lemma keeps_tr_run {W A} (c : M W A) s s1 o :
  keeps_tr c -> c s = (s1, o) -> tr s1 = tr s.
Proof. intros Hk Hc. rewrite <- (Hk s), Hc. reflexivity. Qed.

Create HintDb keeps.
#[export] Hint Resolve keeps_tr_bind keeps_tr_ret keeps_tr_throw keeps_tr_liftNet
  keeps_tr_liftSys keeps_tr_assert_fd keeps_tr_get_tr keeps_tr_trace keeps_tr_toString keeps_tr_swhen
  keeps_tr_emit keeps_tr_sassert : keeps.

(** Prove [keeps_tr] of a composition of calls. *)
Ltac solve_keeps :=
  repeat (cbv beta; first [ solve [eauto with keeps]
                          | apply keeps_tr_bind; [|intros ?]
                          | apply keeps_tr_swhen
                          | match goal with |- keeps_tr (if ?b then _ else _) => destruct b end ]).

(** ** The scripted implementation *)

Module ScriptOS.

Inductive call : Type :=
| CCreateSocket (udp : bool) (fam : family)
| CCloseSocket (fd : Z)
| CSetBlock (fd : Z) (block : bool)
| CSetReuseAddress (fd : Z) (reuse : bool)
| CDoConnect (fd : Z) (a : sockaddr)
| CDoBind (fd : Z) (a : sockaddr)
| CGetAddressForServer (host : string) (port : Z)
| CSetMcastGroup (fd : Z) (a : sockaddr) (intf : string)
| CSetMcastInterface (fd : Z) (intf : string)
| CSetMcastTtl (fd : Z) (ttl : Z)
| CGetRecvBufferSize (fd : Z)
| CGetSendBufferSize (fd : Z)
| CSetRecvBufferSize (fd : Z) (n : Z)
| CSetSendBufferSize (fd : Z) (n : Z)
| CShutdown (fd : Z)
| CLocalAddress (fd : Z)
| CRemoteAddress (fd : Z)
| CSend (fd : Z) (data : list Byte.byte)
| CRecv (fd : Z) (len : Z)
| CRecvFrom (fd : Z) (len : Z)
| CWait (fd : Z) (d : direction) (timeout : Z)
| CConnect (fd : Z) (a : sockaddr).

Inductive reply : Type :=
| RFail (e : ice_exn)                 (** the next helper throws [e] *)
| ROk                                 (** the next helper succeeds *)
| RInt (n : Z)                        (** a buffer-size query *)
| RAddr (a : sockaddr)                (** an address query *)
| RSys (r : sysret)                   (** send, poll/select, connect *)
| RData (r : sysret) (d : list Byte.byte)                  (** recv *)
| RFrom (r : sysret) (d : list Byte.byte) (a : sockaddr).  (** recvfrom *)

Record world : Type := mkWorld {
  replies : list reply;
  calls : list call;
  next_fd : Z
}.

Definition log_call (c : call) (w : world) : world :=
  mkWorld (replies w) (calls w ++ [c]) (next_fd w).

Definition drop1 (w : world) : world :=
  mkWorld (tl (replies w)) (calls w) (next_fd w).

Definition default_bufsize : Z := 65536.
Definition default_addr : sockaddr := mk_sockaddr AF_INET 0x7f000001 10000.

(** A helper returning nothing: it consumes an [RFail] or an [ROk]. *)
Definition unit_op (c : call) (w : world) : world * (ice_exn + unit) :=
  let w := log_call c w in
  match replies w with
  | RFail e :: _ => (drop1 w, inl e)
  | ROk :: _ => (drop1 w, inr tt)
  | _ => (w, inr tt)
  end.

Definition int_op (c : call) (w : world) : world * (ice_exn + Z) :=
  let w := log_call c w in
  match replies w with
  | RFail e :: _ => (drop1 w, inl e)
  | RInt n :: _ => (drop1 w, inr n)
  | _ => (w, inr default_bufsize)
  end.

Definition addr_op (c : call) (dflt : sockaddr) (w : world) : world * (ice_exn + sockaddr) :=
  let w := log_call c w in
  match replies w with
  | RFail e :: _ => (drop1 w, inl e)
  | RAddr a :: _ => (drop1 w, inr a)
  | _ => (w, inr dflt)
  end.

Definition sys_op (c : call) (dflt : sysret) (w : world) : world * sysret :=
  let w := log_call c w in
  match replies w with
  | RSys r :: _ => (drop1 w, r)
  | _ => (w, dflt)
  end.

Definition create_op (fam : family) (w : world) : world * (ice_exn + Z) :=
  let w := log_call (CCreateSocket true fam) w in
  match replies w with
  | RFail e :: _ => (drop1 w, inl e)
  | ROk :: rs => (mkWorld rs (calls w) (next_fd w + 1), inr (next_fd w))
  | _ => (mkWorld (replies w) (calls w) (next_fd w + 1), inr (next_fd w))
  end.

(** The peer query answers with the [RAddr] of the script, and by
    default reports no peer. *)
Definition remote_op (fd : Z) (w : world) : world * (ice_exn + (bool * sockaddr)) :=
  let w := log_call (CRemoteAddress fd) w in
  match replies w with
  | RFail e :: _ => (drop1 w, inl e)
  | RAddr a :: _ => (drop1 w, inr (true, a))
  | _ => (w, inr (false, default_addr))
  end.

(** By default [recv] delivers an empty datagram and [recvfrom] one
    from [default_addr]. *)
Definition recv_op (fd len : Z) (w : world) : world * (sysret * list Byte.byte) :=
  let w := log_call (CRecv fd len) w in
  match replies w with
  | RData r d :: _ => (drop1 w, (r, d))
  | _ => (w, (SysOk 0, []))
  end.

Definition recvfrom_op (fd len : Z) (w : world)
  : world * (sysret * list Byte.byte * sockaddr) :=
  let w := log_call (CRecvFrom fd len) w in
  match replies w with
  | RFrom r d a :: _ => (drop1 w, (r, d, a))
  | _ => (w, (SysOk 0, [], default_addr))
  end.

#[export] Instance script_api : SocketApi world := {
  createSocket udp fam := create_op fam;
  closeSocket fd := unit_op (CCloseSocket fd);
  setBlock fd bl := unit_op (CSetBlock fd bl);
  setReuseAddress fd r := unit_op (CSetReuseAddress fd r);
  doConnect fd a _ := unit_op (CDoConnect fd a);
  doBind fd a := unit_op (CDoBind fd a);
  getAddressForServer host port _ :=
    addr_op (CGetAddressForServer host port) (mk_sockaddr AF_INET 0 port);
  setMcastGroup fd a intf := unit_op (CSetMcastGroup fd a intf);
  setMcastInterface fd intf _ := unit_op (CSetMcastInterface fd intf);
  setMcastTtl fd ttl _ := unit_op (CSetMcastTtl fd ttl);
  getRecvBufferSize fd := int_op (CGetRecvBufferSize fd);
  getSendBufferSize fd := int_op (CGetSendBufferSize fd);
  setRecvBufferSize fd n := unit_op (CSetRecvBufferSize fd n);
  setSendBufferSize fd n := unit_op (CSetSendBufferSize fd n);
  shutdownSocketReadWrite fd := unit_op (CShutdown fd);
  fdToLocalAddress fd := addr_op (CLocalAddress fd) default_addr;
  fdToRemoteAddress fd := remote_op fd;
  sys_send fd d := sys_op (CSend fd d) (SysOk (Z.of_nat (length d)));
  sys_recv fd len := recv_op fd len;
  sys_recvfrom fd len := recvfrom_op fd len;
  sys_wait fd dir tmo := sys_op (CWait fd dir tmo) (SysOk 1);
  sys_connect fd a := sys_op (CConnect fd a) (SysOk 0)
}.

(** A transceiver and a state to run examples from: trace level 3,
    statistics on, warnings on, on a Unix platform, with [_mcastServer]
    false as a unicast server constructor would leave it if it assigned
    it. *)
Definition sample_tr (fd rcv snd : Z) (connect shutdown : bool) : transceiver :=
  mkTransceiver 3 true false default_addr connect true shutdown (Some false) fd rcv snd OtherUnix.

Definition sample_st (t : transceiver) (rs : list reply) : St world :=
  mkSt t (mkWorld rs [] 10) [].

(** A raw call either consumes the next reply, which has its kind, or
    answers its default without consuming anything. *)
Lemma sys_op_cases c d w :
  (exists r, replies w = RSys r :: tl (replies w) /\
             sys_op c d w = (drop1 (log_call c w), r)) \/
  sys_op c d w = (log_call c w, d).
Proof.
  unfold sys_op. cbn. destruct (replies w) as [|[] rs]; cbn; eauto.
Qed.

Lemma length_drop1_log c w r rs :
  replies w = r :: rs ->
  length (replies (drop1 (log_call c w))) = length rs.
Proof. intros Hw. cbn. rewrite Hw. reflexivity. Qed.

Lemma length_log_call c w : length (replies (log_call c w)) = length (replies w).
Proof. reflexivity. Qed.
End ScriptOS.
