(* ===== verification/Limits.v ===== *)
(** * Datagram size limits

    [_udpOverhead] and [_maxPacketSize] (lines 646-651), the ceiling
    [min(_maxPacketSize, size - _udpOverhead)] computed by [write], [read]
    and [checkSendSize] from the negotiated buffer sizes, the guard
    [packetSize < static_cast<int>(buf.b.size())] that all three apply,
    and [checkSendSize] itself (lines 393-405). *)

From Stdlib Require Import String ZArith List Lia Bool.
From S2P Require Import Prelude Types Os.
Import ListNotations.
Open Scope Z_scope.
Open Scope udp_scope.

(** 20 bytes of IP header and 8 bytes of UDP header. *)
Definition _udpOverhead : Z := 20 + 8.

(** The largest UDP payload of an IP datagram. *)
Definition _maxPacketSize : Z := 65535 - _udpOverhead.

(** [const int packetSize = min(_maxPacketSize, bufSize - _udpOverhead);] *)
Definition packetSize (bufSize : Z) : Z := Z.min _maxPacketSize (bufSize - _udpOverhead).

(** [packetSize < static_cast<int>(buf.b.size())]: the [size_t] size is
    converted to [int] before the comparison. *)
Definition exceeds (ps : Z) (size : Z) : bool := ps <? to_int size.

Section CheckSendSize.
Context {W : Type}.

(** [UdpTransceiver::checkSendSize(buf, messageSizeMax)] *)
Definition checkSendSize (buf : Buffer) (messageSizeMax : Z) : M W unit :=
  if messageSizeMax <? buf_size buf then throw MemoryLimitException
  else
    t <- get_tr ;;
    if exceeds (packetSize (_sndSize t)) (buf_size buf)
    then throw DatagramLimitException
    else sret tt.
End CheckSendSize.

(** ** Lemmas *)

Lemma maxPacketSize_eq : _maxPacketSize = 65507.
Proof. reflexivity. Qed.

Lemma packetSize_le_max n : packetSize n <= 65507.
Proof. unfold packetSize, _maxPacketSize, _udpOverhead. lia. Qed.

Lemma packetSize_below n : n <= 65535 -> packetSize n = n - 28.
Proof. unfold packetSize, _maxPacketSize, _udpOverhead. lia. Qed.

Lemma buf_size_nonneg buf : 0 <= buf_size buf.
Proof. unfold buf_size. lia. Qed.

(** For sizes that fit in an [int], the guard is the comparison it reads as. *)
Lemma exceeds_small ps size :
  0 <= size <= INT_MAX -> exceeds ps size = (ps <? size).
Proof.
  intros H. unfold exceeds. rewrite to_int_small; [reflexivity|].
  unfold INT_MIN, INT_MAX in *. lia.
Qed.

#[export] Hint Resolve buf_size_nonneg packetSize_le_max : udp.

(** ** Properties *)

(** C22: For every buffer of fewer than [2^31] bytes the size guard of
    [write], [read] and [checkSendSize] rejects exactly the buffers larger
    than [min(65507, size - 28)]. *)
Theorem exceeds_iff (bufSize size : Z) :
  0 <= size < 2 ^ 31 ->
  exceeds (packetSize bufSize) size = true <->
  Z.min 65507 (bufSize - 28) < size.
Proof.
  intros H. rewrite exceeds_small by (unfold INT_MAX; lia).
  unfold packetSize, _maxPacketSize, _udpOverhead. rewrite Z.ltb_lt. lia.
Qed.

Lemma exceeds_iff_witness :
  (0 <= 65508 < 2 ^ 31) /\
  (exceeds (packetSize 1000000) 65508 = true <-> Z.min 65507 (1000000 - 28) < 65508).
Proof. split; [lia | apply (exceeds_iff 1000000 65508); lia]. Defined.

(** C27: The guard converts the [size_t] size to [int]: a buffer of
    [2^32 + k] bytes, with [0 <= k <= packetSize], passes the check
    although it is larger than any UDP datagram. *)
Theorem exceeds_wraps (bufSize k : Z) :
  0 <= k <= packetSize bufSize ->
  exceeds (packetSize bufSize) (2 ^ 32 + k) = false.
Proof.
  intros H. unfold exceeds.
  replace (2 ^ 32 + k) with (k + 1 * 2 ^ 32) by lia.
  rewrite to_int_add_wrap, to_int_small.
  - apply Z.ltb_ge. lia.
  - pose proof (packetSize_le_max bufSize). unfold INT_MIN, INT_MAX. lia.
Qed.

Lemma exceeds_wraps_witness :
  (0 <= 100 <= packetSize 65536) /\
  exceeds (packetSize 65536) (2 ^ 32 + 100) = false.
Proof.
  split; [vm_compute; split; discriminate | apply (exceeds_wraps 65536 100)].
  vm_compute. split; discriminate.
Defined.
