(* ===== verification/Write.v ===== *)
(** * [UdpTransceiver::write] (lines 108-213)

    The size guard, then the loop of the two labels [repeat] (the
    non-blocking [::send]) and [repeatSelect] (the wait for writability
    with [::poll], or [::select] on Windows), as the fixpoint [write_loop]
    on fuel whose argument [wlabel] says which label the [goto] jumps to.
    The step equations [write_loop_repeat] and [write_loop_select] unfold
    one iteration against the result of the system call; the theorems
    give the behaviour of every branch, the invariance of the
    transceiver's state, monotonicity in the fuel, and termination against
    [ScriptOS]. *)

From Stdlib Require Import String ZArith List Lia Bool.
From S2P Require Import Prelude Types Os Limits.
Import ListNotations.
Open Scope Z_scope.
Open Scope udp_scope.

Inductive wlabel : Type := WRepeat | WRepeatSelect.

(** The trace and statistics events of a successful [send] of [n] bytes
    (lines 199-208). *)
Definition sent_events (t : transceiver) (n : Z) : list event :=
  trace_events t 3 (TrSent n) ++ (if _stats t then [EBytesSent "udp" n] else []).

Section Write.
Context {W : Type} `{SocketApi W}.

(** Lines 197-211: after a [::send] of [n] bytes, the trace and the
    statistics, the assertion that the whole datagram went, and the
    iterator moved to the end. *)
Definition write_done (t : transceiver) (buf : Buffer) (n : Z) : M W (bool * Buffer) :=
  trace 3 (TrSent n) ;;
  swhen (_stats t) (emit (EBytesSent "udp" n)) ;;
  sassert (n =? buf_size buf) ;;
  sret (true, mkBuffer (b buf) (length (b buf))).

Fixpoint write_loop (fuel : nat) (lbl : wlabel) (buf : Buffer) (timeout : Z)
  : M W (bool * Buffer) :=
  match fuel with
  | O => sfuel
  | S fuel' =>
    match lbl with
    | WRepeat =>
        assert_fd ;;
        t <- get_tr ;;
        ret <- liftSys (sys_send (_fd t) (b buf)) ;;
        match ret with
        | SysErr e =>
            if interrupted e then write_loop fuel' WRepeat buf timeout
            else if wouldBlock e then write_loop fuel' WRepeatSelect buf timeout
            else throw (SocketException e)
        | SysOk n => write_done t buf n
        end
    | WRepeatSelect =>
        if timeout =? 0 then sret (false, buf)
        else
          assert_fd ;;
          t <- get_tr ;;
          rs <- liftSys (sys_wait (_fd t) DirWrite timeout) ;;
          match rs with
          | SysErr e =>
              if interrupted e then write_loop fuel' WRepeatSelect buf timeout
              else throw (SocketException e)
          | SysOk n =>
              if n =? 0 then sthrow (ThrownPtr TimeoutException)
              else write_loop fuel' WRepeat buf timeout
          end
    end
  end.

(** [bool UdpTransceiver::write(Buffer& buf, int timeout)]: the result and
    the buffer after the call. *)
Definition write (fuel : nat) (buf : Buffer) (timeout : Z) : M W (bool * Buffer) :=
  sassert (Nat.eqb (i buf) 0) ;;
  t <- get_tr ;;
  let ps := packetSize (_sndSize t) in
  if exceeds ps (buf_size buf) then
    emit (ECerr ps _maxPacketSize (_sndSize t)) ;;
    throw DatagramLimitException
  else write_loop fuel WRepeat buf timeout.

(** One iteration from the label [repeat]. *)
Lemma write_loop_repeat f buf tmo (s : St W) :
  write_loop (S f) WRepeat buf tmo s =
  if fd_valid s then
    let '(w', r) := sys_send (_fd (tr s)) (b buf) (os s) in
    let s1 := mkSt (tr s) w' (log s) in
    match r with
    | SysErr e =>
        if interrupted e then write_loop f WRepeat buf tmo s1
        else if wouldBlock e then write_loop f WRepeatSelect buf tmo s1
        else (s1, Throw (Thrown (SocketException e)))
    | SysOk n => write_done (tr s) buf n s1
    end
  else (s, Abort).
Proof.
  cbn [write_loop]. unfold sbind at 1. rewrite assert_fd_run.
  destruct (fd_valid s); [|reflexivity].
  unfold get_tr, sgets, sbind, liftSys.
  destruct (sys_send _ _ _) as [w' [n|e]]; [reflexivity|].
  unfold throw, sthrow. destruct (interrupted e), (wouldBlock e); reflexivity.
Qed.

(** The statistics, the assertion and the result after the trace. *)
Lemma write_tail_run t buf n (s : St W) :
  (swhen (_stats t) (emit (EBytesSent "udp" n)) ;; sassert (n =? buf_size buf) ;;
   sret (true, mkBuffer (b buf) (length (b buf)))) s =
  (mkSt (tr s) (os s) (log s ++ if _stats t then [EBytesSent "udp" n] else []),
   if n =? buf_size buf then Ok (true, mkBuffer (b buf) (length (b buf))) else Abort).
Proof.
  unfold swhen, emit, smodify, sbind, sassert, sret, sabort.
  destruct (_stats t), (n =? _); cbn; rewrite ?app_nil_r; try reflexivity; destruct s; reflexivity.
Qed.

(** With a quiet trace, the end of a send writes [sent_events]. *)
Lemma write_done_quiet buf n (s : St W) :
  trace_quiet (tr s) 3 = true ->
  write_done (tr s) buf n s =
  (mkSt (tr s) (os s) (log s ++ sent_events (tr s) n),
   if n =? buf_size buf then Ok (true, mkBuffer (b buf) (length (b buf))) else Abort).
Proof.
  intros Hq. unfold write_done, sbind at 1. rewrite trace_run by exact Hq.
  rewrite write_tail_run. cbn [tr os log]. unfold sent_events. rewrite app_assoc. reflexivity.
Qed.

(** Whatever [toString] does, the end of a send keeps the members, and
    ends with "sent", an abort or what the trace threw. *)
Lemma write_done_cases t buf n (s : St W) :
  tr (fst (write_done t buf n s)) = tr s /\
  (snd (write_done t buf n s) = Ok (true, mkBuffer (b buf) (length (b buf))) \/
   snd (write_done t buf n s) = Abort \/
   exists e, snd (write_done t buf n s) = Throw (Thrown e) /\ _mcastServer (tr s) = Some true).
Proof.
  pose proof (keeps_tr_trace (W:=W) 3 (TrSent n) s) as Hk.
  pose proof (trace_cases (W:=W) 3 (TrSent n) s) as Hc.
  destruct (write_done t buf n s) as [s' o] eqn:E. cbn.
  unfold write_done, sbind at 1 in E.
  destruct (trace 3 (TrSent n) s) as [s1 o1]. cbn in Hk, Hc.
  destruct Hc as [->|[->|[e [-> Hm]]]]; [rewrite write_tail_run in E|..];
    injection E as <- <-; cbn; split; try exact Hk; [|auto|eauto 6].
  destruct (n =? _); auto.
Qed.

(** One iteration from the label [repeatSelect]. *)
Lemma write_loop_select f buf tmo (s : St W) :
  write_loop (S f) WRepeatSelect buf tmo s =
  if tmo =? 0 then (s, Ok (false, buf))
  else if fd_valid s then
    let '(w', r) := sys_wait (_fd (tr s)) DirWrite tmo (os s) in
    let s1 := mkSt (tr s) w' (log s) in
    match r with
    | SysErr e =>
        if interrupted e then write_loop f WRepeatSelect buf tmo s1
        else (s1, Throw (Thrown (SocketException e)))
    | SysOk n =>
        if n =? 0 then (s1, Throw (ThrownPtr TimeoutException))
        else write_loop f WRepeat buf tmo s1
    end
  else (s, Abort).
Proof.
  cbn [write_loop]. destruct (tmo =? 0); [reflexivity|].
  unfold sbind at 1. rewrite assert_fd_run.
  destruct (fd_valid s); [|reflexivity].
  unfold get_tr, sgets, sbind, liftSys.
  destruct (sys_wait _ _ _ _) as [w' [n|e]]; unfold throw, sthrow.
  - destruct (n =? 0); reflexivity.
  - destruct (interrupted e); reflexivity.
Qed.
End Write.

Section WriteTheorems.
Context {W : Type} `{SocketApi W}.

Lemma write_run f buf tmo (s : St W) :
  write f buf tmo s =
  if Nat.eqb (i buf) 0 then
    if exceeds (packetSize (_sndSize (tr s))) (buf_size buf) then
      (mkSt (tr s) (os s)
         (log s ++ [ECerr (packetSize (_sndSize (tr s))) _maxPacketSize (_sndSize (tr s))]),
       Throw (Thrown DatagramLimitException))
    else write_loop f WRepeat buf tmo s
  else (s, Abort).
Proof.
  unfold write, sbind at 1, sassert, sret, sabort.
  destruct (Nat.eqb _ _); [|reflexivity].
  unfold get_tr, sgets, sbind. cbn.
  destruct (exceeds _ _); reflexivity.
Qed.

Lemma write_done_not_fuel t buf n (s : St W) : snd (write_done t buf n s) <> OutOfFuel.
Proof.
  destruct (write_done_cases t buf n s) as [_ [Hc|[Hc|[e [Hc _]]]]]; rewrite Hc; discriminate.
Qed.

(** The loop never changes the transceiver's members. *)
Lemma write_loop_tr f lbl buf tmo (s : St W) :
  tr (fst (write_loop f lbl buf tmo s)) = tr s.
Proof.
  revert lbl s. induction f as [|f IH]; intros lbl s; [reflexivity|].
  destruct lbl; [rewrite write_loop_repeat | rewrite write_loop_select].
  - destruct (fd_valid s); [|reflexivity].
    destruct (sys_send _ _ _) as [w' [n|e]];
      [exact (proj1 (write_done_cases (tr s) buf n (mkSt (tr s) w' (log s))))|].
    destruct (interrupted e); [now rewrite IH|].
    destruct (wouldBlock e); [now rewrite IH|reflexivity].
  - destruct (tmo =? 0); [reflexivity|]. destruct (fd_valid s); [|reflexivity].
    destruct (sys_wait _ _ _ _) as [w' [n|e]].
    + destruct (n =? 0); [reflexivity|now rewrite IH].
    + destruct (interrupted e); [now rewrite IH|reflexivity].
Qed.

(** More fuel does not change a run that did not run out of it. *)
Lemma write_loop_mono f f' lbl buf tmo (s s' : St W) o :
  write_loop f lbl buf tmo s = (s', o) -> o <> OutOfFuel -> (f <= f')%nat ->
  write_loop f' lbl buf tmo s = (s', o).
Proof.
  revert f' lbl s. induction f as [|f IH]; intros f' lbl s Hrun Ho Hle.
  - cbn [write_loop] in Hrun. unfold sfuel in Hrun. injection Hrun as _ <-. congruence.
  - destruct f' as [|f']; [lia|]. assert (Hle' : (f <= f')%nat) by lia.
    destruct lbl; [rewrite write_loop_repeat in * | rewrite write_loop_select in *].
    + destruct (fd_valid s); [|assumption].
      destruct (sys_send _ _ _) as [w' [n|e]]; [assumption|].
      destruct (interrupted e); [eauto|]. destruct (wouldBlock e); eauto.
    + destruct (tmo =? 0); [assumption|]. destruct (fd_valid s); [|assumption].
      destruct (sys_wait _ _ _ _) as [w' [n|e]].
      * destruct (n =? 0); eauto.
      * destruct (interrupted e); eauto.
Qed.

(** What a loop that returns can return: "not ready" with the buffer
    unchanged, or "sent" with the iterator at the end. *)
Lemma write_loop_ok f lbl buf tmo (s s' : St W) r :
  write_loop f lbl buf tmo s = (s', Ok r) ->
  r = (false, buf) \/ r = (true, mkBuffer (b buf) (length (b buf))).
Proof.
  revert lbl s. induction f as [|f IH]; intros lbl s; [discriminate|].
  destruct lbl; [rewrite write_loop_repeat | rewrite write_loop_select].
  - destruct (fd_valid s); [|discriminate].
    destruct (sys_send _ _ _) as [w' [n|e]].
    + intros Hr. cbv zeta in Hr.
      destruct (write_done_cases (tr s) buf n (mkSt (tr s) w' (log s))) as [_ Hc].
      rewrite Hr in Hc. cbn in Hc. destruct Hc as [Hc|[Hc|[e [Hc _]]]]; try discriminate.
      injection Hc as <-. auto.
    + destruct (interrupted e); [apply IH|].
      destruct (wouldBlock e); [apply IH|discriminate].
  - destruct (tmo =? 0); [intros Hr; inversion Hr; subst; auto|].
    destruct (fd_valid s); [|discriminate].
    destruct (sys_wait _ _ _ _) as [w' [n|e]].
    + destruct (n =? 0); [discriminate|apply IH].
    + destruct (interrupted e); [apply IH|discriminate].
Qed.

(** The loop throws only socket errors and timeouts, unless the trace's
    [toString] on a multicast server asks the platform layer. *)
Lemma write_loop_no_limit f lbl buf tmo (s : St W) :
  _mcastServer (tr s) <> Some true ->
  snd (write_loop f lbl buf tmo s) <> Throw (Thrown DatagramLimitException).
Proof.
  intros Hm. revert lbl s Hm. induction f as [|f IH]; intros lbl s Hm; [discriminate|].
  destruct lbl; [rewrite write_loop_repeat | rewrite write_loop_select].
  - destruct (fd_valid s); [|discriminate].
    destruct (sys_send _ _ _) as [w' [n|e]].
    { destruct (write_done_cases (tr s) buf n (mkSt (tr s) w' (log s))) as [_ Hc].
      cbv zeta. destruct Hc as [->|[->|[e [_ Hm']]]]; [discriminate|discriminate|contradiction]. }
    destruct (interrupted e); [apply IH; exact Hm|].
    destruct (wouldBlock e); [apply IH; exact Hm|discriminate].
  - destruct (tmo =? 0); [discriminate|]. destruct (fd_valid s); [|discriminate].
    destruct (sys_wait _ _ _ _) as [w' [n|e]].
    + destruct (n =? 0); [discriminate|apply IH; exact Hm].
    + destruct (interrupted e); [apply IH; exact Hm|discriminate].
Qed.
End WriteTheorems.

(** ** Properties of [write] *)

Section WriteProperties.
Context {W : Type} `{SocketApi W}.

(** C1: A buffer larger than [min(65507, _sndSize - 28)] (after the
    [int] cast) makes [write] throw [DatagramLimitException] before any
    system call: the OS world and the transceiver are unchanged and the
    only effect is the line written to [cerr]. *)
Theorem write_datagram_limit f buf tmo (s : St W) :
  i buf = 0%nat ->
  exceeds (packetSize (_sndSize (tr s))) (buf_size buf) = true ->
  write f buf tmo s =
  (mkSt (tr s) (os s)
     (log s ++ [ECerr (packetSize (_sndSize (tr s))) _maxPacketSize (_sndSize (tr s))]),
   Throw (Thrown DatagramLimitException)).
Proof. intros Hi Hx. rewrite write_run, Hi, Hx. reflexivity. Qed.

(** C2: A [send] that succeeds with the whole datagram makes [write]
    return [true] with the iterator at the end of the buffer, after the
    trace (at network level 3) and the [bytesSent] statistics event,
    when the trace is off or its [toString] formats the descriptor
    alone. *)
Theorem write_sent f buf tmo (s : St W) w' :
  i buf = 0%nat -> fd_valid s = true -> trace_quiet (tr s) 3 = true ->
  exceeds (packetSize (_sndSize (tr s))) (buf_size buf) = false ->
  sys_send (_fd (tr s)) (b buf) (os s) = (w', SysOk (buf_size buf)) ->
  write (S f) buf tmo s =
  (mkSt (tr s) w' (log s ++ sent_events (tr s) (buf_size buf)),
   Ok (true, mkBuffer (b buf) (length (b buf)))).
Proof.
  intros Hi Hfd Hq Hx Hsend.
  rewrite write_run, Hi, Hx, write_loop_repeat, Hfd, Hsend. cbv zeta.
  rewrite (write_done_quiet buf _ (mkSt (tr s) w' (log s))) by exact Hq.
  rewrite Z.eqb_refl. reflexivity.
Qed.

(** C3: When [send] would block and the timeout is [0], [write]
    returns [false] ("not ready") with the buffer unchanged, after one
    system call. *)
Theorem write_not_ready f buf (s : St W) w' e :
  i buf = 0%nat -> fd_valid s = true ->
  exceeds (packetSize (_sndSize (tr s))) (buf_size buf) = false ->
  sys_send (_fd (tr s)) (b buf) (os s) = (w', SysErr e) ->
  interrupted e = false -> wouldBlock e = true ->
  write (S (S f)) buf 0 s = (mkSt (tr s) w' (log s), Ok (false, buf)).
Proof.
  intros Hi Hfd Hx Hsend Hint Hwb.
  rewrite write_run, Hi, Hx, write_loop_repeat, Hfd, Hsend, Hint, Hwb.
  rewrite write_loop_select. reflexivity.
Qed.

(** An interrupted [send] or an interrupted wait is retried: the
    loop continues from the same label in the world the call left,
    with nothing thrown and nothing logged. *)
Lemma write_interrupted_retried f buf tmo (s : St W) w' e :
  fd_valid s = true -> interrupted e = true ->
  (sys_send (_fd (tr s)) (b buf) (os s) = (w', SysErr e) ->
   write_loop (S f) WRepeat buf tmo s = write_loop f WRepeat buf tmo (mkSt (tr s) w' (log s))) /\
  (tmo <> 0 -> sys_wait (_fd (tr s)) DirWrite tmo (os s) = (w', SysErr e) ->
   write_loop (S f) WRepeatSelect buf tmo s =
   write_loop f WRepeatSelect buf tmo (mkSt (tr s) w' (log s))).
Proof.
  intros Hfd Hint. split.
  - intros Hsend. rewrite write_loop_repeat, Hfd, Hsend, Hint. reflexivity.
  - intros Htmo Hwait. rewrite write_loop_select, Hfd, Hwait, Hint.
    apply Z.eqb_neq in Htmo. rewrite Htmo. reflexivity.
Qed.

(** C25: When [send] would block and the wait for writability expires
    ([poll] returns 0), [write] throws [new Ice::TimeoutException]: a
    pointer, not the [TimeoutException] object that [read] throws. *)
Theorem write_timeout_throws_pointer f buf tmo (s : St W) w1 w2 e :
  i buf = 0%nat -> fd_valid s = true -> tmo <> 0 ->
  exceeds (packetSize (_sndSize (tr s))) (buf_size buf) = false ->
  sys_send (_fd (tr s)) (b buf) (os s) = (w1, SysErr e) ->
  interrupted e = false -> wouldBlock e = true ->
  sys_wait (_fd (tr s)) DirWrite tmo w1 = (w2, SysOk 0) ->
  write (S (S f)) buf tmo s =
  (mkSt (tr s) w2 (log s), Throw (ThrownPtr TimeoutException)).
Proof.
  intros Hi Hfd Htmo Hx Hsend Hint Hwb Hwait.
  rewrite write_run, Hi, Hx, write_loop_repeat, Hfd, Hsend, Hint, Hwb.
  rewrite write_loop_select. apply Z.eqb_neq in Htmo. rewrite Htmo. cbn.
  unfold fd_valid in *; cbn in *. rewrite Hfd, Hwait. reflexivity.
Qed.

(** A [send] error other than [EINTR] and "would block" is thrown
    as [SocketException] carrying the [errno]. *)
Lemma write_socket_error f buf tmo (s : St W) w' e :
  i buf = 0%nat -> fd_valid s = true ->
  exceeds (packetSize (_sndSize (tr s))) (buf_size buf) = false ->
  sys_send (_fd (tr s)) (b buf) (os s) = (w', SysErr e) ->
  interrupted e = false -> wouldBlock e = false ->
  write (S f) buf tmo s = (mkSt (tr s) w' (log s), Throw (Thrown (SocketException e))).
Proof.
  intros Hi Hfd Hx Hsend Hint Hwb.
  rewrite write_run, Hi, Hx, write_loop_repeat, Hfd, Hsend, Hint, Hwb. reflexivity.
Qed.

(** [write] never changes the transceiver's members, whatever the
    OS does. *)
Lemma write_preserves_transceiver f buf tmo (s : St W) :
  tr (fst (write f buf tmo s)) = tr s.
Proof.
  rewrite write_run. destruct (Nat.eqb _ _); [|reflexivity].
  destruct (exceeds _ _); [reflexivity|apply write_loop_tr].
Qed.

(** C36: Whatever the OS does, a [write] that returns leaves the buffer
    well formed ([buf.i] between [b.begin()] and [b.end()]) with its
    bytes unchanged: "sent" puts the iterator at the end, "not ready"
    returns the buffer as it was. *)
Theorem write_result_buffer f buf tmo (s s' : St W) r buf' :
  write f buf tmo s = (s', Ok (r, buf')) ->
  buf_wf buf' = true /\ b buf' = b buf /\ (if r then i buf' = length (b buf') else buf' = buf).
Proof.
  rewrite write_run. destruct (Nat.eqb (i buf) 0) eqn:Hi; [|discriminate].
  destruct (exceeds _ _); [discriminate|]. intros Hw.
  apply Nat.eqb_eq in Hi. unfold buf_wf.
  destruct (write_loop_ok _ _ _ _ _ _ _ Hw) as [Hr|Hr]; injection Hr as -> ->; cbn.
  - rewrite Hi. auto.
  - rewrite Nat.leb_refl. auto.
Qed.

(** C38: [checkSendSize], which the connection calls before it sends,
    applies exactly [write]'s datagram limit: for a buffer within
    [messageSizeMax], it returns exactly when [write] of that buffer
    cannot throw [DatagramLimitException], whatever the OS does, on a
    transceiver that is not a multicast server (whose traces would ask
    the platform layer for the peer). *)
Theorem checkSendSize_agrees_write buf msm f tmo (s : St W) :
  i buf = 0%nat -> buf_size buf <= msm -> _mcastServer (tr s) <> Some true ->
  (snd (checkSendSize buf msm s) = Ok tt <->
   snd (write f buf tmo s) <> Throw (Thrown DatagramLimitException)).
Proof.
  intros Hi Hm Hmc. unfold checkSendSize.
  replace (msm <? buf_size buf) with false by (symmetry; apply Z.ltb_ge; lia).
  rewrite write_run, Hi. cbn [Nat.eqb]. unfold get_tr, sgets, sbind.
  destruct (exceeds _ _); cbn.
  - split; [discriminate|]. intros Hn. exfalso. apply Hn. reflexivity.
  - split; [intros _; apply write_loop_no_limit, Hmc|reflexivity].
Qed.
End WriteProperties.

(** ** Termination against the scripted OS *)

Section WriteScript.
Import ScriptOS.

Definition wtag (l : wlabel) : nat :=
  match l with WRepeat => 1 | WRepeatSelect => 2 end.

Lemma write_loop_script f lbl buf tmo (s : St world) :
  (2 * length (replies (os s)) + wtag lbl < f)%nat ->
  snd (write_loop f lbl buf tmo s) <> OutOfFuel.
Proof.
  revert lbl s. induction f as [|f IH]; intros lbl s Hf; [lia|].
  destruct lbl; [rewrite write_loop_repeat | rewrite write_loop_select].
  - destruct (fd_valid s); [|discriminate]. cbn [sys_send script_api].
    destruct (sys_op_cases (CSend (_fd (tr s)) (b buf)) (SysOk (Z.of_nat (length (b buf)))) (os s))
      as [[r [Hr ->]] | ->].
    + cbn [wtag] in Hf. rewrite Hr in Hf. cbn [length] in Hf.
      destruct r as [n|e]; [apply write_done_not_fuel|].
      destruct (interrupted e); [apply IH; cbn [os wtag]; erewrite length_drop1_log by exact Hr; lia|].
      destruct (wouldBlock e); [apply IH; cbn [os wtag]; erewrite length_drop1_log by exact Hr; lia|].
      discriminate.
    + apply write_done_not_fuel.
  - destruct (tmo =? 0); [discriminate|]. destruct (fd_valid s); [|discriminate].
    cbn [sys_wait script_api].
    destruct (sys_op_cases (CWait (_fd (tr s)) DirWrite tmo) (SysOk 1) (os s))
      as [[r [Hr ->]] | ->].
    + cbn [wtag] in Hf. rewrite Hr in Hf. cbn [length] in Hf.
      destruct r as [n|e].
      * destruct (n =? 0); [discriminate|].
        apply IH. cbn [os wtag]. erewrite length_drop1_log by exact Hr. lia.
      * destruct (interrupted e); [|discriminate].
        apply IH. cbn [os wtag]. erewrite length_drop1_log by exact Hr. lia.
    + cbn -[write_loop]. apply IH. cbn [os wtag]. rewrite length_log_call. cbn [wtag] in Hf. lia.
Qed.

(** C13: Against any finite script of OS replies, [write] with fuel
    [2 * n + 3] (for [n] replies) ends: it returns, throws or fails an
    assertion, but does not run out of fuel. *)
Theorem write_terminates buf tmo (s : St world) :
  snd (write (2 * length (replies (os s)) + 3) buf tmo s) <> OutOfFuel.
Proof.
  rewrite write_run. destruct (Nat.eqb _ _); [|discriminate].
  destruct (exceeds _ _); [discriminate|].
  apply write_loop_script. cbn [wtag]. lia.
Qed.
End WriteScript.

(** ** Witnesses *)

Section WriteWitnesses.
Import ScriptOS.

(** A client transceiver on descriptor 3 with a 100-byte send buffer,
    and one with a 65536-byte send buffer. *)
Definition small_snd : St world := sample_st (sample_tr 3 65536 100 false false) [].
Definition big_snd (rs : list reply) : St world :=
  sample_st (sample_tr 3 65536 65536 false false) rs.
Definition buf200 : Buffer := mkBuffer (repeat Byte.x00 200) 0.

Lemma write_datagram_limit_witness :
  i buf200 = 0%nat /\
  exceeds (packetSize (_sndSize (tr small_snd))) (buf_size buf200) = true /\
  write 5 buf200 0 small_snd =
  (mkSt (tr small_snd) (os small_snd)
     (log small_snd ++ [ECerr (packetSize (_sndSize (tr small_snd))) _maxPacketSize
                              (_sndSize (tr small_snd))]),
   Throw (Thrown DatagramLimitException)).
Proof.
  split; [reflexivity|]. split; [vm_compute; reflexivity|].
  apply write_datagram_limit; vm_compute; reflexivity.
Defined.

Lemma write_sent_witness :
  let s := big_snd [RSys (SysOk 200)] in
  i buf200 = 0%nat /\ fd_valid s = true /\ trace_quiet (tr s) 3 = true /\
  exceeds (packetSize (_sndSize (tr s))) (buf_size buf200) = false /\
  sys_send (_fd (tr s)) (b buf200) (os s) = (mkWorld [] [CSend 3 (b buf200)] 10, SysOk (buf_size buf200)) /\
  write 1 buf200 0 s =
  (mkSt (tr s) (mkWorld [] [CSend 3 (b buf200)] 10) (log s ++ sent_events (tr s) (buf_size buf200)),
   Ok (true, mkBuffer (b buf200) (length (b buf200)))).
Proof.
  cbv zeta. split; [reflexivity|]. split; [reflexivity|]. split; [reflexivity|].
  split; [vm_compute; reflexivity|]. split; [vm_compute; reflexivity|].
  apply write_sent; vm_compute; reflexivity.
Defined.

Lemma write_not_ready_witness :
  let s := big_snd [RSys (SysErr EWOULDBLOCK)] in
  write 2 buf200 0 s = (mkSt (tr s) (mkWorld [] [CSend 3 (b buf200)] 10) (log s), Ok (false, buf200)).
Proof.
  cbv zeta. apply write_not_ready with (e := EWOULDBLOCK); vm_compute; reflexivity.
Defined.

Lemma write_timeout_throws_pointer_witness :
  let s := big_snd [RSys (SysErr EWOULDBLOCK); RSys (SysOk 0)] in
  write 2 buf200 100 s =
  (mkSt (tr s) (mkWorld [] [CSend 3 (b buf200); CWait 3 DirWrite 100] 10) (log s),
   Throw (ThrownPtr TimeoutException)).
Proof.
  cbv zeta.
  apply write_timeout_throws_pointer
    with (e := EWOULDBLOCK) (w1 := mkWorld [RSys (SysOk 0)] [CSend 3 (b buf200)] 10);
    try (vm_compute; reflexivity); discriminate.
Defined.

Lemma write_result_buffer_witness :
  write 1 buf200 0 (big_snd [RSys (SysOk 200)]) =
    (mkSt (tr (big_snd [])) (mkWorld [] [CSend 3 (b buf200)] 10)
       (log (big_snd []) ++ sent_events (tr (big_snd [])) 200),
     Ok (true, mkBuffer (b buf200) 200%nat)) /\
  (buf_wf (mkBuffer (b buf200) 200) = true /\ b (mkBuffer (b buf200) 200) = b buf200 /\
   i (mkBuffer (b buf200) 200) = length (b (mkBuffer (b buf200) 200))).
Proof.
  assert (Hw : write 1 buf200 0 (big_snd [RSys (SysOk 200)]) =
    (mkSt (tr (big_snd [])) (mkWorld [] [CSend 3 (b buf200)] 10)
       (log (big_snd []) ++ sent_events (tr (big_snd [])) 200),
     Ok (true, mkBuffer (b buf200) 200%nat))) by (vm_compute; reflexivity).
  split; [exact Hw|]. exact (write_result_buffer 1 buf200 0 _ _ true _ Hw).
Defined.
Lemma checkSendSize_agrees_write_witness :
  i buf200 = 0%nat /\ buf_size buf200 <= 1024 /\ _mcastServer (tr small_snd) <> Some true /\
  (snd (checkSendSize buf200 1024 small_snd) = Ok tt <->
   snd (write 5 buf200 0 small_snd) <> Throw (Thrown DatagramLimitException)).
Proof.
  split; [reflexivity|]. split; [vm_compute; discriminate|]. split; [discriminate|].
  apply checkSendSize_agrees_write; [reflexivity|vm_compute; discriminate|discriminate].
Defined.
End WriteWitnesses.
