(* ===== verification/Read.v ===== *)
(** * [UdpTransceiver::read] (lines 215-364)

    The size guard and the resize of the buffer to the ceiling, then the
    loop of the labels [repeat] (check of [_shutdownReadWrite], then
    [::recvfrom] and the connection to the first peer while [_connect]
    holds, or [::recv]) and [repeatSelect] (the wait for readability,
    always with timeout [-1]), as the fixpoint [read_loop] on fuel.
    [read_recv] is the receive step (lines 255-284), [received_events]
    the trace and statistics of a success (lines 350-359). *)

From Stdlib Require Import String ZArith List Lia Bool.
From S2P Require Import Prelude Types Os Limits.
Import ListNotations.
Open Scope Z_scope.
Open Scope udp_scope.

Inductive rlabel : Type := RRepeat | RRepeatSelect.

(** The bytes a receive of [data] leaves in the buffer [l]: [recv] writes
    them at [&buf.b[0]]. *)
Definition copy_front (data l : list Byte.byte) : list Byte.byte :=
  data ++ skipn (length data) l.

Definition received_events (t : transceiver) (n : Z) : list event :=
  trace_events t 3 (TrReceived n) ++ (if _stats t then [EBytesReceived "udp" n] else []).

(** The buffer after a receive of [data], [n] bytes, into [buf]. *)
Definition received_buffer (buf : Buffer) (n : Z) (data : list Byte.byte) : Buffer :=
  let bytes := resize (Z.to_nat n) (copy_front data (b buf)) in mkBuffer bytes (length bytes).

Section Read.
Context {W : Type} `{SocketApi W}.

(** Lines 350-363: after a receive of [n] bytes, the trace and the
    statistics, then [buf.b.resize(ret); buf.i = buf.b.end();]. *)
Definition read_done (buf : Buffer) (n : Z) (data : list Byte.byte) : M W (bool * Buffer) :=
  t <- get_tr ;;
  trace 3 (TrReceived n) ;;
  swhen (_stats t) (emit (EBytesReceived "udp" n)) ;;
  sret (true, received_buffer buf n data).

(** Lines 255-284: receive one datagram; while [_connect] holds, with
    the sender's address, and then connect the socket to that sender. *)
Definition read_recv (ps : Z) : M W (sysret * list Byte.byte) :=
  t <- get_tr ;;
  if _connect t then
    assert_fd ;;
    r <- liftSys (sys_recvfrom (_fd t) ps) ;;
    let '(ret, data, peer) := r in
    match ret with
    | SysErr _ => sret (ret, data)
    | SysOk _ =>
        liftNet (doConnect (_fd t) peer (-1)) ;;
        modify_tr (set_connect false) ;;
        trace 1 TrConnected ;;
        sret (ret, data)
    end
  else
    assert_fd ;;
    liftSys (sys_recv (_fd t) ps).

Fixpoint read_loop (fuel : nat) (lbl : rlabel) (buf : Buffer) (timeout ps : Z)
  : M W (bool * Buffer) :=
  match fuel with
  | O => sfuel
  | S fuel' =>
    match lbl with
    | RRepeat =>
        t <- get_tr ;;
        if _shutdownReadWrite t then throw ConnectionLostException
        else
          r <- read_recv ps ;;
          let '(ret, data) := r in
          match ret with
          | SysErr e =>
              if interrupted e then read_loop fuel' RRepeat buf timeout ps
              else if wouldBlock e then
                if timeout =? 0 then sret (false, buf)
                else read_loop fuel' RRepeatSelect buf timeout ps
              else if recvTruncated e then
                t' <- get_tr ;;
                swhen (_warn t') (emit (EWarning (WDatagramLimit ps))) ;;
                throw DatagramLimitException
              else throw (SocketException e)
          | SysOk n => read_done buf n data
          end
    | RRepeatSelect =>
        assert_fd ;;
        t <- get_tr ;;
        rs <- liftSys (sys_wait (_fd t) DirRead (-1)) ;;
        match rs with
        | SysErr e =>
            if interrupted e then read_loop fuel' RRepeatSelect buf timeout ps
            else throw (SocketException e)
        | SysOk n =>
            if n =? 0 then throw TimeoutException
            else read_loop fuel' RRepeat buf timeout ps
        end
    end
  end.

(** [bool UdpTransceiver::read(Buffer& buf, int timeout)] *)
Definition read (fuel : nat) (buf : Buffer) (timeout : Z) : M W (bool * Buffer) :=
  sassert (Nat.eqb (i buf) 0) ;;
  t <- get_tr ;;
  let ps := packetSize (_rcvSize t) in
  if exceeds ps (buf_size buf) then
    swhen (_warn t) (emit (EWarning (WDatagramLimit ps))) ;;
    throw DatagramLimitException
  else
    read_loop fuel RRepeat (mkBuffer (resize (Z.to_nat ps) (b buf)) 0) timeout ps.
End Read.

(** ** Step equations *)

Section ReadSteps.
Context {W : Type} `{SocketApi W}.

Lemma read_recv_connected ps (s : St W) :
  _connect (tr s) = false ->
  read_recv ps s =
  if fd_valid s then
    let '(w', r) := sys_recv (_fd (tr s)) ps (os s) in (mkSt (tr s) w' (log s), Ok r)
  else (s, Abort).
Proof.
  intros Hc. unfold read_recv, get_tr, sgets, sbind at 1. rewrite Hc.
  unfold sbind. rewrite assert_fd_run. destruct (fd_valid s); [|reflexivity].
  unfold liftSys. reflexivity.
Qed.

Lemma read_recv_pending ps (s : St W) :
  _connect (tr s) = true ->
  read_recv ps s =
  if fd_valid s then
    let '(w1, (ret, data, peer)) := sys_recvfrom (_fd (tr s)) ps (os s) in
    match ret with
    | SysErr _ => (mkSt (tr s) w1 (log s), Ok (ret, data))
    | SysOk _ =>
        let '(w2, r) := doConnect (_fd (tr s)) peer (-1) w1 in
        match r with
        | inl e => (mkSt (tr s) w2 (log s), Throw (Thrown e))
        | inr _ =>
            (trace 1 TrConnected ;; sret (ret, data)) (mkSt (set_connect false (tr s)) w2 (log s))
        end
    end
  else (s, Abort).
Proof.
  intros Hc. unfold read_recv, get_tr, sgets, sbind at 1. rewrite Hc.
  unfold sbind at 1. rewrite assert_fd_run. destruct (fd_valid s); [|reflexivity].
  unfold sbind at 1, liftSys.
  destruct (sys_recvfrom _ _ _) as [w1 [[[n|e] data] peer]]; [|reflexivity].
  unfold sbind at 1, liftNet. destruct (doConnect _ _ _ _) as [w2 [e|[]]]; reflexivity.
Qed.

(** A failed receive, by [recvfrom] while [_connect] holds and by
    [::recv] otherwise, changes only the OS world: no [doConnect], no
    trace. *)
Lemma read_recv_err ps (s : St W) w' e d :
  fd_valid s = true ->
  (if _connect (tr s) then exists peer, sys_recvfrom (_fd (tr s)) ps (os s) = (w', (SysErr e, d, peer))
   else sys_recv (_fd (tr s)) ps (os s) = (w', (SysErr e, d))) ->
  read_recv ps s = (mkSt (tr s) w' (log s), Ok (SysErr e, d)).
Proof.
  intros Hfd. destruct (_connect (tr s)) eqn:Hc.
  - intros [peer Hr]. rewrite read_recv_pending, Hfd, Hr by exact Hc. reflexivity.
  - intros Hr. rewrite read_recv_connected, Hfd, Hr by exact Hc. reflexivity.
Qed.

(** One iteration from the label [repeat]. *)
Lemma read_loop_repeat f buf tmo ps (s : St W) :
  read_loop (S f) RRepeat buf tmo ps s =
  if _shutdownReadWrite (tr s) then (s, Throw (Thrown ConnectionLostException))
  else
    match read_recv ps s with
    | (s1, Ok (SysErr e, _)) =>
        if interrupted e then read_loop f RRepeat buf tmo ps s1
        else if wouldBlock e then
          if tmo =? 0 then (s1, Ok (false, buf))
          else read_loop f RRepeatSelect buf tmo ps s1
        else if recvTruncated e then
          (mkSt (tr s1) (os s1)
             (log s1 ++ if _warn (tr s1) then [EWarning (WDatagramLimit ps)] else []),
           Throw (Thrown DatagramLimitException))
        else (s1, Throw (Thrown (SocketException e)))
    | (s1, Ok (SysOk n, data)) => read_done buf n data s1
    | (s1, Throw e) => (s1, Throw e)
    | (s1, Abort) => (s1, Abort)
    | (s1, OutOfFuel) => (s1, OutOfFuel)
    end.
Proof.
  cbn [read_loop]. unfold get_tr, sgets, sbind at 1.
  destruct (_shutdownReadWrite (tr s)); [reflexivity|].
  unfold sbind at 1. destruct (read_recv ps s) as [s1 [[[n|e] data]| | |]]; try reflexivity.
  - destruct (interrupted e); [reflexivity|]. destruct (wouldBlock e).
    + destruct (tmo =? 0); reflexivity.
    + destruct (recvTruncated e); [|reflexivity].
      unfold sbind, get_tr, sgets. rewrite emit_when_run. reflexivity.
Qed.

(** With a quiet trace, the end of a receive writes [received_events]. *)
Lemma read_done_quiet buf n data (s : St W) :
  trace_quiet (tr s) 3 = true ->
  read_done buf n data s =
  (mkSt (tr s) (os s) (log s ++ received_events (tr s) n), Ok (true, received_buffer buf n data)).
Proof.
  intros Hq. unfold read_done, get_tr, sgets, sbind at 1. cbn.
  unfold sbind at 1. rewrite trace_run by exact Hq. cbn [tr os log].
  unfold sbind. rewrite emit_when_run. cbn. unfold sret, received_events.
  rewrite app_assoc. reflexivity.
Qed.

(** Whatever [toString] does, the end of a receive keeps the members,
    and ends with the datagram, an abort or what the trace threw. *)
Lemma read_done_cases buf n data (s : St W) :
  tr (fst (read_done buf n data s)) = tr s /\
  (snd (read_done buf n data s) = Ok (true, received_buffer buf n data) \/
   snd (read_done buf n data s) = Abort \/
   exists e, snd (read_done buf n data s) = Throw (Thrown e) /\ _mcastServer (tr s) = Some true).
Proof.
  pose proof (keeps_tr_trace (W:=W) 3 (TrReceived n) s) as Hk.
  pose proof (trace_cases (W:=W) 3 (TrReceived n) s) as Hc.
  destruct (read_done buf n data s) as [s' o] eqn:E. cbn.
  unfold read_done, get_tr, sgets, sbind at 1 in E. cbn in E. unfold sbind at 1 in E.
  destruct (trace 3 (TrReceived n) s) as [s1 o1]. cbn in Hk, Hc.
  destruct Hc as [->|[->|[e [-> Hm]]]]; [unfold sbind in E; rewrite emit_when_run in E|..];
    injection E as <- <-; cbn; split; try exact Hk; auto; eauto 6.
Qed.

Lemma read_done_not_fuel buf n data (s : St W) : snd (read_done buf n data s) <> OutOfFuel.
Proof.
  destruct (read_done_cases buf n data s) as [_ [Hc|[Hc|[e [Hc _]]]]]; rewrite Hc; discriminate.
Qed.

(** With a quiet trace, connecting to the first peer writes its trace line. *)
Lemma connected_quiet (t : transceiver) w l (r : sysret * list Byte.byte) :
  trace_quiet t 1 = true ->
  (trace 1 TrConnected ;; sret r) (mkSt (set_connect false t) w l) =
  (mkSt (set_connect false t) w (l ++ trace_events t 1 TrConnected), Ok r).
Proof. intros Hq. unfold sbind at 1. rewrite trace_run by exact Hq. reflexivity. Qed.

(** One iteration from the label [repeatSelect]. *)
Lemma read_loop_select f buf tmo ps (s : St W) :
  read_loop (S f) RRepeatSelect buf tmo ps s =
  if fd_valid s then
    let '(w', r) := sys_wait (_fd (tr s)) DirRead (-1) (os s) in
    let s1 := mkSt (tr s) w' (log s) in
    match r with
    | SysErr e =>
        if interrupted e then read_loop f RRepeatSelect buf tmo ps s1
        else (s1, Throw (Thrown (SocketException e)))
    | SysOk n =>
        if n =? 0 then (s1, Throw (Thrown TimeoutException))
        else read_loop f RRepeat buf tmo ps s1
    end
  else (s, Abort).
Proof.
  cbn [read_loop]. unfold sbind at 1. rewrite assert_fd_run.
  destruct (fd_valid s); [|reflexivity].
  unfold get_tr, sgets, sbind, liftSys.
  destruct (sys_wait _ _ _ _) as [w' [n|e]]; unfold throw, sthrow.
  - destruct (n =? 0); reflexivity.
  - destruct (interrupted e); reflexivity.
Qed.

Lemma read_run f buf tmo (s : St W) :
  read f buf tmo s =
  if Nat.eqb (i buf) 0 then
    if exceeds (packetSize (_rcvSize (tr s))) (buf_size buf) then
      (mkSt (tr s) (os s)
         (log s ++ if _warn (tr s)
                   then [EWarning (WDatagramLimit (packetSize (_rcvSize (tr s))))] else []),
       Throw (Thrown DatagramLimitException))
    else
      read_loop f RRepeat (mkBuffer (resize (Z.to_nat (packetSize (_rcvSize (tr s)))) (b buf)) 0)
        tmo (packetSize (_rcvSize (tr s))) s
  else (s, Abort).
Proof.
  unfold read, sbind at 1, sassert, sret, sabort.
  destruct (Nat.eqb _ _); [|reflexivity].
  unfold get_tr, sgets, sbind. cbn.
  destruct (exceeds _ _); [|reflexivity].
  rewrite emit_when_run. reflexivity.
Qed.
End ReadSteps.

(** ** Lemmas *)

(** The bytes of the buffer after receiving [d] are exactly [d], whatever
    the buffer held before. *)
Lemma resize_copy_front (d l : list Byte.byte) :
  resize (length d) (copy_front d l) = d.
Proof. apply resize_app_exact. Qed.

(** A datagram that fills the received count is the buffer. *)
Lemma received_buffer_exact buf (d : list Byte.byte) :
  received_buffer buf (Z.of_nat (length d)) d = mkBuffer d (length d).
Proof. unfold received_buffer. rewrite Nat2Z.id, resize_copy_front. reflexivity. Qed.

Lemma set_connect_idem c c' t : set_connect c (set_connect c' t) = set_connect c t.
Proof. reflexivity. Qed.

Section ReadLemmas.
Context {W : Type} `{SocketApi W}.

(** The receive step changes the transceiver at most by clearing
    [_connect]. *)
Lemma read_recv_tr ps (s : St W) :
  tr (fst (read_recv ps s)) = tr s \/
  tr (fst (read_recv ps s)) = set_connect false (tr s).
Proof.
  destruct (_connect (tr s)) eqn:Hc.
  - rewrite read_recv_pending by exact Hc. destruct (fd_valid s); [|now left].
    destruct (sys_recvfrom _ _ _) as [w1 [[[n|e] d] peer]]; [|now left].
    destruct (doConnect _ _ _ _) as [w2 [e|u]]; [now left|right].
    exact (keeps_tr_bind _ _ (keeps_tr_trace 1 TrConnected) (fun _ => keeps_tr_ret _)
             (mkSt (set_connect false (tr s)) w2 (log s))).
  - rewrite read_recv_connected by exact Hc. destruct (fd_valid s); [|now left].
    destruct (sys_recv _ _ _) as [w' r]. now left.
Qed.

Lemma read_loop_tr f lbl buf tmo ps (s : St W) :
  tr (fst (read_loop f lbl buf tmo ps s)) = tr s \/
  tr (fst (read_loop f lbl buf tmo ps s)) = set_connect false (tr s).
Proof.
  revert lbl s. induction f as [|f IH]; intros lbl s; [now left|].
  destruct lbl; [rewrite read_loop_repeat | rewrite read_loop_select].
  - destruct (_shutdownReadWrite (tr s)); [now left|].
    pose proof (read_recv_tr ps s) as Hr.
    destruct (read_recv ps s) as [s1 o]; cbn [fst] in Hr.
    assert (Hk : forall s' : St W, tr s' = tr s1 \/ tr s' = set_connect false (tr s1) ->
                 tr s' = tr s \/ tr s' = set_connect false (tr s)).
    { intros s' [-> | ->]; destruct Hr as [-> | ->]; auto. }
    destruct o as [[[n|e] d]| | |]; try (apply Hk; now left);
      [apply Hk; left; apply read_done_cases|].
    destruct (interrupted e); [apply Hk, IH|].
    destruct (wouldBlock e); [destruct (tmo =? 0); [apply Hk; now left|apply Hk, IH]|].
    destruct (recvTruncated e); apply Hk; now left.
  - destruct (fd_valid s); [|now left].
    destruct (sys_wait _ _ _ _) as [w' [n|e]].
    + destruct (n =? 0); [now left|exact (IH _ _)].
    + destruct (interrupted e); [exact (IH _ _)|now left].
Qed.

Lemma read_tr f buf tmo (s : St W) :
  tr (fst (read f buf tmo s)) = tr s \/
  tr (fst (read f buf tmo s)) = set_connect false (tr s).
Proof.
  rewrite read_run. destruct (Nat.eqb _ _); [|now left].
  destruct (exceeds _ _); [now left|apply read_loop_tr].
Qed.

(** The loop uses the timeout only through [timeout == 0]. *)
Lemma read_loop_timeout f lbl buf t1 t2 ps (s : St W) :
  t1 <> 0 -> t2 <> 0 ->
  read_loop f lbl buf t1 ps s = read_loop f lbl buf t2 ps s.
Proof.
  intros H1 H2. apply Z.eqb_neq in H1, H2.
  revert lbl s. induction f as [|f IH]; intros lbl s; [reflexivity|].
  destruct lbl; [rewrite !read_loop_repeat | rewrite !read_loop_select].
  - destruct (_shutdownReadWrite (tr s)); [reflexivity|].
    destruct (read_recv ps s) as [s1 [[[n|e] d]| | |]]; try reflexivity.
    rewrite H1, H2, !IH. reflexivity.
  - destruct (fd_valid s); [|reflexivity].
    destruct (sys_wait _ _ _ _) as [w' [n|e]]; cbv zeta; rewrite ?IH; reflexivity.
Qed.

(** What a loop that returns can return: "not ready" with the buffer
    it was given, or a datagram with the iterator at its end. *)
Lemma read_loop_ok f lbl buf tmo ps (s s' : St W) r :
  read_loop f lbl buf tmo ps s = (s', Ok r) ->
  r = (false, buf) \/ exists bytes, r = (true, mkBuffer bytes (length bytes)).
Proof.
  revert lbl s. induction f as [|f IH]; intros lbl s; [discriminate|].
  destruct lbl; [rewrite read_loop_repeat | rewrite read_loop_select].
  - destruct (_shutdownReadWrite (tr s)); [discriminate|].
    destruct (read_recv ps s) as [s1 [[[n|e] data]| | |]]; try discriminate.
    + intros Hr. destruct (read_done_cases buf n data s1) as [_ Hc].
      rewrite Hr in Hc. cbn in Hc. destruct Hc as [Hc|[Hc|[e [Hc _]]]]; try discriminate.
      injection Hc as ->. right. eexists. reflexivity.
    + destruct (interrupted e); [apply IH|].
      destruct (wouldBlock e); [destruct (tmo =? 0); [intros Hr; inversion Hr; auto|apply IH]|].
      destruct (recvTruncated e); discriminate.
  - destruct (fd_valid s); [|discriminate].
    destruct (sys_wait _ _ _ _) as [w' [n|e]].
    + destruct (n =? 0); [discriminate|apply IH].
    + destruct (interrupted e); [apply IH|discriminate].
Qed.
End ReadLemmas.

(** ** Properties of [read] *)

Section ReadProperties.
Context {W : Type} `{SocketApi W}.

(** C4: When the caller's buffer is larger than
    [min(65507, _rcvSize - 28)], [read] throws [DatagramLimitException]
    before any system call, after a warning when [Ice.Warn.Datagrams]
    is set. *)
Theorem read_datagram_limit f buf tmo (s : St W) :
  i buf = 0%nat ->
  exceeds (packetSize (_rcvSize (tr s))) (buf_size buf) = true ->
  read f buf tmo s =
  (mkSt (tr s) (os s)
     (log s ++ if _warn (tr s)
               then [EWarning (WDatagramLimit (packetSize (_rcvSize (tr s))))] else []),
   Throw (Thrown DatagramLimitException)).
Proof. intros Hi Hx. rewrite read_run, Hi, Hx. reflexivity. Qed.

(** C5: Once [_shutdownReadWrite] is set, [read] throws
    [ConnectionLostException] without receiving anything: no system
    call, no change of state. *)
Theorem read_after_shutdown f buf tmo (s : St W) :
  i buf = 0%nat -> _shutdownReadWrite (tr s) = true ->
  exceeds (packetSize (_rcvSize (tr s))) (buf_size buf) = false ->
  read (S f) buf tmo s = (s, Throw (Thrown ConnectionLostException)).
Proof.
  intros Hi Hsd Hx. rewrite read_run, Hi, Hx, read_loop_repeat, Hsd. reflexivity.
Qed.

(** C6: While [_connect] holds, the first datagram received is taken
    with its sender's address, the socket is connected to that sender,
    [_connect] becomes false, and [read] returns [true] with the buffer
    holding exactly the datagram; the log gets the connect trace line
    and the statistics event.  Network tracing may be at any level: the
    level-1 trace is off, or its [toString] formats the descriptor
    without a system call ([trace_quiet]). *)
Theorem read_first_datagram_connects f buf tmo (s : St W) w1 w2 d peer :
  i buf = 0%nat -> fd_valid s = true ->
  _shutdownReadWrite (tr s) = false -> _connect (tr s) = true ->
  exceeds (packetSize (_rcvSize (tr s))) (buf_size buf) = false ->
  sys_recvfrom (_fd (tr s)) (packetSize (_rcvSize (tr s))) (os s) =
    (w1, (SysOk (Z.of_nat (length d)), d, peer)) ->
  doConnect (_fd (tr s)) peer (-1) w1 = (w2, inr tt) ->
  trace_quiet (tr s) 1 = true ->
  read (S f) buf tmo s =
  (mkSt (set_connect false (tr s)) w2
     (log s ++ trace_events (tr s) 1 TrConnected
            ++ received_events (tr s) (Z.of_nat (length d))),
   Ok (true, mkBuffer d (length d))).
Proof.
  intros Hi Hfd Hsd Hc Hx Hrecv Hconn Hl.
  rewrite read_run, Hi, Hx, read_loop_repeat, Hsd, read_recv_pending, Hfd, Hrecv, Hconn
    by exact Hc.
  rewrite connected_quiet by exact Hl.
  rewrite read_done_quiet by (apply (quiet_mono _ 1); [lia|exact Hl]).
  cbn [tr os log]. rewrite received_buffer_exact, app_assoc. reflexivity.
Qed.

(** C7: On a connected socket, [read] receives with [::recv] and
    returns exactly the datagram; the transceiver is unchanged (when the
    level-3 trace is off or its [toString] formats the descriptor). *)
Theorem read_connected_datagram f buf tmo (s : St W) w' d :
  i buf = 0%nat -> fd_valid s = true ->
  _shutdownReadWrite (tr s) = false -> _connect (tr s) = false ->
  exceeds (packetSize (_rcvSize (tr s))) (buf_size buf) = false ->
  sys_recv (_fd (tr s)) (packetSize (_rcvSize (tr s))) (os s) =
    (w', (SysOk (Z.of_nat (length d)), d)) ->
  trace_quiet (tr s) 3 = true ->
  read (S f) buf tmo s =
  (mkSt (tr s) w' (log s ++ received_events (tr s) (Z.of_nat (length d))),
   Ok (true, mkBuffer d (length d))).
Proof.
  intros Hi Hfd Hsd Hc Hx Hrecv Hq.
  rewrite read_run, Hi, Hx, read_loop_repeat, Hsd, read_recv_connected, Hfd, Hrecv
    by exact Hc.
  rewrite read_done_quiet by exact Hq.
  cbn [tr os log]. rewrite received_buffer_exact. reflexivity.
Qed.

(** C8: [read] changes the transceiver at most by clearing
    [_connect]: the association with a peer is one-way, and a connected
    transceiver stays exactly as it was. *)
Theorem read_connect_one_way f buf tmo (s : St W) :
  (tr (fst (read f buf tmo s)) = tr s \/
   tr (fst (read f buf tmo s)) = set_connect false (tr s)) /\
  (_connect (tr s) = false -> tr (fst (read f buf tmo s)) = tr s).
Proof.
  split; [apply read_tr|]. intros Hc.
  destruct (read_tr f buf tmo s) as [-> | ->]; [reflexivity|].
  destruct (tr s); cbn in *. now subst.
Qed.

(** C24: [read] waits for readability with timeout [-1] whatever its
    [timeout] argument: two non-zero timeouts give the same run, so a
    finite timeout never expires. *)
Theorem read_timeout_ignored f buf t1 t2 (s : St W) :
  t1 <> 0 -> t2 <> 0 -> read f buf t1 s = read f buf t2 s.
Proof.
  intros H1 H2. rewrite !read_run.
  destruct (Nat.eqb _ _); [|reflexivity]. destruct (exceeds _ _); [reflexivity|].
  apply read_loop_timeout; assumption.
Qed.

(** C9: When nothing can be received and the timeout is [0], [read]
    returns [false] ("not ready"), whether it receives with [recvfrom]
    (waiting for its first peer) or with [::recv] (connected), leaving
    the buffer resized to the ceiling with its iterator at the
    beginning. *)
Theorem read_not_ready f buf (s : St W) w' d e :
  i buf = 0%nat -> fd_valid s = true ->
  _shutdownReadWrite (tr s) = false ->
  exceeds (packetSize (_rcvSize (tr s))) (buf_size buf) = false ->
  (if _connect (tr s)
   then exists peer, sys_recvfrom (_fd (tr s)) (packetSize (_rcvSize (tr s))) (os s) = (w', (SysErr e, d, peer))
   else sys_recv (_fd (tr s)) (packetSize (_rcvSize (tr s))) (os s) = (w', (SysErr e, d))) ->
  interrupted e = false -> wouldBlock e = true ->
  read (S f) buf 0 s =
  (mkSt (tr s) w' (log s),
   Ok (false, mkBuffer (resize (Z.to_nat (packetSize (_rcvSize (tr s)))) (b buf)) 0)).
Proof.
  intros Hi Hfd Hsd Hx Hrecv Hint Hwb.
  rewrite read_run, Hi, Hx, read_loop_repeat, Hsd, (read_recv_err _ _ _ _ _ Hfd Hrecv).
  rewrite Hint, Hwb. reflexivity.
Qed.

(** C10: A receive error reporting a truncated datagram ([EMSGSIZE])
    makes [read] throw [DatagramLimitException], after a warning when
    [Ice.Warn.Datagrams] is set; any other error that is neither
    [EINTR] nor "would block" is thrown as [SocketException].  Both
    receive calls are covered: [recvfrom] while [_connect] holds, after
    which the socket stays unconnected, and [::recv] otherwise. *)
Theorem read_receive_errors f buf tmo (s : St W) w' d e :
  i buf = 0%nat -> fd_valid s = true ->
  _shutdownReadWrite (tr s) = false ->
  exceeds (packetSize (_rcvSize (tr s))) (buf_size buf) = false ->
  (if _connect (tr s)
   then exists peer, sys_recvfrom (_fd (tr s)) (packetSize (_rcvSize (tr s))) (os s) = (w', (SysErr e, d, peer))
   else sys_recv (_fd (tr s)) (packetSize (_rcvSize (tr s))) (os s) = (w', (SysErr e, d))) ->
  interrupted e = false -> wouldBlock e = false ->
  read (S f) buf tmo s =
  if recvTruncated e then
    (mkSt (tr s) w'
       (log s ++ if _warn (tr s)
                 then [EWarning (WDatagramLimit (packetSize (_rcvSize (tr s))))] else []),
     Throw (Thrown DatagramLimitException))
  else (mkSt (tr s) w' (log s), Throw (Thrown (SocketException e))).
Proof.
  intros Hi Hfd Hsd Hx Hrecv Hint Hwb.
  rewrite read_run, Hi, Hx, read_loop_repeat, Hsd, (read_recv_err _ _ _ _ _ Hfd Hrecv).
  rewrite Hint, Hwb. reflexivity.
Qed.

(** C39: When the first datagram arrives but [doConnect] to its sender
    throws, [read] propagates the exception: the datagram, already taken
    from the socket by [recvfrom], is lost, [_connect] stays set and
    nothing is logged. *)
Theorem read_connect_failure_drops_datagram f buf tmo (s : St W) w1 w2 n d peer e :
  i buf = 0%nat -> fd_valid s = true ->
  _shutdownReadWrite (tr s) = false -> _connect (tr s) = true ->
  exceeds (packetSize (_rcvSize (tr s))) (buf_size buf) = false ->
  sys_recvfrom (_fd (tr s)) (packetSize (_rcvSize (tr s))) (os s) = (w1, (SysOk n, d, peer)) ->
  doConnect (_fd (tr s)) peer (-1) w1 = (w2, inl e) ->
  read (S f) buf tmo s = (mkSt (tr s) w2 (log s), Throw (Thrown e)).
Proof.
  intros Hi Hfd Hsd Hc Hx Hrecv Hconn.
  rewrite read_run, Hi, Hx, read_loop_repeat, Hsd, read_recv_pending, Hfd, Hrecv, Hconn
    by exact Hc.
  reflexivity.
Qed.

(** C37: Whatever the OS does, a [read] that returns leaves the buffer
    well formed: "not ready" leaves it resized to the ceiling
    [packetSize] with the iterator at its start, and a datagram leaves
    the iterator at the end of the bytes received. *)
Theorem read_result_buffer f buf tmo (s s' : St W) r buf' :
  read f buf tmo s = (s', Ok (r, buf')) ->
  buf_wf buf' = true /\
  (if r then i buf' = length (b buf')
   else i buf' = 0%nat /\ length (b buf') = Z.to_nat (packetSize (_rcvSize (tr s)))).
Proof.
  rewrite read_run. destruct (Nat.eqb (i buf) 0); [|discriminate].
  destruct (exceeds _ _); [discriminate|]. intros Hr. unfold buf_wf.
  destruct (read_loop_ok _ _ _ _ _ _ _ _ Hr) as [He|[bytes He]]; injection He as -> ->; cbn.
  - rewrite length_resize. auto.
  - rewrite Nat.leb_refl. auto.
Qed.
End ReadProperties.

(** ** Termination against the scripted OS *)

Section ReadScript.
Import ScriptOS.

Definition rtag (l : rlabel) : nat :=
  match l with RRepeat => 1 | RRepeatSelect => 2 end.

(** The connecting receive ends with a trace and a return, which never
    runs out of fuel and returns the result of [::recvfrom]. *)
Ltac trace_ret_done :=
  match goal with |- context [(trace ?l ?m ;; sret ?r) ?s0] =>
    pose proof (trace_ret_cases l m r s0) as Ht;
    destruct ((trace l m ;; sret r) s0) as [s2 o]; cbn in Ht;
    destruct Ht as [->|[->|[e ->]]]; exact I end.

(** A receive that reports an error consumed a reply of the script; no
    receive runs out of fuel. *)
Lemma read_recv_script ps (s : St world) :
  match read_recv ps s with
  | (s1, Ok (SysErr _, _)) => (length (replies (os s1)) < length (replies (os s)))%nat
  | (_, OutOfFuel) => False
  | _ => True
  end.
Proof.
  destruct (_connect (tr s)) eqn:Hc;
    [rewrite read_recv_pending by exact Hc | rewrite read_recv_connected by exact Hc];
    (destruct (fd_valid s); [|exact I]);
    cbn [sys_recvfrom sys_recv doConnect script_api];
    unfold recvfrom_op, recv_op, log_call, drop1; cbn [replies];
    destruct (replies (os s)) as [|[] rs]; cbn; try exact I; try trace_ret_done.
  - destruct r as [n|e]; cbn; [|lia].
    unfold unit_op, log_call, drop1; cbn. destruct rs as [|[] rs']; cbn; first [exact I | trace_ret_done].
  - destruct r as [n|e]; cbn; [exact I|lia].
Qed.

Lemma read_loop_script f lbl buf tmo ps (s : St world) :
  (2 * length (replies (os s)) + rtag lbl < f)%nat ->
  snd (read_loop f lbl buf tmo ps s) <> OutOfFuel.
Proof.
  revert lbl s. induction f as [|f IH]; intros lbl s Hf; [lia|].
  destruct lbl; [rewrite read_loop_repeat | rewrite read_loop_select].
  - destruct (_shutdownReadWrite (tr s)); [discriminate|].
    pose proof (read_recv_script ps s) as Hr.
    destruct (read_recv ps s) as [s1 [[[n|e] d]| | |]]; try discriminate; [apply read_done_not_fuel| |contradiction].
    cbn [rtag] in Hf.
    destruct (interrupted e); [apply IH; cbn [rtag]; lia|].
    destruct (wouldBlock e); [destruct (tmo =? 0); [discriminate|apply IH; cbn [rtag]; lia]|].
    destruct (recvTruncated e); discriminate.
  - destruct (fd_valid s); [|discriminate]. cbn [sys_wait script_api].
    destruct (sys_op_cases (CWait (_fd (tr s)) DirRead (-1)) (SysOk 1) (os s))
      as [[r [Hr ->]] | ->].
    + cbn [rtag] in Hf. rewrite Hr in Hf. cbn [length] in Hf.
      destruct r as [n|e].
      * destruct (n =? 0); [discriminate|].
        apply IH. cbn [os rtag]. erewrite length_drop1_log by exact Hr. lia.
      * destruct (interrupted e); [|discriminate].
        apply IH. cbn [os rtag]. erewrite length_drop1_log by exact Hr. lia.
    + cbn -[read_loop]. apply IH. cbn [os rtag]. rewrite length_log_call. cbn [rtag] in Hf. lia.
Qed.

(** C14: Against any finite script of OS replies, [read] with fuel
    [2 * n + 3] (for [n] replies) ends: it returns, throws or fails an
    assertion, but does not run out of fuel. *)
Theorem read_terminates buf tmo (s : St world) :
  snd (read (2 * length (replies (os s)) + 3) buf tmo s) <> OutOfFuel.
Proof.
  rewrite read_run. destruct (Nat.eqb _ _); [|discriminate].
  destruct (exceeds _ _); [discriminate|].
  apply read_loop_script. cbn [rtag]. lia.
Qed.
End ReadScript.

(** ** Witnesses *)

Section ReadWitnesses.
Import ScriptOS.

(** A server transceiver on descriptor 3 with a 100-byte receive
    buffer (ceiling 72), connected or waiting for its first peer. *)
Definition rd_st (connect shutdown : bool) (rs : list reply) : St world :=
  sample_st (sample_tr 3 100 65536 connect shutdown) rs.
Definition empty_buf : Buffer := mkBuffer [] 0.
Definition rd_buf200 : Buffer := mkBuffer (repeat Byte.x00 200) 0.
Definition peer1 : sockaddr := mk_sockaddr AF_INET 0x0a000001 4061.
Definition dgram : list Byte.byte := [Byte.x01; Byte.x02; Byte.x03].

Lemma read_datagram_limit_witness :
  read 3 rd_buf200 0 (rd_st false false []) =
  (mkSt (tr (rd_st false false [])) (os (rd_st false false []))
     [EWarning (WDatagramLimit 72)], Throw (Thrown DatagramLimitException)).
Proof. apply (read_datagram_limit 3 rd_buf200 0 (rd_st false false [])); vm_compute; reflexivity. Defined.

Lemma read_after_shutdown_witness :
  read 3 empty_buf 0 (rd_st false true []) =
  (rd_st false true [], Throw (Thrown ConnectionLostException)).
Proof. apply read_after_shutdown; vm_compute; reflexivity. Defined.

Lemma read_first_datagram_connects_witness :
  let s := rd_st true false [RFrom (SysOk 3) dgram peer1] in
  read 3 empty_buf 0 s =
  (mkSt (set_connect false (tr s)) (mkWorld [] [CRecvFrom 3 72; CDoConnect 3 peer1] 10)
     (log s ++ trace_events (tr s) 1 TrConnected
            ++ received_events (tr s) (Z.of_nat (length dgram))),
   Ok (true, mkBuffer dgram (length dgram))).
Proof.
  cbv zeta.
  apply (read_first_datagram_connects 2 empty_buf 0 _ (mkWorld [] [CRecvFrom 3 72] 10) _ _ peer1);
    vm_compute; reflexivity.
Defined.

Lemma read_connected_datagram_witness :
  let s := rd_st false false [RData (SysOk 3) dgram] in
  read 3 empty_buf 0 s =
  (mkSt (tr s) (mkWorld [] [CRecv 3 72] 10)
     (log s ++ received_events (tr s) (Z.of_nat (length dgram))),
   Ok (true, mkBuffer dgram (length dgram))).
Proof. cbv zeta. apply (read_connected_datagram 2 empty_buf 0); vm_compute; reflexivity. Defined.

Lemma read_connect_one_way_witness :
  tr (fst (read 3 empty_buf 0 (rd_st true false [RFrom (SysOk 3) dgram peer1]))) =
  set_connect false (tr (rd_st true false [])).
Proof.
  destruct (proj1 (read_connect_one_way 3 empty_buf 0 (rd_st true false [RFrom (SysOk 3) dgram peer1])))
    as [H|H]; [vm_compute in H; discriminate H | exact H].
Defined.

Lemma read_timeout_ignored_witness :
  read 4 empty_buf 100 (rd_st false false [RData (SysErr EWOULDBLOCK) []]) =
  read 4 empty_buf (-1) (rd_st false false [RData (SysErr EWOULDBLOCK) []]).
Proof. apply read_timeout_ignored; discriminate. Defined.

Lemma read_not_ready_witness :
  let s := rd_st false false [RData (SysErr EWOULDBLOCK) []] in
  read 3 empty_buf 0 s =
  (mkSt (tr s) (mkWorld [] [CRecv 3 72] 10) (log s),
   Ok (false, mkBuffer (resize (Z.to_nat (packetSize (_rcvSize (tr s)))) (b empty_buf)) 0)).
Proof. cbv zeta. apply (read_not_ready 2 empty_buf _ _ [] EWOULDBLOCK); vm_compute; reflexivity. Defined.

Lemma read_receive_errors_witness :
  let s := rd_st true false [RFrom (SysErr EMSGSIZE) [] peer1] in
  read 3 empty_buf 0 s =
  if recvTruncated EMSGSIZE then
    (mkSt (tr s) (mkWorld [] [CRecvFrom 3 72] 10)
       (log s ++ if _warn (tr s)
                 then [EWarning (WDatagramLimit (packetSize (_rcvSize (tr s))))] else []),
     Throw (Thrown DatagramLimitException))
  else (mkSt (tr s) (mkWorld [] [CRecvFrom 3 72] 10) (log s), Throw (Thrown (SocketException EMSGSIZE))).
Proof.
  cbv zeta. apply (read_receive_errors 2 empty_buf 0 _ _ [] EMSGSIZE);
    vm_compute; first [reflexivity | exists peer1; reflexivity].
Defined.
Lemma read_result_buffer_witness :
  read 2 empty_buf 0 (rd_st false false [RData (SysErr EWOULDBLOCK) []]) =
    (mkSt (tr (rd_st false false [])) (mkWorld [] [CRecv 3 72] 10) [],
     Ok (false, mkBuffer (repeat Byte.x00 72) 0)) /\
  (buf_wf (mkBuffer (repeat Byte.x00 72) 0) = true /\
   i (mkBuffer (repeat Byte.x00 72) 0) = 0%nat /\
   length (b (mkBuffer (repeat Byte.x00 72) 0)) =
     Z.to_nat (packetSize (_rcvSize (tr (rd_st false false [RData (SysErr EWOULDBLOCK) []]))))).
Proof.
  assert (Hr : read 2 empty_buf 0 (rd_st false false [RData (SysErr EWOULDBLOCK) []]) =
    (mkSt (tr (rd_st false false [])) (mkWorld [] [CRecv 3 72] 10) [],
     Ok (false, mkBuffer (repeat Byte.x00 72) 0))) by (vm_compute; reflexivity).
  split; [exact Hr|]. exact (read_result_buffer 2 empty_buf 0 _ _ false _ Hr).
Defined.
Lemma read_connect_failure_drops_datagram_witness :
  let s := rd_st true false [RFrom (SysOk 3) dgram peer1; RFail (SocketException ECONNREFUSED)] in
  read 3 empty_buf 0 s =
  (mkSt (tr s) (mkWorld [] [CRecvFrom 3 72; CDoConnect 3 peer1] 10) (log s),
   Throw (Thrown (SocketException ECONNREFUSED))).
Proof.
  cbv zeta.
  apply (read_connect_failure_drops_datagram 2 empty_buf 0 _
           (mkWorld [RFail (SocketException ECONNREFUSED)] [CRecvFrom 3 72] 10) _ 3 dgram peer1);
    vm_compute; reflexivity.
Defined.
End ReadWitnesses.
