(* ===== verification/Net.v ===== *)
(** * A kernel with UDP sockets, and a datagram's round trip

    [ScriptOS] answers each system call from a script; [NetOS] is a
    kernel instead: a table of UDP sockets keyed by descriptor, each
    with its local address, the peer it is connected to, and the queue
    of datagrams it received.  [::send] on a connected socket delivers
    the datagram to the socket bound to the peer's address, which keeps
    it only if it is unconnected or connected to the sender (the
    filtering the comment at line 81 of [shutdownReadWrite] relies on);
    [::recv] and [::recvfrom] take the oldest datagram, truncated to the
    length asked for, or fail with [EWOULDBLOCK] on an empty queue.

    Two transceivers, each its own [St] over the one kernel, then
    compose: [write] on one and [read] on the other move a datagram from
    one buffer to the other ([write_read_roundtrip]).

    The kernel is not among the sources: it is modelled from the
    behaviour of UDP sockets the code and its comments rely on. *)

From Stdlib Require Import String ZArith List Lia Bool.
From S2P Require Import Prelude Types Os Limits Write Read.
Import ListNotations.
Open Scope Z_scope.
Open Scope udp_scope.

(** ** Addresses compared *)

Definition family_eqb (f g : family) : bool :=
  match f, g with
  | AF_INET, AF_INET | AF_INET6, AF_INET6 | AF_UNSPEC, AF_UNSPEC => true
  | _, _ => false
  end.

Definition sockaddr_eqb (a c : sockaddr) : bool :=
  family_eqb (ss_family a) (ss_family c) && (s_addr a =? s_addr c) &&
  (sin_port a =? sin_port c).

Lemma family_eqb_eq f g : family_eqb f g = true <-> f = g.
Proof. destruct f, g; cbn; split; congruence. Qed.

(** [sockaddr_eqb] decides the equality of addresses. *)
Lemma sockaddr_eqb_eq a c : sockaddr_eqb a c = true <-> a = c.
Proof.
  destruct a as [f x p], c as [g y q]. unfold sockaddr_eqb. cbn.
  rewrite !andb_true_iff, family_eqb_eq, !Z.eqb_eq. split.
  - intros [[-> ->] ->]. reflexivity.
  - intros E. injection E as -> -> ->. auto.
Qed.

(** ** Association lists keyed by descriptor *)

Section Assoc.
Context {V : Type}.

Fixpoint assoc (l : list (Z * V)) (k : Z) : option V :=
  match l with
  | [] => None
  | (k', v) :: l' => if k =? k' then Some v else assoc l' k
  end.

Fixpoint assoc_set (l : list (Z * V)) (k : Z) (v : V) : list (Z * V) :=
  match l with
  | [] => [(k, v)]
  | (k', v') :: l' => if k =? k' then (k, v) :: l' else (k', v') :: assoc_set l' k v
  end.

Fixpoint assoc_del (l : list (Z * V)) (k : Z) : list (Z * V) :=
  match l with
  | [] => []
  | (k', v') :: l' => if k =? k' then assoc_del l' k else (k', v') :: assoc_del l' k
  end.
End Assoc.

Module NetOS.

(** A socket of the kernel. *)
Record nsock : Type := mkNSock {
  n_local : sockaddr;
  n_peer : option sockaddr;
  n_queue : list (sockaddr * list Byte.byte)
}.

Record nworld : Type := mkNWorld {
  socks : list (Z * nsock);
  n_next : Z
}.

Definition set_sock (fd : Z) (k : nsock) (w : nworld) : nworld :=
  mkNWorld (assoc_set (socks w) fd k) (n_next w).

Definition with_peer (p : option sockaddr) (k : nsock) : nsock :=
  mkNSock (n_local k) p (n_queue k).

Definition with_queue (q : list (sockaddr * list Byte.byte)) (k : nsock) : nsock :=
  mkNSock (n_local k) (n_peer k) q.

Definition with_local (a : sockaddr) (k : nsock) : nsock :=
  mkNSock a (n_peer k) (n_queue k).

(** The descriptor of the socket bound to [a]. *)
Fixpoint sock_at (l : list (Z * nsock)) (a : sockaddr) : option Z :=
  match l with
  | [] => None
  | (fd, k) :: l' => if sockaddr_eqb (n_local k) a then Some fd else sock_at l' a
  end.

(** A connected socket accepts datagrams from its peer only. *)
Definition accepts (p : option sockaddr) (src : sockaddr) : bool :=
  match p with None => true | Some a => sockaddr_eqb a src end.

(** The datagram [d] from [src] arrives at [dst]: queued by the socket
    bound there if it accepts it, lost otherwise. *)
Definition deliver (w : nworld) (src dst : sockaddr) (d : list Byte.byte) : nworld :=
  match sock_at (socks w) dst with
  | Some fd' =>
      match assoc (socks w) fd' with
      | Some k =>
          if accepts (n_peer k) src
          then set_sock fd' (with_queue (n_queue k ++ [(src, d)]) k) w
          else w
      | None => w
      end
  | None => w
  end.

Definition EBADF : errno := EOther 9.

(** [::send(fd, data, len, 0)] *)
Definition send_op (fd : Z) (d : list Byte.byte) (w : nworld) : nworld * sysret :=
  match assoc (socks w) fd with
  | None => (w, SysErr EBADF)
  | Some k =>
      match n_peer k with
      | None => (w, SysErr ENOTCONN)
      | Some dst => (deliver w (n_local k) dst d, SysOk (Z.of_nat (length d)))
      end
  end.

(** [::recvfrom(fd, buf, len, ...)]: the oldest datagram, truncated to
    [len] bytes, with its sender. *)
Definition recvfrom_op (fd len : Z) (w : nworld)
  : nworld * (sysret * list Byte.byte * sockaddr) :=
  match assoc (socks w) fd with
  | None => (w, (SysErr EBADF, [], mk_sockaddr AF_UNSPEC 0 0))
  | Some k =>
      match n_queue k with
      | [] => (w, (SysErr EWOULDBLOCK, [], mk_sockaddr AF_UNSPEC 0 0))
      | (src, d) :: q =>
          let d' := firstn (Z.to_nat len) d in
          (set_sock fd (with_queue q k) w, (SysOk (Z.of_nat (length d')), d', src))
      end
  end.

(** [::recv(fd, buf, len, 0)] *)
Definition recv_op (fd len : Z) (w : nworld) : nworld * (sysret * list Byte.byte) :=
  let '(w', (r, d, _)) := recvfrom_op fd len w in (w', (r, d)).

(** [::poll]: a socket is always writable, readable when its queue is
    not empty.  A wait without timeout on an empty queue never returns:
    it is answered [EINTR], so that [read] retries it until its fuel is
    exhausted, and a finite timeout expires. *)
Definition wait_op (fd : Z) (dir : direction) (tmo : Z) (w : nworld) : nworld * sysret :=
  match dir with
  | DirWrite => (w, SysOk 1)
  | DirRead =>
      match assoc (socks w) fd with
      | Some (mkNSock _ _ (_ :: _)) => (w, SysOk 1)
      | _ => (w, if tmo <? 0 then SysErr EINTR else SysOk 0)
      end
  end.

(** [::connect]: [AF_UNSPEC] dissolves the association. *)
Definition connect_op (fd : Z) (a : sockaddr) (w : nworld) : nworld * sysret :=
  match assoc (socks w) fd with
  | None => (w, SysErr EBADF)
  | Some k =>
      let p := match ss_family a with AF_UNSPEC => None | _ => Some a end in
      (set_sock fd (with_peer p k) w, SysOk 0)
  end.

(** A helper applied to the socket [fd], failing on an unknown one. *)
Definition on_sock {A} (fd : Z) (f : nsock -> nworld -> nworld * A) (w : nworld)
  : nworld * (ice_exn + A) :=
  match assoc (socks w) fd with
  | None => (w, inl (SocketException EBADF))
  | Some k => let '(w', a) := f k w in (w', inr a)
  end.

Definition create_op (fam : family) (w : nworld) : nworld * (ice_exn + Z) :=
  let fd := n_next w in
  (mkNWorld (assoc_set (socks w) fd (mkNSock (mk_sockaddr fam 0 (49152 + fd)) None []))
            (fd + 1), inr fd).

Definition default_bufsize : Z := 65536.

#[export] Instance net_api : SocketApi nworld := {
  createSocket udp fam := create_op fam;
  closeSocket fd := on_sock fd (fun _ w => (mkNWorld (assoc_del (socks w) fd) (n_next w), tt));
  setBlock fd _ := on_sock fd (fun _ w => (w, tt));
  setReuseAddress fd _ := on_sock fd (fun _ w => (w, tt));
  doConnect fd a _ := on_sock fd (fun k w => (set_sock fd (with_peer (Some a) k) w, tt));
  doBind fd a := on_sock fd (fun k w => (set_sock fd (with_local a k) w, tt));
  getAddressForServer host port _ := fun w => (w, inr (mk_sockaddr AF_INET 0 port));
  setMcastGroup fd _ _ := on_sock fd (fun _ w => (w, tt));
  setMcastInterface fd _ _ := on_sock fd (fun _ w => (w, tt));
  setMcastTtl fd _ _ := on_sock fd (fun _ w => (w, tt));
  getRecvBufferSize fd := on_sock fd (fun _ w => (w, default_bufsize));
  getSendBufferSize fd := on_sock fd (fun _ w => (w, default_bufsize));
  setRecvBufferSize fd _ := on_sock fd (fun _ w => (w, tt));
  setSendBufferSize fd _ := on_sock fd (fun _ w => (w, tt));
  shutdownSocketReadWrite fd := on_sock fd (fun _ w => (w, tt));
  fdToLocalAddress fd := on_sock fd (fun k w => (w, n_local k));
  fdToRemoteAddress fd := on_sock fd (fun k w =>
    (w, match n_peer k with Some a => (true, a) | None => (false, n_local k) end));
  sys_send fd d := send_op fd d;
  sys_recv fd len := recv_op fd len;
  sys_recvfrom fd len := recvfrom_op fd len;
  sys_wait fd dir tmo := wait_op fd dir tmo;
  sys_connect fd a := connect_op fd a
}.


(** ** Lemmas *)

Lemma assoc_set_same {V} (l : list (Z * V)) k v : assoc (assoc_set l k v) k = Some v.
Proof.
  induction l as [|[k' v'] l IH]; cbn; rewrite ?Z.eqb_refl; [reflexivity|].
  destruct (k =? k') eqn:E; cbn; rewrite ?Z.eqb_refl, ?E; auto.
Qed.

Lemma assoc_set_diff {V} (l : list (Z * V)) k k' v :
  k <> k' -> assoc (assoc_set l k v) k' = assoc l k'.
Proof.
  intros Hk. apply Z.eqb_neq in Hk. rewrite Z.eqb_sym in Hk.
  induction l as [|[k0 v0] l IH]; cbn; [now rewrite Hk|].
  destruct (k =? k0) eqn:E; cbn.
  - apply Z.eqb_eq in E. subst k0. now rewrite Hk.
  - destruct (k' =? k0); [reflexivity|exact IH].
Qed.

(** A send on a connected socket queues the datagram at the socket
    bound to the peer's address, when that socket accepts the sender. *)
Lemma send_delivers w fa fb ka kb d :
  assoc (socks w) fa = Some ka -> assoc (socks w) fb = Some kb ->
  sock_at (socks w) (match n_peer ka with Some a => a | None => n_local ka end) = Some fb ->
  n_peer ka <> None -> accepts (n_peer kb) (n_local ka) = true ->
  send_op fa d w =
  (set_sock fb (with_queue (n_queue kb ++ [(n_local ka, d)]) kb) w, SysOk (Z.of_nat (length d))).
Proof.
  intros Ha Hb Hat Hp Hacc. unfold send_op, deliver. rewrite Ha.
  destruct (n_peer ka) as [dst|]; [|congruence]. rewrite Hat, Hb, Hacc. reflexivity.
Qed.

(** [::recvfrom] takes the oldest datagram, cut to [len] bytes: the
    rest of a longer datagram is lost. *)
Lemma recvfrom_pop w fd k src d q len :
  assoc (socks w) fd = Some k -> n_queue k = (src, d) :: q ->
  recvfrom_op fd len w =
  (set_sock fd (with_queue q k) w,
   (SysOk (Z.of_nat (length (firstn (Z.to_nat len) d))), firstn (Z.to_nat len) d, src)).
Proof. intros Hk Hq. unfold recvfrom_op. rewrite Hk, Hq. reflexivity. Qed.

Lemma recvfrom_empty w fd k len :
  assoc (socks w) fd = Some k -> n_queue k = [] ->
  recvfrom_op fd len w = (w, (SysErr EWOULDBLOCK, [], mk_sockaddr AF_UNSPEC 0 0)).
Proof. intros Hk Hq. unfold recvfrom_op. rewrite Hk, Hq. reflexivity. Qed.

Lemma assoc_set_twice {V} (l : list (Z * V)) k v v' :
  assoc_set (assoc_set l k v) k v' = assoc_set l k v'.
Proof.
  induction l as [|[k0 v0] l IH]; cbn; [now rewrite Z.eqb_refl|].
  destruct (k =? k0) eqn:E; cbn; rewrite ?Z.eqb_refl, ?E, ?IH; reflexivity.
Qed.

Lemma assoc_del_diff {V} (l : list (Z * V)) n k : n <> k -> assoc (assoc_del l n) k = assoc l k.
Proof.
  intros Hn. apply Z.eqb_neq in Hn. rewrite Z.eqb_sym in Hn.
  induction l as [|[k0 v0] l IH]; cbn; [reflexivity|].
  destruct (n =? k0) eqn:E; cbn.
  - apply Z.eqb_eq in E. subst k0. rewrite Hn. exact IH.
  - destruct (k =? k0); [reflexivity|exact IH].
Qed.

(** A socket created under a fresh descriptor goes after the others:
    the address lookup still finds the socket bound there before. *)
Lemma sock_at_set_fresh l a fd n :
  sock_at l a = Some fd -> assoc l n = None -> forall v, sock_at (assoc_set l n v) a = Some fd.
Proof.
  intros Hs Hn v. revert Hs Hn.
  induction l as [|[k x] l IH]; cbn; [discriminate|]. intros Hs Hn.
  destruct (n =? k); [discriminate|]. cbn.
  destruct (sockaddr_eqb (n_local x) a); [exact Hs|apply IH; assumption].
Qed.

(** Changing a socket's peer or queue keeps the address lookup. *)
Lemma sock_at_set_local l a fd v v0 :
  assoc l fd = Some v0 -> n_local v = n_local v0 -> sock_at (assoc_set l fd v) a = sock_at l a.
Proof.
  induction l as [|[k x] l IH]; cbn; [discriminate|]. intros Hv Hl.
  destruct (fd =? k) eqn:E; cbn.
  - apply Z.eqb_eq in E. subst k. injection Hv as ->. rewrite Hl. reflexivity.
  - rewrite IH by assumption. reflexivity.
Qed.

Lemma sock_set_same fd k w : assoc (socks (set_sock fd k w)) fd = Some k.
Proof. apply assoc_set_same. Qed.

Lemma set_sock_twice fd k k' w : set_sock fd k' (set_sock fd k w) = set_sock fd k' w.
Proof. unfold set_sock. cbn. rewrite assoc_set_twice. reflexivity. Qed.
End NetOS.

(** ** [read] against the kernel *)

Section NetRead.
Import NetOS.

(** On an empty queue the receive step reports "would block". *)
Lemma net_recv_empty ps t w lg k :
  _fd t <> INVALID_SOCKET -> assoc (socks w) (_fd t) = Some k -> n_queue k = [] ->
  read_recv ps (mkSt t w lg) = (mkSt t w lg, Ok (SysErr EWOULDBLOCK, [])).
Proof.
  intros Hv Hk Hq. unfold INVALID_SOCKET in Hv. apply Z.eqb_neq in Hv.
  destruct (_connect t) eqn:Hc; [rewrite read_recv_pending by exact Hc
                                 | rewrite read_recv_connected by exact Hc];
    unfold fd_valid, INVALID_SOCKET; cbn [tr os log]; rewrite Hv; cbn [negb];
    cbn [sys_recvfrom sys_recv net_api]; unfold recv_op;
    rewrite (recvfrom_empty w _ k _ Hk Hq); reflexivity.
Qed.

(** A transceiver waiting for its first peer takes the oldest datagram
    and connects to its sender. *)
Lemma net_recv_pending ps t w lg k src d q :
  _connect t = true -> _fd t <> INVALID_SOCKET -> trace_quiet t 1 = true ->
  assoc (socks w) (_fd t) = Some k -> n_queue k = (src, d) :: q ->
  read_recv ps (mkSt t w lg) =
  (mkSt (set_connect false t) (set_sock (_fd t) (with_peer (Some src) (with_queue q k)) w)
     (lg ++ trace_events t 1 TrConnected),
   Ok (SysOk (Z.of_nat (length (firstn (Z.to_nat ps) d))), firstn (Z.to_nat ps) d)).
Proof.
  intros Hc Hv Hl Hk Hq. unfold INVALID_SOCKET in Hv. apply Z.eqb_neq in Hv.
  rewrite read_recv_pending by exact Hc. unfold fd_valid, INVALID_SOCKET. cbn [tr os log].
  rewrite Hv. cbn [negb sys_recvfrom net_api]. rewrite (recvfrom_pop w _ k src d q ps Hk Hq).
  cbn -[trace set_sock]. unfold on_sock. rewrite sock_set_same.
  cbn -[trace set_sock]. rewrite connected_quiet by exact Hl.
  rewrite set_sock_twice. reflexivity.
Qed.

(** A connected transceiver takes the oldest datagram with [::recv]. *)
Lemma net_recv_connected ps t w lg k src d q :
  _connect t = false -> _fd t <> INVALID_SOCKET ->
  assoc (socks w) (_fd t) = Some k -> n_queue k = (src, d) :: q ->
  read_recv ps (mkSt t w lg) =
  (mkSt t (set_sock (_fd t) (with_queue q k) w) lg,
   Ok (SysOk (Z.of_nat (length (firstn (Z.to_nat ps) d))), firstn (Z.to_nat ps) d)).
Proof.
  intros Hc Hv Hk Hq. unfold INVALID_SOCKET in Hv. apply Z.eqb_neq in Hv.
  rewrite read_recv_connected by exact Hc. unfold fd_valid, INVALID_SOCKET. cbn [tr os log].
  rewrite Hv. cbn [negb sys_recv net_api]. unfold recv_op.
  rewrite (recvfrom_pop w _ k src d q ps Hk Hq). reflexivity.
Qed.

(** [read] on a non-empty queue returns the oldest datagram cut to the
    receive ceiling, after connecting to its sender when [_connect]
    holds; the kernel forgets the rest of a longer datagram. *)
Lemma net_read_datagram f buf tmo t w lg k src d q :
  _fd t <> INVALID_SOCKET -> trace_quiet t 1 = true -> _shutdownReadWrite t = false ->
  i buf = 0%nat -> exceeds (packetSize (_rcvSize t)) (buf_size buf) = false ->
  assoc (socks w) (_fd t) = Some k -> n_queue k = (src, d) :: q ->
  let d' := firstn (Z.to_nat (packetSize (_rcvSize t))) d in
  read (S f) buf tmo (mkSt t w lg) =
  (mkSt (if _connect t then set_connect false t else t)
     (set_sock (_fd t) (with_peer (if _connect t then Some src else n_peer k) (with_queue q k)) w)
     (lg ++ (if _connect t then trace_events t 1 TrConnected else [])
         ++ received_events t (Z.of_nat (length d'))),
   Ok (true, mkBuffer d' (length d'))).
Proof.
  intros Hv Hl Hsd Hi Hx Hk Hq d'.
  rewrite read_run. cbn [tr]. rewrite Hi, Hx. cbn [Nat.eqb].
  rewrite read_loop_repeat. cbn [tr]. rewrite Hsd.
  destruct (_connect t) eqn:Hc;
    [rewrite (net_recv_pending _ t w lg k src d q Hc Hv Hl Hk Hq)
    |rewrite (net_recv_connected _ t w lg k src d q Hc Hv Hk Hq)];
    cbv beta iota; rewrite read_done_quiet by (apply (quiet_mono _ 1); [lia|exact Hl]);
    cbn [tr os log]; rewrite received_buffer_exact, ?app_assoc, ?app_nil_r; reflexivity.
Qed.

(** A wait without timeout on an empty queue never returns. *)
Lemma net_wait_blocks f buf tmo ps t w lg k :
  _fd t <> INVALID_SOCKET -> assoc (socks w) (_fd t) = Some k -> n_queue k = [] ->
  read_loop f RRepeatSelect buf tmo ps (mkSt t w lg) = (mkSt t w lg, OutOfFuel).
Proof.
  intros Hv Hk Hq. unfold INVALID_SOCKET in Hv. apply Z.eqb_neq in Hv.
  induction f as [|f IH]; [reflexivity|].
  rewrite read_loop_select. unfold fd_valid, INVALID_SOCKET. cbn [tr os log]. rewrite Hv.
  cbn [negb sys_wait net_api]. unfold wait_op. rewrite Hk.
  destruct k as [l p qq]; cbn in Hq; subst qq. exact IH.
Qed.

(** [read] on an empty queue: "not ready" with timeout 0, otherwise a
    wait that never returns. *)
Lemma net_read_empty f buf tmo t w lg k :
  _fd t <> INVALID_SOCKET -> _shutdownReadWrite t = false -> i buf = 0%nat ->
  exceeds (packetSize (_rcvSize t)) (buf_size buf) = false ->
  assoc (socks w) (_fd t) = Some k -> n_queue k = [] ->
  read (S f) buf tmo (mkSt t w lg) =
  (mkSt t w lg,
   if tmo =? 0 then Ok (false, mkBuffer (resize (Z.to_nat (packetSize (_rcvSize t))) (b buf)) 0)
   else OutOfFuel).
Proof.
  intros Hv Hsd Hi Hx Hk Hq.
  rewrite read_run. cbn [tr]. rewrite Hi, Hx. cbn [Nat.eqb].
  rewrite read_loop_repeat. cbn [tr]. rewrite Hsd, (net_recv_empty _ t w lg k Hv Hk Hq).
  cbn [interrupted wouldBlock errno_eqb]. destruct (tmo =? 0); [reflexivity|].
  apply (net_wait_blocks _ _ _ _ t w lg k Hv Hk Hq).
Qed.
End NetRead.

(** ** A datagram from one transceiver to another *)

Section RoundTrip.
Import NetOS.

(** C40: Over the kernel [NetOS], a datagram written by one transceiver
    is read by another: when the sender's socket is connected to the
    address of the receiver's socket, which accepts it and has nothing
    queued, and the buffer fits the sender's ceiling (the receiver's
    being non-negative), [write] sends it
    whole (returning [true] after its trace and statistics events) and a
    following [read] on the receiver, connected or waiting for its first
    peer, returns its first [packetSize] bytes for the receiver's
    ceiling: all of them when the buffer also fits that ceiling, and a
    prefix, with no error, when it does not.  Each side's trace is off
    or formats the descriptor without a system call ([trace_quiet], at
    level 3 for the sender and level 1 for the receiver). *)
Theorem write_read_roundtrip (w : nworld) fa fb ka kb trA trB lgA lgB buf f f' tmo tmo' :
  assoc (socks w) fa = Some ka -> assoc (socks w) fb = Some kb ->
  n_peer ka = Some (n_local kb) -> sock_at (socks w) (n_local kb) = Some fb ->
  accepts (n_peer kb) (n_local ka) = true -> n_queue kb = [] ->
  _fd trA = fa -> _fd trB = fb -> fa <> INVALID_SOCKET -> fb <> INVALID_SOCKET ->
  _shutdownReadWrite trB = false -> i buf = 0%nat ->
  buf_size buf <= packetSize (_sndSize trA) -> 0 <= packetSize (_rcvSize trB) ->
  trace_quiet trA 3 = true -> trace_quiet trB 1 = true ->
  let w' := set_sock fb (with_queue [(n_local ka, b buf)] kb) w in
  let d' := firstn (Z.to_nat (packetSize (_rcvSize trB))) (b buf) in
  write (S f) buf tmo (mkSt trA w lgA) =
    (mkSt trA w' (lgA ++ sent_events trA (buf_size buf)),
     Ok (true, mkBuffer (b buf) (length (b buf)))) /\
  snd (read (S f') (mkBuffer [] 0) tmo' (mkSt trB w' lgB)) = Ok (true, mkBuffer d' (length d')) /\
  (buf_size buf <= packetSize (_rcvSize trB) -> d' = b buf).
Proof.
  intros Ha Hb Hpeer Hat Hacc Hq HfA HfB HvA HvB Hsd Hi HszA HszB HlA HlB w' d'.
  pose proof (buf_size_nonneg buf) as Hnn. pose proof (packetSize_le_max (_sndSize trA)).
  pose proof (packetSize_le_max (_rcvSize trB)).
  split; [|split].
  - unfold INVALID_SOCKET in HvA. apply Z.eqb_neq in HvA.
    rewrite write_run, Hi. cbn [Nat.eqb tr].
    rewrite exceeds_small by (unfold INT_MAX; lia).
    replace (packetSize (_sndSize trA) <? buf_size buf) with false by (symmetry; apply Z.ltb_ge; lia).
    rewrite write_loop_repeat. unfold fd_valid, INVALID_SOCKET. cbn [tr os log]. rewrite HfA, HvA.
    change (sys_send fa (b buf) w) with (send_op fa (b buf) w).
    rewrite (send_delivers w fa fb ka kb) by (rewrite ?Hpeer; congruence).
    rewrite Hq. cbn [app]. change (Z.of_nat (length (b buf))) with (buf_size buf).
    erewrite (write_done_quiet buf _ (mkSt trA _ lgA)) by exact HlA.
    cbn [tr os log]. rewrite Z.eqb_refl. reflexivity.
  - subst fb. rewrite (net_read_datagram f' (mkBuffer [] 0) tmo' trB w' lgB
                        (with_queue [(n_local ka, b buf)] kb) (n_local ka) (b buf) []);
      [reflexivity|exact HvB|exact HlB|exact Hsd|reflexivity| |apply sock_set_same|reflexivity].
    rewrite exceeds_small by (cbn; unfold INT_MAX; lia). apply Z.ltb_ge. cbn. lia.
  - intros Hsz. apply firstn_all2. unfold buf_size in Hsz. lia.
Qed.
End RoundTrip.

(** ** Witnesses *)

Section NetWitnesses.
Import NetOS.

(** 10.0.0.1:5000 connected to 10.0.0.2:6000, which waits for its
    first peer and has a 30-byte receive buffer: a ceiling of 2 bytes,
    so that the 3-byte datagram arrives cut to its first 2 bytes. *)
Definition addrA : sockaddr := mk_sockaddr AF_INET 0x0a000001 5000.
Definition addrB : sockaddr := mk_sockaddr AF_INET 0x0a000002 6000.
Definition sockA : nsock := mkNSock addrA (Some addrB) [].
Definition sockB : nsock := mkNSock addrB None [].
Definition net2 : nworld := mkNWorld [(3, sockA); (4, sockB)] 5.
Definition trA : transceiver := ScriptOS.sample_tr 3 65536 65536 false false.
Definition trB : transceiver := ScriptOS.sample_tr 4 30 65536 true false.
Definition buf3 : Buffer := mkBuffer [Byte.x01; Byte.x02; Byte.x03] 0.

Lemma write_read_roundtrip_witness :
  let w' := set_sock 4 (with_queue [(n_local sockA, b buf3)] sockB) net2 in
  let d' := firstn (Z.to_nat (packetSize (_rcvSize trB))) (b buf3) in
  write 1 buf3 0 (mkSt trA net2 []) =
    (mkSt trA w' ([] ++ sent_events trA (buf_size buf3)),
     Ok (true, mkBuffer (b buf3) (length (b buf3)))) /\
  snd (read 1 (mkBuffer [] 0) (-1) (mkSt trB w' [])) = Ok (true, mkBuffer d' (length d')) /\
  (buf_size buf3 <= packetSize (_rcvSize trB) -> d' = b buf3).
Proof.
  apply (write_read_roundtrip net2 3 4 sockA sockB trA trB [] [] buf3 0 0 0 (-1));
    try reflexivity; try discriminate; vm_compute; discriminate.
Defined.
End NetWitnesses.
