(* ===== verification/BufSize.v ===== *)
(** * [UdpTransceiver::setBufSize] (lines 576-644)

    For the receive buffer ([i = 0]) and then the send buffer ([i = 1]):
    read the OS default, store it, read the property [Ice.UDP.RcvSize] /
    [Ice.UDP.SndSize] (default: the OS default), replace a value below
    [_udpOverhead] by the default with a warning, and when the result
    differs from the default, set it, read back the size the kernel
    applied, store that, and warn if it is smaller than requested.

    [negotiated] is the abstract specification of the stored size;
    [setBufSize_iter_refines] shows that one iteration stores it and emits
    exactly the warnings of its branches. *)

From Stdlib Require Import String ZArith List Lia Bool.
From S2P Require Import Prelude Types Os Limits Write.
Import ListNotations.
Open Scope Z_scope.
Open Scope udp_scope.

(** The variables of the loop body selected by [i] (lines 587-602). *)
Definition bufsize_prop (dir : nat) : string :=
  if Nat.eqb dir 0 then "Ice.UDP.RcvSize"%string else "Ice.UDP.SndSize"%string.

Definition bufsize_direction (dir : nat) : string :=
  if Nat.eqb dir 0 then "receive"%string else "send"%string.

Section BufSize.
Context {W : Type} `{SocketApi W}.

Definition bufsize_get (dir : nat) (fd : Z) : W -> W * (ice_exn + Z) :=
  if Nat.eqb dir 0 then getRecvBufferSize fd else getSendBufferSize fd.

Definition bufsize_set (dir : nat) (fd n : Z) : W -> W * (ice_exn + unit) :=
  if Nat.eqb dir 0 then setRecvBufferSize fd n else setSendBufferSize fd n.

(** The body of [for(int i = 0; i < 2; ++i)] for [i = dir]. *)
Definition setBufSize_iter (inst : instance) (dir : nat) : M W unit :=
  t <- get_tr ;;
  dfltSize <- liftNet (bufsize_get dir (_fd t)) ;;
  modify_tr (set_bufsize dir dfltSize) ;;
  let requested := getPropertyAsIntWithDefault inst (bufsize_prop dir) dfltSize in
  sizeRequested <-
    (if requested <? _udpOverhead then
       emit (EWarning (WInvalidProperty (bufsize_prop dir) requested dfltSize)) ;;
       sret dfltSize
     else sret requested) ;;
  swhen (negb (sizeRequested =? dfltSize))
    (liftNet (bufsize_set dir (_fd t) sizeRequested) ;;
     applied <- liftNet (bufsize_get dir (_fd t)) ;;
     modify_tr (set_bufsize dir applied) ;;
     swhen (applied <? sizeRequested)
       (emit (EWarning (WBufferAdjusted (bufsize_direction dir) sizeRequested applied)))).

(** [void UdpTransceiver::setBufSize(const InstancePtr&)] *)
Definition setBufSize (inst : instance) : M W unit :=
  assert_fd ;;
  setBufSize_iter inst 0 ;;
  setBufSize_iter inst 1.
End BufSize.

(** ** Abstract specification

    The size stored for a direction, from the requested size (the
    property's value, or the OS default when it is not set), the OS
    default, and the size the kernel applies when asked to set the
    requested size. *)
Definition negotiated (requested dflt applied : Z) : Z :=
  if (requested <? 28) || (requested =? dflt) then dflt else applied.

(** The warnings of the same run. *)
Definition negotiation_warnings (dir : nat) (requested dflt applied : Z) : list event :=
  if requested <? 28 then [EWarning (WInvalidProperty (bufsize_prop dir) requested dflt)]
  else if requested =? dflt then []
  else if applied <? requested
       then [EWarning (WBufferAdjusted (bufsize_direction dir) requested applied)]
       else [].

Lemma set_bufsize_twice dir a c t :
  set_bufsize dir a (set_bufsize dir c t) = set_bufsize dir a t.
Proof. unfold set_bufsize. destruct (Nat.eqb dir 0); reflexivity. Qed.

Section BufSizeProperties.
Context {W : Type} `{SocketApi W}.

(** C15: One iteration of [setBufSize] refines [negotiated]: it stores
    the OS default when the requested size (the property, or the
    default when it is unset) is below [_udpOverhead] or equal to the
    default, and otherwise the size the kernel reports after setting
    the requested size; it emits exactly the warnings of
    [negotiation_warnings] and calls [set] only in the second case. *)
Theorem setBufSize_iter_refines inst dir (s : St W) w1 d w2 w3 a :
  let r := getPropertyAsIntWithDefault inst (bufsize_prop dir) d in
  bufsize_get dir (_fd (tr s)) (os s) = (w1, inr d) ->
  (((r <? 28) || (r =? d)) = false ->
   bufsize_set dir (_fd (tr s)) r w1 = (w2, inr tt) /\
   bufsize_get dir (_fd (tr s)) w2 = (w3, inr a)) ->
  setBufSize_iter inst dir s =
  (mkSt (set_bufsize dir (negotiated r d a) (tr s))
        (if (r <? 28) || (r =? d) then w1 else w3)
        (log s ++ negotiation_warnings dir r d a), Ok tt).
Proof.
  intros r Hget Hset.
  unfold setBufSize_iter, get_tr, sgets, sbind at 1.
  unfold sbind at 1, liftNet. rewrite Hget.
  unfold sbind at 1, modify_tr, smodify. cbn [tr os log]. fold r.
  unfold negotiated, negotiation_warnings, _udpOverhead in *.
  change (20 + 8) with 28.
  destruct (r <? 28) eqn:Hlow; cbn [orb] in *.
  - unfold sbind, emit, smodify, sret, swhen. cbn. rewrite ?Z.eqb_refl. reflexivity.
  - unfold sbind at 1, sret. destruct (r =? d) eqn:Hrd.
    + apply Z.eqb_eq in Hrd. rewrite Hrd. unfold swhen, sret. cbn.
      rewrite ?Z.eqb_refl, ?app_nil_r. reflexivity.
    + cbn [negb]. destruct (Hset eq_refl) as [Hs Hg].
      unfold swhen at 1, sbind at 1 2 3, liftNet, modify_tr, smodify.
      cbn [tr os log]. rewrite Hs. cbn [tr os log]. rewrite Hg. cbn [tr os log].
      rewrite emit_when_run. cbn [tr os log].
      rewrite set_bufsize_twice. reflexivity.
Qed.
End BufSizeProperties.

(** ** The stored size has no floor *)

Section NoFloor.
Context {W : Type} `{SocketApi W}.

(** Once the stored send size is below [_udpOverhead], the guard of
    [write] rejects every buffer that fits in an [int]. *)
Lemma write_small_sndsize f buf tmo (s : St W) :
  _sndSize (tr s) < 28 -> i buf = 0%nat -> buf_size buf < 2 ^ 31 ->
  snd (write f buf tmo s) = Throw (Thrown DatagramLimitException).
Proof.
  intros Hsnd Hi Hsz. rewrite write_run, Hi. cbn [Nat.eqb].
  pose proof (buf_size_nonneg buf) as Hnn.
  rewrite exceeds_small by (unfold INT_MAX; lia).
  replace (packetSize (_sndSize (tr s)) <? buf_size buf) with true; [reflexivity|].
  symmetry. apply Z.ltb_lt. unfold packetSize, _maxPacketSize, _udpOverhead. lia.
Qed.
End NoFloor.

Section NoFloorScript.
Import ScriptOS.

(** C26: Nothing bounds the negotiated send size from below: when no
    property is set and the OS reports a send buffer default [d] below
    [_udpOverhead], [setBufSize] returns and stores [d] unchanged, and
    then [write] throws [DatagramLimitException] for every buffer, the
    empty one included. *)
Theorem write_rejects_all_below_overhead inst t r d cs n lg f buf tmo :
  properties inst = [] -> _fd t <> INVALID_SOCKET -> d < 28 ->
  i buf = 0%nat -> buf_size buf < 2 ^ 31 ->
  let s1 := setBufSize inst (mkSt t (mkWorld [RInt r; RInt d] cs n) lg) in
  snd s1 = Ok tt /\ _sndSize (tr (fst s1)) = d /\
  snd (write f buf tmo (fst s1)) = Throw (Thrown DatagramLimitException).
Proof.
  intros Hp Hfd Hd Hi Hsz. cbv zeta.
  assert (Hs : snd (setBufSize inst (mkSt t (mkWorld [RInt r; RInt d] cs n) lg)) = Ok tt /\
               _sndSize (tr (fst (setBufSize inst (mkSt t (mkWorld [RInt r; RInt d] cs n) lg)))) = d).
  { unfold setBufSize, setBufSize_iter, getPropertyAsIntWithDefault.
    rewrite Hp. apply Z.eqb_neq in Hfd.
    unfold assert_fd, get_tr, sgets, sassert, sbind, sret, liftNet, modify_tr,
      smodify, emit, swhen. cbn. rewrite Hfd. cbn.
    assert (Hd' : (d <? 28) = true) by (apply Z.ltb_lt; exact Hd).
    destruct (r <? 28); cbn; rewrite ?Z.eqb_refl; cbn; rewrite Hd'; cbn;
      rewrite Z.eqb_refl; cbn; auto. }
  destruct Hs as [Hok Hsnd]. repeat split; [exact Hok|exact Hsnd|].
  apply write_small_sndsize; [rewrite Hsnd|..]; assumption.
Qed.
End NoFloorScript.

(** ** Witnesses *)

Section BufSizeWitnesses.
Import ScriptOS.

Definition inst_rcv (v : Z) : instance :=
  mkInstance 3 true [("Ice.UDP.RcvSize"%string, v)] 0 OtherUnix.

Definition bs_st : St world :=
  sample_st (sample_tr 3 65536 65536 false false) [RInt 65536; RInt 212992].

Lemma setBufSize_iter_refines_witness :
  let r := getPropertyAsIntWithDefault (inst_rcv 1000000) (bufsize_prop 0) 65536 in
  setBufSize_iter (inst_rcv 1000000) 0 bs_st =
  (mkSt (set_bufsize 0 (negotiated r 65536 212992) (tr bs_st))
        (if (r <? 28) || (r =? 65536)
         then mkWorld [RInt 212992] [CGetRecvBufferSize 3] 10
         else mkWorld [] [CGetRecvBufferSize 3; CSetRecvBufferSize 3 1000000;
                          CGetRecvBufferSize 3] 10)
        (log bs_st ++ negotiation_warnings 0 r 65536 212992), Ok tt).
Proof.
  apply (setBufSize_iter_refines (inst_rcv 1000000) 0 bs_st
           (mkWorld [RInt 212992] [CGetRecvBufferSize 3] 10) 65536
           (mkWorld [RInt 212992] [CGetRecvBufferSize 3; CSetRecvBufferSize 3 1000000] 10)).
  - vm_compute. reflexivity.
  - intros _. split; vm_compute; reflexivity.
Defined.

Lemma write_rejects_all_below_overhead_witness :
  let s1 := setBufSize (mkInstance 3 true [] 0 OtherUnix)
              (mkSt (sample_tr 3 0 0 false false) (mkWorld [RInt 65536; RInt 20] [] 10) []) in
  snd s1 = Ok tt /\ _sndSize (tr (fst s1)) = 20 /\
  snd (write 3 (mkBuffer [] 0) 0 (fst s1)) = Throw (Thrown DatagramLimitException).
Proof.
  apply (write_rejects_all_below_overhead (mkInstance 3 true [] 0 OtherUnix)
           (sample_tr 3 0 0 false false) 65536 20 [] 10 [] 3 (mkBuffer [] 0) 0);
    vm_compute; try reflexivity; discriminate.
Defined.

(** The OS default 20 of the send buffer, with no property, is what
    [setBufSize] stores (the run behind C26). *)
Example setBufSize_keeps_small_default :
  _sndSize (tr (fst (setBufSize (mkInstance 3 true [] 0 OtherUnix)
                       (sample_st (sample_tr 3 0 0 false false) [RInt 65536; RInt 20])))) = 20.
Proof. vm_compute. reflexivity. Qed.
End BufSizeWitnesses.

(** ** [setBufSize] changes nothing but the two sizes *)

Definition sizes_only (t t' : transceiver) : Prop :=
  t' = set_bufsize 1 (_sndSize t') (set_bufsize 0 (_rcvSize t') t).

Lemma sizes_only_refl t : sizes_only t t.
Proof. destruct t; reflexivity. Qed.

Lemma sizes_only_trans t1 t2 t3 : sizes_only t1 t2 -> sizes_only t2 t3 -> sizes_only t1 t3.
Proof. unfold sizes_only. intros -> ->. reflexivity. Qed.

Definition keeps_sizes {W A} (c : M W A) : Prop :=
  forall s, sizes_only (tr s) (tr (fst (c s))).

Section KeepsSizes.
Context {W : Type} `{SocketApi W}.

Lemma keeps_sizes_bind {A B} (c : M W A) (k : A -> M W B) :
  keeps_sizes c -> (forall a, keeps_sizes (k a)) -> keeps_sizes (sbind c k).
Proof.
  intros Hc Hk s. unfold sbind. specialize (Hc s).
  destruct (c s) as [s' o]; cbn in Hc.
  destruct o; cbn; try exact Hc. eapply sizes_only_trans; [exact Hc|apply Hk].
Qed.

Lemma keeps_sizes_of_tr {A} (c : M W A) : keeps_tr c -> keeps_sizes c.
Proof. intros Hk s. rewrite (Hk s). apply sizes_only_refl. Qed.

Lemma keeps_sizes_set dir n : keeps_sizes (W:=W) (modify_tr (set_bufsize dir n)).
Proof. intros [t w l]. destruct t, dir as [|[|d]]; reflexivity. Qed.

Lemma keeps_sizes_swhen (c : bool) (k : M W unit) : keeps_sizes k -> keeps_sizes (swhen c k).
Proof. intros Hk s. destruct c; [apply Hk|apply sizes_only_refl]. Qed.

Lemma setBufSize_iter_sizes inst dir : keeps_sizes (setBufSize_iter (W:=W) inst dir).
Proof.
  unfold setBufSize_iter.
  repeat (cbv beta; first [ apply keeps_sizes_bind; [|intros ?]
                          | apply keeps_sizes_swhen
                          | apply keeps_sizes_set
                          | match goal with |- keeps_sizes (if ?b then _ else _) => destruct b end
                          | apply keeps_sizes_of_tr; solve [solve_keeps] ]).
Qed.

Lemma setBufSize_sizes inst : keeps_sizes (setBufSize (W:=W) inst).
Proof.
  unfold setBufSize. apply keeps_sizes_bind; [apply keeps_sizes_of_tr; solve_keeps|intros _].
  apply keeps_sizes_bind; [apply setBufSize_iter_sizes|intros _]. apply setBufSize_iter_sizes.
Qed.
End KeepsSizes.
