(* ===== verification/Lifecycle.v ===== *)
(** * Life cycle: [fd], [close], [shutdownWrite], [shutdownReadWrite],
    the destructor, [type], [initialize], [effectivePort]

    [shutdownReadWrite] (lines 50-106) sets [_shutdownReadWrite] under its
    mutex and shuts the socket down; on the platforms of [wakeup_needed]
    it also saves the local address, disconnects a connected socket, and
    sends a one-byte datagram from a second socket to that address, so
    that a thread blocked in [read]'s wait returns and sees the flag.
    [close] (lines 31-43) releases the socket and marks [_fd] invalid;
    the destructor (lines 567-570) asserts that it was called.
    Both trace before they act, and the trace calls [toString]: the
    theorems assume a quiet trace, or show what a failing one does.

    Against the kernel [NetOS] of [Net.v], the wake-up code is run
    itself: the decoy reaches the socket and releases a blocked [poll].

    [lc_step] is the life cycle as a step relation over the operations a
    caller can issue; its theorems show that the shutdown flag and the
    closed descriptor are never undone. *)

From Stdlib Require Import String ZArith List Lia Bool.
From S2P Require Import Prelude Types Os Limits Write Read Net.
Import ListNotations.
Open Scope Z_scope.
Open Scope udp_scope.

(** [struct sockaddr_storage unspec] with [ss_family = AF_UNSPEC]. *)
Definition unspec_addr : sockaddr := mk_sockaddr AF_UNSPEC 0 0.

(** [SocketStatus] of [initialize]. *)
Inductive SocketStatus : Type := Finished | NeedConnect | NeedRead | NeedWrite.

Section Lifecycle.
Context {W : Type} `{SocketApi W}.

(** [SOCKET UdpTransceiver::fd()] *)
Definition fd : M W Z :=
  assert_fd ;;
  t <- get_tr ;;
  sret (_fd t).

(** [void UdpTransceiver::close()] *)
Definition close : M W unit :=
  trace 1 TrClosing ;;
  assert_fd ;;
  t <- get_tr ;;
  liftNet (closeSocket (_fd t)) ;;
  modify_tr (set_fd INVALID_SOCKET).

(** [void UdpTransceiver::shutdownWrite()]: nothing to do for UDP. *)
Definition shutdownWrite : M W unit := sret tt.

(** The wake-up of lines 72-101: save the local address, shut down,
    disconnect a connected socket, send one byte from a fresh socket. *)
Definition wakeup_reader : M W unit :=
  t <- get_tr ;;
  localAddr <- liftNet (fdToLocalAddress (_fd t)) ;;
  assert_fd ;;
  liftNet (shutdownSocketReadWrite (_fd t)) ;;
  swhen (negb (_connect t)) (_ <- liftSys (sys_connect (_fd t) unspec_addr) ;; sret tt) ;;
  dummy <- liftNet (createSocket true (ss_family localAddr)) ;;
  liftNet (setBlock dummy false) ;;
  liftNet (doConnect dummy localAddr (-1)) ;;
  _ <- liftSys (sys_send dummy [Byte.x00]) ;;
  liftNet (closeSocket dummy).

(** [void UdpTransceiver::shutdownReadWrite()]: the flag is set first,
    under [_shutdownReadWriteMutex], held to the end of the function. *)
Definition shutdownReadWrite : M W unit :=
  trace 2 TrShuttingDown ;;
  modify_tr (set_shutdownReadWrite true) ;;
  t <- get_tr ;;
  if wakeup_needed (_platform t) then wakeup_reader
  else
    assert_fd ;;
    liftNet (shutdownSocketReadWrite (_fd t)).

(** [UdpTransceiver::~UdpTransceiver()] *)
Definition destroy : M W unit :=
  t <- get_tr ;;
  sassert (_fd t =? INVALID_SOCKET).

(** [string UdpTransceiver::type() const] *)
Definition type : string := "udp".

(** [SocketStatus UdpTransceiver::initialize(int)] *)
Definition initialize (timeout : Z) : M W SocketStatus := sret Finished.

(** [int UdpTransceiver::effectivePort() const] *)
Definition effectivePort : M W Z :=
  t <- get_tr ;;
  sret (getPort (_addr t)).

End Lifecycle.

(** ** Lemmas *)

Section LifecycleLemmas.
Context {W : Type} `{SocketApi W}.

(** The rest of [close] after its trace line. *)
Lemma close_body_run (s : St W) :
  (assert_fd ;; t <- get_tr ;; liftNet (closeSocket (_fd t)) ;;
   modify_tr (set_fd INVALID_SOCKET)) s =
  if fd_valid s then
    let '(w', r) := closeSocket (_fd (tr s)) (os s) in
    match r with
    | inl e => (mkSt (tr s) w' (log s), Throw (Thrown e))
    | inr _ => (mkSt (set_fd INVALID_SOCKET (tr s)) w' (log s), Ok tt)
    end
  else (s, Abort).
Proof.
  unfold sbind at 1. rewrite assert_fd_run. destruct (fd_valid s); [|reflexivity].
  unfold get_tr, sgets, sbind, liftNet.
  destruct (closeSocket _ _) as [w' [e|u]]; reflexivity.
Qed.

(** [close] with a quiet trace. *)
Lemma close_run (s : St W) :
  trace_quiet (tr s) 1 = true ->
  close s =
  let lg := log s ++ trace_events (tr s) 1 TrClosing in
  if fd_valid s then
    let '(w', r) := closeSocket (_fd (tr s)) (os s) in
    match r with
    | inl e => (mkSt (tr s) w' lg, Throw (Thrown e))
    | inr _ => (mkSt (set_fd INVALID_SOCKET (tr s)) w' lg, Ok tt)
    end
  else (mkSt (tr s) (os s) lg, Abort).
Proof.
  intros Hq. unfold close, sbind at 1. rewrite trace_run by exact Hq.
  rewrite close_body_run. reflexivity.
Qed.

(** Whatever its trace does, [close] changes the transceiver at most by
    invalidating the descriptor, and a [close] that returns did so. *)
Lemma close_tr (s : St W) :
  (tr (fst (close s)) = tr s \/ tr (fst (close s)) = set_fd INVALID_SOCKET (tr s)) /\
  (snd (close s) = Ok tt -> tr (fst (close s)) = set_fd INVALID_SOCKET (tr s)).
Proof.
  destruct (close s) as [s' o] eqn:E. cbn [fst snd].
  unfold close, sbind at 1 in E. pose proof (keeps_tr_trace (W:=W) 1 TrClosing s) as Hk.
  destruct (trace 1 TrClosing s) as [s1 [[]| | |]]; cbn in Hk, E;
    [|injection E as <- <-; rewrite Hk; split; [now left|congruence]..].
  rewrite close_body_run in E. rewrite <- Hk.
  destruct (fd_valid s1); [|injection E as <- <-; split; [now left|congruence]].
  destruct (closeSocket _ _) as [w' [e|u]]; injection E as <- <-; cbn; split; auto; congruence.
Qed.

(** [close] on an invalid descriptor fails its assertion, or its trace
    aborts first. *)
Lemma close_invalid (s : St W) : fd_valid s = false -> snd (close s) = Abort.
Proof.
  intros Hv. assert (Hf : _fd (tr s) = INVALID_SOCKET)
    by (unfold fd_valid in Hv; apply negb_false_iff, Z.eqb_eq in Hv; exact Hv).
  unfold close, sbind at 1.
  destruct (trace_invalid_fd 1 TrClosing s Hf) as [E|E]; rewrite E; [|reflexivity].
  cbn beta iota. rewrite close_body_run. unfold fd_valid. cbn [tr]. rewrite Hf. reflexivity.
Qed.

Lemma wakeup_reader_keeps : keeps_tr (W:=W) wakeup_reader.
Proof. unfold wakeup_reader. solve_keeps. Qed.
#[local] Hint Resolve wakeup_reader_keeps : keeps.

(** The rest of [shutdownReadWrite] after its trace line keeps the
    members other than the flag. *)
Lemma shutdown_body_tr (s : St W) :
  tr (fst ((modify_tr (set_shutdownReadWrite true) ;;
    t <- get_tr ;;
    if wakeup_needed (_platform t) then wakeup_reader
    else assert_fd ;; liftNet (shutdownSocketReadWrite (_fd t))) s)) =
  set_shutdownReadWrite true (tr s).
Proof.
  unfold sbind at 1, modify_tr, smodify. cbn [tr os log].
  match goal with |- tr (fst (?c ?s1)) = _ =>
    assert (Hk : keeps_tr c) by solve_keeps; rewrite (Hk s1); reflexivity end.
Qed.

(** With a quiet trace, [shutdownReadWrite] changes the transceiver
    only by setting the flag, whatever the OS does. *)
Lemma shutdownReadWrite_tr (s : St W) :
  trace_quiet (tr s) 2 = true ->
  tr (fst (shutdownReadWrite s)) = set_shutdownReadWrite true (tr s).
Proof.
  intros Hq. unfold shutdownReadWrite, sbind at 1. rewrite trace_run by exact Hq.
  rewrite shutdown_body_tr. reflexivity.
Qed.

(** The trace line comes before the flag: when [toString] aborts or
    throws, [shutdownReadWrite] ends there and the flag stays as it was. *)
Lemma shutdownReadWrite_trace_fails (s : St W) :
  snd (trace 2 TrShuttingDown s) <> Ok tt ->
  shutdownReadWrite s = trace 2 TrShuttingDown s.
Proof.
  intros Hn. unfold shutdownReadWrite, sbind at 1.
  destruct (trace 2 TrShuttingDown s) as [s1 [[]| | |]]; cbn in Hn |- *;
    [contradiction|reflexivity..].
Qed.

Lemma shutdownReadWrite_tr_cases (s : St W) :
  tr (fst (shutdownReadWrite s)) = tr s \/
  tr (fst (shutdownReadWrite s)) = set_shutdownReadWrite true (tr s).
Proof.
  pose proof (keeps_tr_trace (W:=W) 2 TrShuttingDown s) as Hk.
  destruct (snd (trace 2 TrShuttingDown s)) as [[]| | |] eqn:Ho;
    [|left; rewrite shutdownReadWrite_trace_fails by (rewrite Ho; discriminate); exact Hk..].
  right. unfold shutdownReadWrite, sbind at 1.
  destruct (trace 2 TrShuttingDown s) as [s1 o]; cbn in Ho, Hk. subst o. cbv beta iota.
  rewrite shutdown_body_tr, Hk. reflexivity.
Qed.

Lemma shutdownReadWrite_wakeup (s : St W) :
  trace_quiet (tr s) 2 = true -> wakeup_needed (_platform (tr s)) = true ->
  shutdownReadWrite s =
  wakeup_reader (mkSt (set_shutdownReadWrite true (tr s)) (os s)
                  (log s ++ trace_events (tr s) 2 TrShuttingDown)).
Proof.
  intros Hq Hw. unfold shutdownReadWrite, sbind at 1. rewrite trace_run by exact Hq.
  unfold sbind at 1, modify_tr, smodify. cbn [tr os log].
  unfold sbind at 1, get_tr, sgets. cbn [tr].
  change (_platform (set_shutdownReadWrite true (tr s))) with (_platform (tr s)).
  rewrite Hw. reflexivity.
Qed.

Lemma read_recv_invalid ps (s : St W) :
  fd_valid s = false -> read_recv ps s = (s, Abort).
Proof.
  intros Hfd. destruct (_connect (tr s)) eqn:Hc;
    [rewrite read_recv_pending | rewrite read_recv_connected]; rewrite ?Hfd; auto.
Qed.
End LifecycleLemmas.

(** ** Properties *)

Section LifecycleProperties.
Context {W : Type} `{SocketApi W}.

(** C16: After a [close] that returns, the descriptor is invalid and
    every later operation that reaches the socket fails its assertion:
    [close], [fd], [write], and [read] while the shutdown flag is
    clear; the destructor's assertion holds. *)
Theorem close_then_io_rejected (s s' : St W) :
  close s = (s', Ok tt) ->
  fd_valid s' = false /\
  snd (close s') = Abort /\
  snd (fd s') = Abort /\
  snd (destroy s') = Ok tt /\
  (forall f buf tmo, i buf = 0%nat ->
     exceeds (packetSize (_sndSize (tr s'))) (buf_size buf) = false ->
     snd (write (S f) buf tmo s') = Abort) /\
  (forall f buf tmo, i buf = 0%nat -> _shutdownReadWrite (tr s') = false ->
     exceeds (packetSize (_rcvSize (tr s'))) (buf_size buf) = false ->
     snd (read (S f) buf tmo s') = Abort).
Proof.
  intros Hc. assert (Ht : tr s' = set_fd INVALID_SOCKET (tr s))
    by (pose proof (proj2 (close_tr s)) as Ht; rewrite Hc in Ht; exact (Ht eq_refl)).
  assert (Hinv : fd_valid s' = false) by (unfold fd_valid; rewrite Ht; reflexivity).
  split; [exact Hinv|].
  split; [apply close_invalid, Hinv|].
  split; [unfold fd, sbind; rewrite assert_fd_run, Hinv; reflexivity|].
  split; [unfold destroy, get_tr, sgets, sbind, sassert; cbn; rewrite Ht; reflexivity|].
  split.
  - intros f buf tmo Hi Hx. rewrite write_run, Hi, Hx, write_loop_repeat, Hinv. reflexivity.
  - intros f buf tmo Hi Hsd Hx.
    rewrite read_run, Hi, Hx, read_loop_repeat, Hsd, read_recv_invalid by exact Hinv.
    reflexivity.
Qed.

(** C17: When its trace line makes no system call (network tracing
    below 2, or [toString] local), [shutdownReadWrite] sets the shutdown
    flag whatever the OS does (the flag is set before any system call),
    and every later [read] then throws [ConnectionLostException] without
    touching the socket, also after [close]. *)
Theorem shutdown_then_read_connection_lost (s : St W) :
  trace_quiet (tr s) 2 = true ->
  let s' := fst (shutdownReadWrite s) in
  _shutdownReadWrite (tr s') = true /\
  forall f buf tmo, i buf = 0%nat ->
    exceeds (packetSize (_rcvSize (tr s'))) (buf_size buf) = false ->
    read (S f) buf tmo s' = (s', Throw (Thrown ConnectionLostException)).
Proof.
  intros Hq. cbv zeta. rewrite shutdownReadWrite_tr by exact Hq. split; [reflexivity|].
  intros f buf tmo Hi Hx.
  rewrite read_run, Hi, shutdownReadWrite_tr, Hx, read_loop_repeat, shutdownReadWrite_tr
    by exact Hq.
  reflexivity.
Qed.
End LifecycleProperties.

(** ** The wake-up datagram, against the scripted OS *)

Section WakeupScript.
Import ScriptOS.

(** C23: On the platforms that need it, [shutdownReadWrite] (with an OS
    that answers every call with success) shuts the socket down,
    disconnects it if it is connected, and sends a one-byte datagram
    (not an empty one) from a fresh non-blocking socket connected to the
    socket's own address, which it then closes (when its trace makes no
    system call). *)
Theorem shutdown_sends_decoy t cs n lg :
  wakeup_needed (_platform t) = true -> _fd t <> INVALID_SOCKET -> trace_quiet t 2 = true ->
  let r := shutdownReadWrite (mkSt t (mkWorld [] cs n) lg) in
  snd r = Ok tt /\
  calls (os (fst r)) =
    cs ++ [CLocalAddress (_fd t); CShutdown (_fd t)] ++
    (if _connect t then [] else [CConnect (_fd t) unspec_addr]) ++
    [CCreateSocket true (ss_family default_addr); CSetBlock n false;
     CDoConnect n default_addr; CSend n [Byte.x00]; CCloseSocket n].
Proof.
  intros Hw Hfd Hq. apply Z.eqb_neq in Hfd. cbv zeta.
  rewrite shutdownReadWrite_wakeup by first [exact Hq | exact Hw].
  destruct t as [tn st inc ad cn wn sd ms fd0 rc sn pl]; cbn in Hw, Hfd |- *.
  destruct fd0 as [|p|[q|q|]]; try discriminate Hfd;
    destruct cn; cbn; rewrite <- ?app_assoc; split; reflexivity.
Qed.

(** C28: When the decoy socket cannot be made non-blocking,
    [shutdownReadWrite] throws and the decoy socket it created is never
    closed: the last call is the failed [setBlock]. *)
Theorem shutdown_decoy_leak t cs n lg a e :
  wakeup_needed (_platform t) = true -> _fd t <> INVALID_SOCKET -> _connect t = true ->
  trace_quiet t 2 = true ->
  let r := shutdownReadWrite (mkSt t (mkWorld [RAddr a; ROk; ROk; RFail e] cs n) lg) in
  snd r = Throw (Thrown e) /\
  calls (os (fst r)) =
    cs ++ [CLocalAddress (_fd t); CShutdown (_fd t);
           CCreateSocket true (ss_family a); CSetBlock n false] /\
  next_fd (os (fst r)) = n + 1.
Proof.
  intros Hw Hfd Hc Hq. apply Z.eqb_neq in Hfd. cbv zeta.
  rewrite shutdownReadWrite_wakeup by first [exact Hq | exact Hw].
  destruct t as [tn st inc ad cn wn sd ms fd0 rc sn pl]; cbn in Hw, Hfd, Hc |- *.
  subst cn. destruct fd0 as [|p|[q|q|]]; try discriminate Hfd;
    cbn; rewrite <- ?app_assoc; (split; [reflexivity|split; reflexivity]).
Qed.
End WakeupScript.

(** ** The wake-up datagram, against the kernel *)

Section WakeupNet.
Import NetOS.

(** The address [createSocket] gives the decoy socket of [n]. *)
Definition decoy_addr (fam : family) (n : Z) : sockaddr := mk_sockaddr fam 0 (49152 + n).

(** One pass of the symbolic run, in [E], of [wakeup_reader] over
    [NetOS]. *)
Ltac net_step E Hs :=
  cbn -[assoc assoc_set assoc_del sock_at Z.add Z.eqb] in E;
  first [rewrite assoc_set_same in E | rewrite assoc_set_twice in E | progress rewrite Hs in E].

(** On the platforms of [wakeup_needed], when the socket is the one
    bound to its own address, the descriptor [createSocket] returns is
    fresh, and a transceiver still waiting for its first peer is not
    connected, [shutdownReadWrite] returns, having disconnected the
    socket and queued at it the decoy from the socket it created and
    closed. *)
Lemma shutdownReadWrite_net (t : transceiver) (w : nworld) lg k :
  wakeup_needed (_platform t) = true -> trace_quiet t 2 = true -> _fd t <> INVALID_SOCKET ->
  assoc (socks w) (_fd t) = Some k -> sock_at (socks w) (n_local k) = Some (_fd t) ->
  assoc (socks w) (n_next w) = None -> (_connect t = true -> n_peer k = None) ->
  exists w' lg',
    shutdownReadWrite (mkSt t w lg) = (mkSt (set_shutdownReadWrite true t) w' lg', Ok tt) /\
    assoc (socks w') (_fd t) =
      Some (mkNSock (n_local k) None
              (n_queue k ++ [(decoy_addr (ss_family (n_local k)) (n_next w), [Byte.x00])])).
Proof.
  intros Hw Hq Hv Hk Hat Hn Hc.
  assert (Hnf : n_next w <> _fd t) by (intros E; rewrite E, Hk in Hn; discriminate).
  assert (Hnf' : _fd t <> n_next w) by congruence.
  assert (Hd : forall (l : list (Z * nsock)) v, assoc (assoc_set l (_fd t) v) (n_next w) = assoc l (n_next w))
    by (intros; apply assoc_set_diff; exact Hnf').
  assert (Hd' : forall (l : list (Z * nsock)) v, assoc (assoc_set l (n_next w) v) (_fd t) = assoc l (_fd t))
    by (intros; apply assoc_set_diff; exact Hnf).
  unfold INVALID_SOCKET in Hv. apply Z.eqb_neq in Hv.
  rewrite shutdownReadWrite_wakeup by assumption.
  destruct (wakeup_reader _) as [s' o] eqn:E.
  unfold wakeup_reader, get_tr, sgets, sbind, liftNet, liftSys, assert_fd, sassert, swhen, sret,
    fd_valid in E.
  cbn -[assoc assoc_set assoc_del sock_at Z.add] in E.
  unfold on_sock, send_op, deliver, connect_op, create_op, INVALID_SOCKET, set_sock, with_peer,
    with_queue in E.
  set (k0 := mkNSock (n_local k) None (n_queue k)).
  assert (Hn0 : assoc (assoc_set (socks w) (_fd t) k0) (n_next w) = None)
    by (rewrite assoc_set_diff by exact Hnf'; exact Hn).
  assert (Hat0 : sock_at (assoc_set (socks w) (_fd t) k0) (n_local k) = Some (_fd t))
    by (rewrite (sock_at_set_local _ _ _ _ k Hk) by reflexivity; exact Hat).
  destruct (_connect t) eqn:Hct.
  - specialize (Hc eq_refl).
    pose proof (sock_at_set_fresh _ _ _ _ Hat Hn) as Hf.
    repeat first [net_step E Hk | net_step E Hv | net_step E Hc | net_step E Hd
                 | net_step E Hd' | net_step E Hn | net_step E Hf].
    injection E as <- <-. do 2 eexists. split; [reflexivity|].
    cbn. rewrite assoc_del_diff, assoc_set_same by exact Hnf.
    destruct k as [l p q]; cbn in Hc |- *; subst p. reflexivity.
  - pose proof (sock_at_set_fresh _ _ _ _ Hat0 Hn0) as Hf.
    repeat first [net_step E Hk | net_step E Hv | net_step E Hd | net_step E Hd'
                 | net_step E Hn0 | net_step E Hf].
    injection E as <- <-. do 2 eexists. split; [reflexivity|].
    cbn. rewrite assoc_del_diff, assoc_set_same by exact Hnf. reflexivity.
Qed.

(** C12: On the platforms of [wakeup_needed], against the kernel, a
    [read] blocked in its [poll] without timeout on an empty queue never
    returns; after [shutdownReadWrite] (which returns), the decoy
    datagram sent to the socket's own address is queued at the socket,
    so the same [poll] returns and the next flag check of [read] throws
    [ConnectionLostException]. *)
Theorem shutdown_wakes_blocked_read (t : transceiver) (w : nworld) lg k f buf tmo :
  wakeup_needed (_platform t) = true -> trace_quiet t 2 = true -> _fd t <> INVALID_SOCKET ->
  assoc (socks w) (_fd t) = Some k -> sock_at (socks w) (n_local k) = Some (_fd t) ->
  assoc (socks w) (n_next w) = None -> (_connect t = true -> n_peer k = None) ->
  let ps := packetSize (_rcvSize t) in
  let s' := fst (shutdownReadWrite (mkSt t w lg)) in
  (n_queue k = [] -> snd (read_loop f RRepeatSelect buf tmo ps (mkSt t w lg)) = OutOfFuel) /\
  snd (shutdownReadWrite (mkSt t w lg)) = Ok tt /\
  read_loop (S (S f)) RRepeatSelect buf tmo ps s' = (s', Throw (Thrown ConnectionLostException)).
Proof.
  intros Hw Hq Hv Hk Hat Hn Hc ps s'.
  split; [intros He; rewrite (net_wait_blocks _ _ _ _ t w lg k Hv Hk He); reflexivity|].
  destruct (shutdownReadWrite_net t w lg k Hw Hq Hv Hk Hat Hn Hc) as [w' [lg' [E Hk']]].
  subst s'. rewrite E. cbn [fst snd]. split; [reflexivity|].
  unfold INVALID_SOCKET in Hv. apply Z.eqb_neq in Hv.
  rewrite read_loop_select. unfold fd_valid, INVALID_SOCKET. cbn [tr os log _fd set_shutdownReadWrite].
  rewrite Hv. cbn [negb sys_wait net_api]. unfold wait_op. rewrite Hk'.
  destruct (n_queue k); cbn -[read_loop]; rewrite read_loop_repeat; reflexivity.
Qed.
End WakeupNet.

(** ** The life cycle as a step relation

    A caller drives the transceiver by [read], [write],
    [shutdownWrite], [shutdownReadWrite] and [close], in any order and
    from any thread (the flag is the only member another thread writes).
    [evolves t t'] says that [t'] differs from [t] at most by the three
    one-way transitions of the class: [_connect] cleared, the shutdown
    flag set, the descriptor invalidated. *)

Definition evolves (t t' : transceiver) : Prop :=
  _traceNetwork t' = _traceNetwork t /\ _stats t' = _stats t /\
  _incoming t' = _incoming t /\ _addr t' = _addr t /\ _warn t' = _warn t /\
  _mcastServer t' = _mcastServer t /\ _rcvSize t' = _rcvSize t /\
  _sndSize t' = _sndSize t /\ _platform t' = _platform t /\
  (_connect t' = _connect t \/ _connect t' = false) /\
  (_shutdownReadWrite t' = _shutdownReadWrite t \/ _shutdownReadWrite t' = true) /\
  (_fd t' = _fd t \/ _fd t' = INVALID_SOCKET).

Lemma evolves_refl t : evolves t t.
Proof. repeat split; auto. Qed.

Lemma evolves_trans t1 t2 t3 : evolves t1 t2 -> evolves t2 t3 -> evolves t1 t3.
Proof.
  unfold evolves. intros (?&?&?&?&?&?&?&?&?&Hc1&Hs1&Hf1) (?&?&?&?&?&?&?&?&?&Hc2&Hs2&Hf2).
  repeat split; try congruence.
  - destruct Hc2 as [-> | ->]; auto.
  - destruct Hs2 as [-> | ->]; auto.
  - destruct Hf2 as [-> | ->]; auto.
Qed.

#[export] Instance evolves_preorder : RelationClasses.PreOrder evolves.
Proof. split; [exact evolves_refl | exact evolves_trans]. Qed.

Section Steps.
Context {W : Type} `{SocketApi W}.

Inductive lc_step : St W -> St W -> Prop :=
| lc_read f buf tmo s : lc_step s (fst (read f buf tmo s))
| lc_write f buf tmo s : lc_step s (fst (write f buf tmo s))
| lc_shutdownWrite s : lc_step s (fst (shutdownWrite s))
| lc_shutdownReadWrite s : lc_step s (fst (shutdownReadWrite s))
| lc_close s : lc_step s (fst (close s)).

Lemma lc_step_evolves s s' : lc_step s s' -> evolves (tr s) (tr s').
Proof.
  destruct 1.
  - destruct (read_tr f buf tmo s) as [-> | ->]; [apply evolves_refl|].
    repeat split; auto.
  - rewrite write_preserves_transceiver. apply evolves_refl.
  - apply evolves_refl.
  - destruct (shutdownReadWrite_tr_cases s) as [-> | ->]; [apply evolves_refl|].
    repeat split; auto.
  - destruct (proj1 (close_tr s)) as [-> | ->]; [apply evolves_refl|]. repeat split; auto.
Qed.

(** C18: Along any sequence of operations the transceiver only evolves
    by the one-way transitions: once [_connect] is false, the shutdown
    flag set, or the descriptor invalid, they stay so, and the
    configuration members never change. *)
Theorem lifecycle_one_way s s' : star lc_step s s' -> evolves (tr s) (tr s').
Proof.
  apply (star_preserves lc_step (fun a b => evolves (tr a) (tr b))).
  - intros a. apply evolves_refl.
  - intros a b c. apply evolves_trans.
  - apply lc_step_evolves.
Qed.
End Steps.

(** ** Witnesses *)

Section LifecycleWitnesses.
Import ScriptOS.

Definition lc_st : St world := sample_st (sample_tr 3 100 65536 true false) [].
Definition lc_closed : St world := fst (close lc_st).

Lemma close_then_io_rejected_witness :
  close lc_st = (lc_closed, Ok tt) /\
  fd_valid lc_closed = false /\
  snd (close lc_closed) = Abort /\
  snd (fd lc_closed) = Abort /\
  snd (destroy lc_closed) = Ok tt /\
  (forall f buf tmo, i buf = 0%nat ->
     exceeds (packetSize (_sndSize (tr lc_closed))) (buf_size buf) = false ->
     snd (write (S f) buf tmo lc_closed) = Abort) /\
  (forall f buf tmo, i buf = 0%nat -> _shutdownReadWrite (tr lc_closed) = false ->
     exceeds (packetSize (_rcvSize (tr lc_closed))) (buf_size buf) = false ->
     snd (read (S f) buf tmo lc_closed) = Abort).
Proof.
  assert (Hc : close lc_st = (lc_closed, Ok tt)) by (vm_compute; reflexivity).
  split; [exact Hc|]. exact (close_then_io_rejected lc_st lc_closed Hc).
Defined.

Lemma shutdown_then_read_connection_lost_witness :
  let s' := fst (shutdownReadWrite lc_st) in
  read 3 empty_buf 0 s' = (s', Throw (Thrown ConnectionLostException)).
Proof.
  cbv zeta. apply (proj2 (shutdown_then_read_connection_lost lc_st eq_refl)); vm_compute; reflexivity.
Defined.

Definition apple_tr : transceiver :=
  mkTransceiver 3 true true default_addr false true false (Some false) 3 65536 65536 Apple.

Lemma shutdown_sends_decoy_witness :
  let r := shutdownReadWrite (mkSt apple_tr (mkWorld [] [] 10) []) in
  snd r = Ok tt /\
  calls (os (fst r)) =
    [] ++ [CLocalAddress 3; CShutdown 3] ++ [CConnect 3 unspec_addr] ++
    [CCreateSocket true (ss_family default_addr); CSetBlock 10 false;
     CDoConnect 10 default_addr; CSend 10 [Byte.x00]; CCloseSocket 10].
Proof.
  apply (shutdown_sends_decoy apple_tr [] 10 []); [reflexivity|discriminate|reflexivity].
Defined.

Definition apple_pending : transceiver := set_connect true apple_tr.

Lemma shutdown_decoy_leak_witness :
  let r := shutdownReadWrite
             (mkSt apple_pending (mkWorld [RAddr default_addr; ROk; ROk;
                                           RFail (SocketException (EOther 24))] [] 10) []) in
  snd r = Throw (Thrown (SocketException (EOther 24))) /\
  calls (os (fst r)) =
    [] ++ [CLocalAddress 3; CShutdown 3; CCreateSocket true (ss_family default_addr);
           CSetBlock 10 false] /\
  next_fd (os (fst r)) = 10 + 1.
Proof.
  apply (shutdown_decoy_leak apple_pending [] 10 [] default_addr);
    [reflexivity|discriminate|reflexivity|reflexivity].
Defined.

Lemma lifecycle_one_way_witness :
  evolves (tr lc_st) (tr (fst (close (fst (read 3 empty_buf 0 lc_st))))).
Proof.
  apply lifecycle_one_way.
  eapply star_step; [apply lc_read|].
  eapply star_step; [apply lc_close|]. apply star_refl.
Defined.
End LifecycleWitnesses.

Section WakeupNetWitness.
Import NetOS.

(** The Apple transceiver on descriptor 3, bound to 10.0.0.2:6000 and
    connected to 10.0.0.1:5000, in a kernel whose next descriptor is 4. *)
Definition apple_sock : nsock :=
  mkNSock (mk_sockaddr AF_INET 0x0a000002 6000) (Some (mk_sockaddr AF_INET 0x0a000001 5000)) [].
Definition apple_net : nworld := mkNWorld [(3, apple_sock)] 4.

Lemma shutdown_wakes_blocked_read_witness :
  let ps := packetSize (_rcvSize apple_tr) in
  let s' := fst (shutdownReadWrite (mkSt apple_tr apple_net [])) in
  (n_queue apple_sock = [] ->
   snd (read_loop 5 RRepeatSelect (mkBuffer [] 0) 100 ps (mkSt apple_tr apple_net [])) = OutOfFuel) /\
  snd (shutdownReadWrite (mkSt apple_tr apple_net [])) = Ok tt /\
  read_loop 7 RRepeatSelect (mkBuffer [] 0) 100 ps s' = (s', Throw (Thrown ConnectionLostException)).
Proof.
  apply (shutdown_wakes_blocked_read apple_tr apple_net [] apple_sock 5 (mkBuffer [] 0) 100);
    try reflexivity; try discriminate.
Defined.
End WakeupNetWitness.
