(* ===== verification/Construct.v ===== *)
(** * The two constructors of [UdpTransceiver]

    [ctor_connect] is the client constructor (lines 413-474): the members
    of the initializer list, then a non-blocking socket, [setBufSize], a
    [connect] to the target and, for a multicast target, the outgoing
    interface and TTL.  [ctor_bind] is the server constructor (lines
    476-565): the bind address, a non-blocking socket, [setBufSize], then
    for a multicast address [SO_REUSEADDR], a bind (to the wildcard
    address on Windows) and the group join, and otherwise [SO_REUSEADDR]
    (not on Windows) and a bind.  Both bodies are in
    [try { ... } catch(...) { _fd = INVALID_SOCKET; throw; }], which is
    [catch_invalidate].

    The members the initializer lists leave uninitialized start as
    [INVALID_SOCKET] ([_fd]), [0] ([_rcvSize], [_sndSize]), [None]
    ([_mcastServer]) and [unspec_addr] ([_addr] of the server
    constructor).  Every path that returns normally assigns [_fd], the
    sizes and [_addr]; only the multicast server path assigns
    [_mcastServer], which [toString] reads on every path. *)

From Stdlib Require Import String ZArith List Lia Bool.
From S2P Require Import Prelude Types Os Limits Write Read BufSize Lifecycle.
Import ListNotations.
Open Scope Z_scope.
Open Scope udp_scope.

(** [_addr.ss_family == AF_INET] *)
Definition family_is_inet (a : sockaddr) : bool :=
  match ss_family a with AF_INET => true | _ => false end.

(** The initializer lists of lines 415-422 and 478-484. *)
Definition init_members (inst : instance) (incoming : bool) (addr : sockaddr)
           (connect : bool) : transceiver :=
  mkTransceiver (traceNetwork inst) (statsPresent inst) incoming addr connect
    (0 <? getPropertyAsInt inst "Ice.Warn.Datagrams"%string) false None
    INVALID_SOCKET 0 0 (inst_platform inst).

Section Construct.
Context {W : Type} `{SocketApi W}.

(** [catch(...) { _fd = INVALID_SOCKET; throw; }] *)
Definition catch_invalidate {A} (c : M W A) : M W A :=
  fun s =>
    let '(s', o) := c s in
    match o with
    | Throw e => (mkSt (set_fd INVALID_SOCKET (tr s')) (os s') (log s'), Throw e)
    | _ => (s', o)
    end.

(** [UdpTransceiver(instance, addr, mcastInterface, mcastTtl)] *)
Definition ctor_connect (inst : instance) (addr : sockaddr) (mcastInterface : string)
           (mcastTtl : Z) : M W unit :=
  smodify (fun s => mkSt (init_members inst false addr true) (os s) (log s)) ;;
  catch_invalidate (
    fd <- liftNet (createSocket true (ss_family addr)) ;;
    modify_tr (set_fd fd) ;;
    setBufSize inst ;;
    liftNet (setBlock fd false) ;;
    liftNet (doConnect fd addr (-1)) ;;
    modify_tr (set_connect false) ;;
    swhen (addr_is_multicast addr)
      (swhen (0 <? Z.of_nat (String.length mcastInterface))
         (liftNet (setMcastInterface fd mcastInterface (family_is_inet addr))) ;;
       swhen (negb (mcastTtl =? -1))
         (liftNet (setMcastTtl fd mcastTtl (family_is_inet addr)))) ;;
    trace 1 TrStartSend).

(** [UdpTransceiver(instance, host, port, mcastInterface, connect)] *)
Definition ctor_bind (inst : instance) (host : string) (port : Z)
           (mcastInterface : string) (connect : bool) : M W unit :=
  smodify (fun s => mkSt (init_members inst true unspec_addr connect) (os s) (log s)) ;;
  catch_invalidate (
    addr <- liftNet (getAddressForServer host port (protocolSupport inst)) ;;
    modify_tr (set_addr addr) ;;
    fd <- liftNet (createSocket true (ss_family addr)) ;;
    modify_tr (set_fd fd) ;;
    setBufSize inst ;;
    liftNet (setBlock fd false) ;;
    trace_line 2 (TrAttemptBind addr) ;;
    (if addr_is_multicast addr then
       liftNet (setReuseAddress fd true) ;;
       (if is_win32 (inst_platform inst) then
          any <- liftNet (getAddressForServer ""%string (getPort addr) (protocolSupport inst)) ;;
          liftNet (doBind fd any)
        else liftNet (doBind fd addr)) ;;
       liftNet (setMcastGroup fd addr mcastInterface) ;;
       modify_tr (set_mcastServer true)
     else
       swhen (negb (is_win32 (inst_platform inst))) (liftNet (setReuseAddress fd true)) ;;
       liftNet (doBind fd addr)) ;;
    trace 1 TrStartReceive).
End Construct.

(** ** Lemmas *)

Section ConstructLemmas.
Context {W : Type} `{SocketApi W}.

Lemma catch_invalidate_throw {A} (c : M W A) s s' e :
  catch_invalidate c s = (s', Throw e) -> _fd (tr s') = INVALID_SOCKET.
Proof.
  unfold catch_invalidate. destruct (c s) as [s1 [a|e'| |]]; intros Hc; try discriminate.
  injection Hc as <- _. reflexivity.
Qed.

Lemma catch_invalidate_ok {A} (c : M W A) s s' a :
  catch_invalidate c s = (s', Ok a) -> c s = (s', Ok a).
Proof.
  unfold catch_invalidate. destruct (c s) as [s1 [a'|e'| |]]; intros Hc; congruence.
Qed.

Lemma modify_tr_inv f (s s' : St W) o : modify_tr f s = (s', o) -> tr s' = f (tr s).
Proof. unfold modify_tr, smodify. intros Hm. injection Hm as <- _. reflexivity. Qed.

Lemma smodify_inv f (s s' : St W) (o : outcome thrown unit) :
  smodify f s = (s', o) -> s' = f s.
Proof. unfold smodify. intros Hm. injection Hm as <- _. reflexivity. Qed.

Lemma setBufSize_inv inst (s s' : St W) o :
  setBufSize inst s = (s', o) -> sizes_only (tr s) (tr s').
Proof. intros Hs. pose proof (setBufSize_sizes inst s) as Hk. rewrite Hs in Hk. exact Hk. Qed.
End ConstructLemmas.

(** Turn each step [c s = (s', _)] of a run into what it does to [tr]. *)
Ltac step_tr :=
  repeat match goal with
  | H : smodify _ _ = (_, _) |- _ => apply smodify_inv in H; subst
  | H : modify_tr _ _ = (_, _) |- _ => apply modify_tr_inv in H
  | H : setBufSize _ _ = (_, _) |- _ => apply setBufSize_inv in H; unfold sizes_only in H
  | H : ?c ?s = (?s', _) |- _ =>
      let Hk := fresh "Hk" in
      assert (Hk : keeps_tr c) by solve_keeps;
      apply (keeps_tr_run c s s' _ Hk) in H; clear Hk
  end.

(** Rewrite the goal with the equations [tr s_k = ...] of [step_tr] until
    no intermediate state is left. *)
Ltac tr_chain :=
  do 40 (try (cbn [tr os log] in *;
              match goal with
              | H : tr ?x = _ |- context [tr ?x] => rewrite H; cbn
              end)).

Section ConstructProperties.
Context {W : Type} `{SocketApi W}.

(** C19: When either constructor throws, the object is left with
    [_fd == INVALID_SOCKET]. *)
Theorem ctor_failure_invalidates inst (s s' : St W) e :
  (forall addr intf ttl,
     ctor_connect inst addr intf ttl s = (s', Throw e) -> _fd (tr s') = INVALID_SOCKET) /\
  (forall host port intf connect,
     ctor_bind inst host port intf connect s = (s', Throw e) -> _fd (tr s') = INVALID_SOCKET).
Proof.
  split; [intros addr intf ttl Hc; unfold ctor_connect in Hc
         | intros host port intf connect Hc; unfold ctor_bind in Hc];
    unfold sbind at 1 in Hc; eapply catch_invalidate_throw; exact Hc.
Qed.

(** C20: A client constructor that returns leaves the transceiver
    connected ([_connect] false), outgoing, with the shutdown flag
    clear, the target address, the descriptor the OS created, and
    [_mcastServer] never assigned. *)
Theorem ctor_connect_result inst addr intf ttl (s s' : St W) :
  ctor_connect inst addr intf ttl s = (s', Ok tt) ->
  _connect (tr s') = false /\ _incoming (tr s') = false /\
  _shutdownReadWrite (tr s') = false /\ _addr (tr s') = addr /\
  _mcastServer (tr s') = None /\
  _warn (tr s') = (0 <? getPropertyAsInt inst "Ice.Warn.Datagrams"%string).
Proof.
  unfold ctor_connect. intros Hrun. ok_inv Hrun.
  apply catch_invalidate_ok in Hrun. ok_inv Hrun.
  step_tr. tr_chain. repeat split; reflexivity.
Qed.
End ConstructProperties.

Section ConstructBind.
Context {W : Type} `{SocketApi W}.

(** C21: A server constructor that returns keeps the [connect]
    argument in [_connect], marks the transceiver incoming with the
    flag clear, stores the address the resolver returned, and assigns
    [_mcastServer] (to true) only when that address is multicast. *)
Theorem ctor_bind_result inst host port intf connect (s s' : St W) :
  ctor_bind inst host port intf connect s = (s', Ok tt) ->
  exists addr w,
    getAddressForServer host port (protocolSupport inst) (os s) = (w, inr addr) /\
    _connect (tr s') = connect /\ _incoming (tr s') = true /\
    _shutdownReadWrite (tr s') = false /\ _addr (tr s') = addr /\
    _mcastServer (tr s') = (if addr_is_multicast addr then Some true else None).
Proof.
  unfold ctor_bind. intros Hrun. ok_inv Hrun.
  apply catch_invalidate_ok in Hrun. ok_inv Hrun.
  apply smodify_inv in Hstep. subst s0.
  apply liftNet_ok_inv in Hstep0 as (w & Hget & ->). exists a0, w. split; [exact Hget|].
  destruct (addr_is_multicast a0) eqn:Hm; ok_inv Hstep7; step_tr; tr_chain;
    repeat split; reflexivity.
Qed.

(** A constructor run that returned passed a trace at [level] that is on, taken
    before [_mcastServer] was assigned: that trace aborted. *)
Ltac trace_aborts level :=
  match goal with H : trace level _ ?x = (_, Ok _) |- _ =>
    rewrite trace_uninit in H; [discriminate H| |] end;
  step_tr; tr_chain; [reflexivity | apply Z.leb_le; lia].

(** C35: [toString], which every trace of the transceiver appends to
    its message, reads [_mcastServer], which neither constructor
    initializes: after a client constructor, or a server constructor
    on a unicast address, returns, [toString] reads an indeterminate
    [bool], which is undefined behaviour.  The constructors' own traces
    already do: with network tracing on, the client constructor never
    returns normally, and a server constructor that returns normally
    was given a multicast address. *)
Theorem toString_after_ctor_undefined inst :
  (forall addr intf ttl (s s' : St W),
     ctor_connect inst addr intf ttl s = (s', Ok tt) -> toString s' = (s', Abort)) /\
  (forall host port intf conn (s s' : St W),
     ctor_bind inst host port intf conn s = (s', Ok tt) ->
     addr_is_multicast (_addr (tr s')) = false -> toString s' = (s', Abort)) /\
  (forall addr intf ttl (s : St W), 1 <= traceNetwork inst ->
     snd (ctor_connect inst addr intf ttl s) <> Ok tt) /\
  (forall host port intf conn (s s' : St W), 1 <= traceNetwork inst ->
     ctor_bind inst host port intf conn s = (s', Ok tt) -> addr_is_multicast (_addr (tr s')) = true).
Proof.
  split; [|split; [|split]].
  3: intros addr intf ttl s Hlev Hok; destruct (ctor_connect inst addr intf ttl s) as [s' o] eqn:Hrun;
     cbn in Hok; subst o; unfold ctor_connect in Hrun; ok_inv Hrun;
     apply catch_invalidate_ok in Hrun; ok_inv Hrun; trace_aborts 1.
  3: intros host port intf conn s s' Hlev Hrun; unfold ctor_bind in Hrun; ok_inv Hrun;
     apply catch_invalidate_ok in Hrun; ok_inv Hrun; apply smodify_inv in Hstep; subst s0;
     destruct (addr_is_multicast a0) eqn:Hm; ok_inv Hstep7;
     [step_tr; tr_chain; exact Hm | trace_aborts 1].
  - intros addr intf ttl s s1. unfold ctor_connect. intros Hrun. apply toString_uninit.
    ok_inv Hrun. apply catch_invalidate_ok in Hrun. ok_inv Hrun. step_tr. tr_chain. reflexivity.
  - intros host port intf conn s s2. unfold ctor_bind. intros Hrun Hu. apply toString_uninit. revert Hu.
    ok_inv Hrun. apply catch_invalidate_ok in Hrun. ok_inv Hrun.
    apply smodify_inv in Hstep. subst s0.
    destruct (addr_is_multicast a0) eqn:Hm; ok_inv Hstep7; step_tr; tr_chain;
      rewrite ?Hm; [discriminate|reflexivity].
Qed.
End ConstructBind.

(** ** A failing constructor leaks its socket (scripted OS) *)

Section ConstructScript.
Import ScriptOS.

(** C29: When [setBlock] fails in the client constructor, the socket
    it created is never closed: the constructor throws, [_fd] is
    invalidated, and the last call is the failed [setBlock]; the
    destructor cannot close it either, since [_fd] no longer names it. *)
Theorem ctor_connect_leaks_socket inst addr intf ttl t0 cs n lg e :
  properties inst = [] -> n <> INVALID_SOCKET ->
  let r := ctor_connect inst addr intf ttl
             (mkSt t0 (mkWorld [ROk; RInt 65536; RInt 65536; RFail e] cs n) lg) in
  snd r = Throw (Thrown e) /\ _fd (tr (fst r)) = INVALID_SOCKET /\
  calls (os (fst r)) =
    cs ++ [CCreateSocket true (ss_family addr); CGetRecvBufferSize n;
           CGetSendBufferSize n; CSetBlock n false] /\
  next_fd (os (fst r)) = n + 1.
Proof.
  intros Hp Hn. apply Z.eqb_neq in Hn. cbv zeta.
  destruct inst as [tn sp props ps pl]; cbn in Hp; subst props.
  destruct n as [|p|[q|q|]]; try discriminate Hn; cbn; rewrite <- ?app_assoc;
    (split; [reflexivity|split; [reflexivity|split; reflexivity]]).
Qed.
End ConstructScript.

(** ** Witnesses *)

Section ConstructWitnesses.
Import ScriptOS.

Definition inst0 : instance := mkInstance 0 true [] 0 OtherUnix.
(** The same instance with network tracing at level 2. *)
Definition inst2 : instance := mkInstance 2 true [] 0 OtherUnix.
(** 239.255.0.1:10000 *)
Definition mcast_addr : sockaddr := mk_sockaddr AF_INET 0xEFFF0001 10000.
Definition blank_st (rs : list reply) : St world :=
  sample_st (sample_tr INVALID_SOCKET 0 0 false false) rs.

Definition failed_ctor : St world :=
  fst (ctor_connect inst0 mcast_addr ""%string (-1)
         (blank_st [RFail (SocketException (EOther 24))])).

Lemma ctor_failure_invalidates_witness :
  _fd (tr failed_ctor) = INVALID_SOCKET.
Proof.
  apply (proj1 (ctor_failure_invalidates inst0 (blank_st [RFail (SocketException (EOther 24))])
                  failed_ctor (Thrown (SocketException (EOther 24))))
           mcast_addr ""%string (-1)).
  vm_compute. reflexivity.
Defined.

Definition client_ctor : St world :=
  fst (ctor_connect inst0 mcast_addr "eth0"%string 5 (blank_st [])).

Lemma ctor_connect_result_witness :
  _connect (tr client_ctor) = false /\ _incoming (tr client_ctor) = false /\
  _shutdownReadWrite (tr client_ctor) = false /\ _addr (tr client_ctor) = mcast_addr /\
  _mcastServer (tr client_ctor) = None /\
  _warn (tr client_ctor) = (0 <? getPropertyAsInt inst0 "Ice.Warn.Datagrams"%string).
Proof.
  apply (ctor_connect_result inst0 mcast_addr "eth0"%string 5 (blank_st [])).
  vm_compute. reflexivity.
Defined.

Definition server_ctor : St world :=
  fst (ctor_bind inst0 "239.255.0.1"%string 10000 ""%string true (blank_st [RAddr mcast_addr])).

Lemma ctor_bind_result_witness :
  exists addr w,
    getAddressForServer "239.255.0.1"%string 10000 (protocolSupport inst0)
      (os (blank_st [RAddr mcast_addr])) = (w, inr addr) /\
    _connect (tr server_ctor) = true /\ _incoming (tr server_ctor) = true /\
    _shutdownReadWrite (tr server_ctor) = false /\ _addr (tr server_ctor) = addr /\
    _mcastServer (tr server_ctor) = (if addr_is_multicast addr then Some true else None).
Proof.
  apply (ctor_bind_result inst0 "239.255.0.1"%string 10000 ""%string true
           (blank_st [RAddr mcast_addr])).
  vm_compute. reflexivity.
Defined.

Lemma ctor_connect_leaks_socket_witness :
  let r := ctor_connect inst0 mcast_addr ""%string (-1)
             (mkSt (sample_tr 3 0 0 false false)
                (mkWorld [ROk; RInt 65536; RInt 65536; RFail (SocketException (EOther 9))] [] 10) []) in
  snd r = Throw (Thrown (SocketException (EOther 9))) /\ _fd (tr (fst r)) = INVALID_SOCKET /\
  calls (os (fst r)) =
    [] ++ [CCreateSocket true (ss_family mcast_addr); CGetRecvBufferSize 10;
           CGetSendBufferSize 10; CSetBlock 10 false] /\
  next_fd (os (fst r)) = 10 + 1.
Proof. apply ctor_connect_leaks_socket; [reflexivity|discriminate]. Defined.
Definition unicast_addr : sockaddr := mk_sockaddr AF_INET 0x7f000001 10000.
Definition uni_server : St world :=
  fst (ctor_bind inst0 "127.0.0.1"%string 10000 ""%string true (blank_st [RAddr unicast_addr])).

Lemma toString_after_ctor_undefined_witness :
  toString client_ctor = (client_ctor, Abort) /\ toString uni_server = (uni_server, Abort) /\
  snd (ctor_connect inst2 mcast_addr "eth0"%string 5 (blank_st [])) <> Ok tt /\
  addr_is_multicast
    (_addr (tr (fst (ctor_bind inst2 "239.255.0.1"%string 10000 ""%string true
                       (blank_st [RAddr mcast_addr]))))) = true.
Proof.
  split; [|split; [|split]].
  3: apply (proj1 (proj2 (proj2 (toString_after_ctor_undefined inst2))) mcast_addr "eth0"%string 5
              (blank_st [])); cbn; lia.
  3: apply (proj2 (proj2 (proj2 (toString_after_ctor_undefined inst2))) "239.255.0.1"%string 10000
              ""%string true (blank_st [RAddr mcast_addr])); [cbn; lia | vm_compute; reflexivity].
  - apply (proj1 (toString_after_ctor_undefined inst0) mcast_addr "eth0"%string 5 (blank_st [])).
    vm_compute. reflexivity.
  - apply (proj1 (proj2 (toString_after_ctor_undefined inst0)) "127.0.0.1"%string 10000 ""%string true
             (blank_st [RAddr unicast_addr])); vm_compute; reflexivity.
Defined.
End ConstructWitnesses.
