(* ===== verification/Concurrent.v ===== *)
(** * A reader thread interleaved with [shutdownReadWrite]

    The transport is used thread-per-connection: one thread loops in
    [read] (lines 215-364) with a non-zero timeout while another calls
    [shutdownReadWrite] (lines 50-106) to stop it.  The two share
    [_shutdownReadWrite], guarded by [_shutdownReadWriteMutex]: [read]
    takes the mutex only around its test of the flag (lines 243-251),
    [shutdownReadWrite] takes it before setting the flag and holds it to
    the end of the function, through every system call it makes.

    The system is the state [cstate]: the reader's label, the shutdown
    thread's label, the flag, the mutex, [_connect], the kernel's view
    of the socket ([ksock]: the queue of received datagrams, the peer it
    is connected to, and whether it was shut down for reading) and the
    datagrams still on their way to it.  Each thread's next atomic step
    is a function ([reader_step], [shutdown_step], [deliver_step]), so
    that a schedule runs by evaluation ([run]); [cstep] is their union,
    the interleaving.  The exceptions [shutdownReadWrite] can throw are
    steps of their own ([shutdown_fail]): its trace's [toString] before
    it takes the mutex (lines 53-57, when [c_trace_throws] says the
    trace is on and [toString] calls [fdToRemoteAddress]), and, with the
    mutex held, [fdToLocalAddress] and [shutdownSocketReadWrite] before
    the shut (lines 76-79, 101-104) or [createSocket], [setBlock],
    [doConnect] before the decoy is sent (lines 97-99); the scoped
    [Lock] releases the mutex on the way out.

    The kernel behaviour the code relies on is modelled from the comments
    of [shutdownReadWrite]: a connected UDP socket accepts datagrams only
    from its peer ([accepts]), and shutting the socket down wakes a thread
    blocked in [poll] except on the platforms of [wakeup_needed]
    ([shut_wakes]). *)

From stdpp Require Import base relations list.
From Stdlib Require Import ZArith Lia.
From S2P Require Import Types.
Local Open Scope nat_scope.

(** ** Data *)

#[export] Instance family_eq_dec : EqDecision family.
Proof. solve_decision. Defined.

#[export] Instance sockaddr_eq_dec : EqDecision sockaddr.
Proof. solve_decision. Defined.

(** A datagram with the address of its sender. *)
Definition datagram : Type := sockaddr * list Byte.byte.

(** The kernel's socket: received datagrams not read yet, the peer of a
    connected socket, and [shutdown(SHUT_RDWR)] having been called. *)
Record ksock : Type := mkSock {
  queue : list datagram;
  peer : option sockaddr;
  rd_shut : bool
}.

(** How a [read] call of the reader thread ended when it does not
    return a datagram: [ConnectionLostException] from the flag check, or
    [false] (not ready) with timeout 0. *)
Inductive rresult : Type := RLost | RNotReady.

(** The reader's position in [read]: the flag check at [repeat:], the
    [recv]/[recvfrom] call, the [doConnect] after a first datagram, the
    [poll] at [repeatSelect:], and the end of the thread. *)
Inductive rpc : Type :=
| RRepeat
| RRecv
| RConnect (d : datagram)
| RSelect
| RDone (r : rresult).

(** The shutdown thread's position in [shutdownReadWrite]: before the
    lock, before [_shutdownReadWrite = true], before
    [shutdownSocketReadWrite], before the disconnect, before the decoy
    datagram, before the mutex is released at the closing brace, and
    returned; or left by an exception: thrown by the trace before the
    lock ([SThrowTrace]), before the socket was shut down
    ([SThrowShut]), or before the decoy was sent ([SThrowDecoy]). *)
Inductive spc : Type :=
| SCall | SFlag | SShut | SDisconnect | SDecoy | SUnlock | SRet
| SThrowTrace | SThrowShut | SThrowDecoy.

(** The fixed parameters: the platform, the timeout passed to [read],
    the address of the socket [createSocket] gives the decoy, and
    whether the trace of [shutdownReadWrite] can throw: with network
    tracing at level 2 on a multicast server, its [toString()] calls
    [fdToRemoteAddress], which throws when [getpeername] fails. *)
Record config : Type := mkConfig {
  c_platform : platform;
  c_timeout : Z;
  decoy_src : sockaddr;
  c_trace_throws : bool
}.

Record cstate : Type := mkC {
  reader : rpc;
  shutter : spc;
  flag : bool;
  locked : bool;
  connect : bool;
  sock : ksock;
  net : list datagram;
  got : list datagram
}.

Definition set_reader (r : rpc) (s : cstate) : cstate :=
  mkC r (shutter s) (flag s) (locked s) (connect s) (sock s) (net s) (got s).
Definition set_shutter (p : spc) (s : cstate) : cstate :=
  mkC (reader s) p (flag s) (locked s) (connect s) (sock s) (net s) (got s).
Definition set_sock (k : ksock) (s : cstate) : cstate :=
  mkC (reader s) (shutter s) (flag s) (locked s) (connect s) k (net s) (got s).

Definition set_queue (q : list datagram) (k : ksock) : ksock := mkSock q (peer k) (rd_shut k).
Definition set_peer (p : option sockaddr) (k : ksock) : ksock := mkSock (queue k) p (rd_shut k).

(** ** The kernel *)

(** A connected UDP socket "can only receive packets from its associated
    peer" (line 82). *)
Definition accepts (p : option sockaddr) (src : sockaddr) : bool :=
  match p with None => true | Some a => bool_decide (a = src) end.

(** [shutdownSocketReadWrite] wakes a thread blocked in [poll] where the
    code does not send the decoy (the comment at line 68). *)
Definition shut_wakes (p : platform) : bool := negb (wakeup_needed p).

(** The 1-byte datagram [::send(fd, "", 1, 0)] sends: the string's NUL. *)
Definition decoy (c : config) : datagram := (decoy_src c, [Byte.x00]).

(** ** The threads *)

(** One step of the reader.  It loops over [read] calls: a datagram
    returned by [read] is appended to [got] and the thread calls [read]
    again; it stops at an exception or a "not ready" result. *)
Definition reader_step (c : config) (s : cstate) : option cstate :=
  match reader s with
  | RRepeat =>
      (* { Mutex::Lock sync(...); if(_shutdownReadWrite) throw ...; } *)
      if locked s then None
      else if flag s then Some (set_reader (RDone RLost) s)
      else Some (set_reader RRecv s)
  | RRecv =>
      match queue (sock s) with
      | d :: q =>
          if connect s
          then Some (set_reader (RConnect d) (set_sock (set_queue q (sock s)) s))
          else Some (mkC RRepeat (shutter s) (flag s) (locked s) (connect s)
                         (set_queue q (sock s)) (net s) (got s ++ [d]))
      | [] =>
          (* wouldBlock() *)
          if Z.eqb (c_timeout c) 0%Z then Some (set_reader (RDone RNotReady) s)
          else Some (set_reader RSelect s)
      end
  | RConnect d =>
      (* doConnect(_fd, peerAddr, -1); _connect = false; return true *)
      Some (mkC RRepeat (shutter s) (flag s) (locked s) false
                (set_peer (Some d.1) (sock s)) (net s) (got s ++ [d]))
  | RSelect =>
      (* ::poll(fdSet, 1, -1) returns when the socket is readable *)
      if bool_decide (queue (sock s) <> []) || (rd_shut (sock s) && shut_wakes (c_platform c))
      then Some (set_reader RRepeat s)
      else None
  | RDone _ => None
  end.

(** One step of [shutdownReadWrite]. *)
Definition shutdown_step (c : config) (s : cstate) : option cstate :=
  match shutter s with
  | SCall =>
      (* IceUtil::Mutex::Lock sync(_shutdownReadWriteMutex); *)
      if locked s then None
      else Some (mkC (reader s) SFlag (flag s) true (connect s) (sock s) (net s) (got s))
  | SFlag =>
      (* _shutdownReadWrite = true; *)
      Some (mkC (reader s) SShut true (locked s) (connect s) (sock s) (net s) (got s))
  | SShut =>
      (* shutdownSocketReadWrite(_fd); *)
      Some (set_shutter (if wakeup_needed (c_platform c) then SDisconnect else SUnlock)
              (set_sock (mkSock (queue (sock s)) (peer (sock s)) true) s))
  | SDisconnect =>
      (* if(!_connect) ::connect(_fd, &unspec, ...); *)
      Some (set_shutter SDecoy
              (set_sock (set_peer (if connect s then peer (sock s) else None) (sock s)) s))
  | SDecoy =>
      (* createSocket; setBlock; doConnect(fd, localAddr); ::send(fd, "", 1, 0); closeSocket *)
      let k := sock s in
      Some (set_shutter SUnlock
              (set_sock (set_queue (if accepts (peer k) (decoy_src c)
                                    then queue k ++ [decoy c] else queue k) k) s))
  | SUnlock =>
      Some (mkC (reader s) SRet (flag s) false (connect s) (sock s) (net s) (got s))
  | SRet | SThrowTrace | SThrowShut | SThrowDecoy => None
  end.

(** The exceptions that end [shutdownReadWrite] early; the scoped
    [IceUtil::Mutex::Lock] releases the mutex as the exception leaves
    the function.  The trace (lines 53-57) throws before the lock; in
    the step before the shutdown, [fdToLocalAddress] (line 76) or
    [shutdownSocketReadWrite] (lines 79, 104) throws before the socket
    is shut down; in the decoy step, [createSocket], [setBlock] or
    [doConnect] (lines 97-99) throws before the datagram is sent.  The
    raw [::connect] and [::send] report errors by their results, which
    the code ignores; a [closeSocket] (line 101) that throws after the
    send leaves the reader as a normal return does. *)
Definition shutdown_fail (c : config) (s : cstate) : option cstate :=
  match shutter s with
  | SCall => if c_trace_throws c then Some (set_shutter SThrowTrace s) else None
  | SShut => Some (mkC (reader s) SThrowShut (flag s) false (connect s) (sock s) (net s) (got s))
  | SDecoy => Some (mkC (reader s) SThrowDecoy (flag s) false (connect s) (sock s) (net s) (got s))
  | _ => None
  end.

(** The kernel receives the next datagram in flight, or drops it. *)
Definition deliver_step (s : cstate) : option cstate :=
  match net s with
  | d :: n =>
      let k := sock s in
      Some (mkC (reader s) (shutter s) (flag s) (locked s) (connect s)
                (set_queue (if accepts (peer k) d.1 then queue k ++ [d] else queue k) k)
                n (got s))
  | [] => None
  end.

(** The interleaving: a step of either thread or of the kernel; the
    shutdown thread steps normally or throws. *)
Inductive cstep (c : config) : cstate -> cstate -> Prop :=
| step_reader s s' : reader_step c s = Some s' -> cstep c s s'
| step_shutdown s s' : shutdown_step c s = Some s' -> cstep c s s'
| step_fail s s' : shutdown_fail c s = Some s' -> cstep c s s'
| step_deliver s s' : deliver_step s = Some s' -> cstep c s s'.

(** A schedule: which thread moves next, and how. *)
Inductive actor : Type := AReader | AShutdown | AShutdownThrows | AKernel.

Definition step_of (c : config) (a : actor) (s : cstate) : option cstate :=
  match a with
  | AReader => reader_step c s
  | AShutdown => shutdown_step c s
  | AShutdownThrows => shutdown_fail c s
  | AKernel => deliver_step s
  end.

Fixpoint run (c : config) (sched : list actor) (s : cstate) : option cstate :=
  match sched with
  | [] => Some s
  | a :: sched' => s' ← step_of c a s; run c sched' s'
  end.

(** The start: both threads at the beginning, flag clear, mutex free. *)
Definition initial (conn : bool) (p : option sockaddr) (q n : list datagram) : cstate :=
  mkC RRepeat SCall false false conn (mkSock q p false) n [].

(** ** The invariant of the interleaving *)

(** The shutdown thread holds the mutex. *)
Definition in_crit (p : spc) : bool :=
  match p with SFlag | SShut | SDisconnect | SDecoy | SUnlock => true | _ => false end.

(** [_shutdownReadWrite = true] has run. *)
Definition flag_set (p : spc) : bool :=
  match p with SCall | SFlag | SThrowTrace => false | _ => true end.

(** [shutdownSocketReadWrite] has run. *)
Definition shut_done (p : spc) : bool :=
  match p with SCall | SFlag | SShut | SThrowTrace | SThrowShut => false | _ => true end.

(** The decoy datagram has been sent. *)
Definition decoy_sent (p : spc) : bool :=
  match p with SUnlock | SRet => true | _ => false end.

(** The reader is past its flag check and before a datagram: in [recv]
    or in [poll]. *)
Definition waiting (r : rpc) : bool :=
  match r with RRecv | RSelect => true | _ => false end.

Record inv (c : config) (s : cstate) : Prop := {
  inv_lock : locked s = in_crit (shutter s);
  inv_flag : flag s = flag_set (shutter s);
  inv_shut : rd_shut (sock s) = shut_done (shutter s);
  inv_connect : connect s = true -> peer (sock s) = None;
  inv_disconnected : shutter s = SDecoy -> waiting (reader s) = true -> peer (sock s) = None;
  inv_decoy : wakeup_needed (c_platform c) = true -> decoy_sent (shutter s) = true ->
              waiting (reader s) = true -> queue (sock s) <> []
}.

(** ** Termination of every interleaving *)

(** What is left of the reader's work: a [read] woken by a datagram or
    by the flag needs fewer steps than one that will block again. *)
Definition rpot (s : cstate) : nat :=
  match reader s with
  | RDone _ => 0
  | RConnect _ => 7
  | RSelect => 4
  | RRecv => match queue (sock s) with [] => 5 | _ => 2 end
  | RRepeat => if flag s then 3 else match queue (sock s) with [] => 6 | _ => 3 end
  end.

Definition spot (p : spc) : nat :=
  match p with
  | SCall => 6 | SFlag => 5 | SShut => 4 | SDisconnect => 3 | SDecoy => 2 | SUnlock => 1
  | SRet | SThrowTrace | SThrowShut | SThrowDecoy => 0
  end.

(** Each datagram in the queue costs the reader at most a [recv] and a
    flag check; each one in flight, its delivery and then that. *)
Definition measure (s : cstate) : nat :=
  rpot s + 10 * length (queue (sock s)) + 20 * length (net s) + 20 * spot (shutter s).

(** From [s], some interleaving ends with [shutdownReadWrite] left at
    [p] and the reader blocked in [poll] for ever. *)
Definition blocked_end (c : config) (s : cstate) (p : spc) : Prop :=
  exists s', rtc (cstep c) s s' /\ nf (cstep c) s' /\ shutter s' = p /\ reader s' = RSelect.

(** ** Datagrams the reader can still return once the flag is set *)

(** A [read] past its flag check and before a datagram can return one
    more datagram; the flag check fails every later call. *)
Definition budget (s : cstate) : nat :=
  match reader s with RRecv | RConnect _ => 1 | _ => 0 end.

(** ** Lemmas *)

Ltac destruct_cstate s :=
  let r := fresh "r" in let p := fresh "p" in let f := fresh "f" in
  let l := fresh "l" in let cn := fresh "cn" in let q := fresh "q" in
  let pr := fresh "pr" in let rs := fresh "rs" in let n := fresh "n" in
  let g := fresh "g" in
  destruct s as [r p f l cn [q pr rs] n g].

(** Split a step into the branches of the step functions, on a state
    whose fields are variables. *)
Ltac cstep_cases Hs :=
  let s := fresh "s" in let s' := fresh "s'" in let H := fresh "H" in
  destruct Hs as [s s' H|s s' H|s s' H|s s' H]; destruct_cstate s;
  unfold reader_step, shutdown_step, shutdown_fail, deliver_step in H; cbn in *;
  repeat case_match; simplify_eq.

Lemma inv_initial c conn p q n :
  (conn = true -> p = None) -> inv c (initial conn p q n).
Proof. intros Hp. split; cbn; done. Qed.

Lemma cstep_inv c s s' : inv c s -> cstep c s s' -> inv c s'.
Proof.
  intros [I1 I2 I3 I4 I5 I6] Hs. cstep_cases Hs; split; cbn in *; subst;
    try solve [done | congruence | auto using Prelude.snoc_ne].
  all: intros; try destruct p; cbn in *; try congruence.
  rewrite I5 in * by done. discriminate.
Qed.

Lemma rtc_inv c s s' : inv c s -> rtc (cstep c) s s' -> inv c s'.
Proof. intros Hi Hr. induction Hr; eauto using cstep_inv. Qed.

Lemma run_rtc c sched s s' : run c sched s = Some s' -> rtc (cstep c) s s'.
Proof.
  revert s. induction sched as [|a sched IH]; intros s H; cbn in H; [by simplify_eq|].
  destruct (step_of c a s) as [s1|] eqn:E; [|done]. cbn in H.
  eapply rtc_l; [|exact (IH _ H)].
  destruct a; [apply step_reader|apply step_shutdown|apply step_fail|apply step_deliver]; exact E.
Qed.

Lemma cstep_measure c s s' : inv c s -> cstep c s s' -> measure s' < measure s.
Proof.
  intros [I1 I2 I3 I4 I5 I6] Hs. cstep_cases Hs; unfold measure, rpot;
    cbn [reader shutter flag sock net queue set_queue set_peer set_reader set_shutter
         set_sock spot] in *;
    rewrite ?length_app; cbn [length]; repeat case_match; simplify_eq; try lia.
  all: destruct p; cbn in *; congruence.
Qed.

Lemma inv_sn c s : inv c s -> sn (cstep c) s.
Proof.
  remember (measure s) as m eqn:Hm. revert s Hm.
  induction m as [m IH] using lt_wf_ind. intros s -> Hi.
  constructor. intros s' Hs.
  eapply IH; [eapply cstep_measure; eauto| reflexivity | eapply cstep_inv; eauto].
Qed.

(** No interleaving is stuck before every datagram is delivered and
    [shutdownReadWrite] has returned or thrown, and none is stuck after
    it returned before the reader is done. *)
Lemma inv_progress c s :
  inv c s -> nf (cstep c) s ->
  net s = [] /\
  (shutter s = SRet \/ shutter s = SThrowTrace \/ shutter s = SThrowShut \/
   shutter s = SThrowDecoy) /\
  (shutter s = SRet -> exists r, reader s = RDone r).
Proof.
  intros [I1 I2 I3 I4 I5 I6] Hnf. destruct_cstate s; cbn in *.
  subst l f rs.
  destruct n as [|d n]; [|exfalso; apply Hnf; eexists; apply step_deliver; reflexivity].
  destruct p; try (exfalso; apply Hnf; eexists; apply step_shutdown; reflexivity);
    (split; [done|split; [auto|]]); [intros _|discriminate..].
  destruct r; eauto; exfalso; apply Hnf;
    destruct q as [|d0 q]; try destruct cn; destruct (Z.eqb (c_timeout c) 0%Z) eqn:Ht;
    try (eexists; apply step_reader; cbn; rewrite ?Ht; reflexivity).
  all: destruct (wakeup_needed (c_platform c)) eqn:Hw; [exfalso; by eapply I6|].
  all: eexists; apply step_reader; cbn; unfold shut_wakes; rewrite Hw; reflexivity.
Qed.

(** The reader in [poll] on an empty socket that the shutdown does not
    wake, with nothing in flight and the shutdown thread gone: no
    interleaving step is left. *)
Lemma blocked_nf c s :
  reader s = RSelect -> queue (sock s) = [] ->
  rd_shut (sock s) && shut_wakes (c_platform c) = false -> net s = [] ->
  shutdown_step c s = None -> shutdown_fail c s = None -> nf (cstep c) s.
Proof.
  intros Hr Hq Hw Hn Hs Hf [s' Hst].
  destruct Hst as [? ? H|? ? H|? ? H|? ? H]; try congruence.
  - unfold reader_step in H. rewrite Hr, Hq, Hw in H. discriminate.
  - unfold deliver_step in H. rewrite Hn in H. discriminate.
Qed.

(** With a non-zero timeout the reader only stops at the flag. *)
Lemma cstep_not_ready c s s' :
  c_timeout c <> 0%Z -> reader s <> RDone RNotReady -> cstep c s s' ->
  reader s' <> RDone RNotReady.
Proof.
  intros Ht Hr Hs. apply Z.eqb_neq in Ht.
  cstep_cases Hs; cbn; congruence.
Qed.

Lemma rtc_not_ready c s s' :
  c_timeout c <> 0%Z -> reader s <> RDone RNotReady -> rtc (cstep c) s s' ->
  reader s' <> RDone RNotReady.
Proof. intros Ht Hr Hs. induction Hs; eauto using cstep_not_ready. Qed.

Lemma cstep_budget c s s' :
  flag s = true -> cstep c s s' ->
  flag s' = true /\ length (got s') + budget s' <= length (got s) + budget s.
Proof.
  intros Hf Hs. cstep_cases Hs; subst; unfold budget; cbn;
    rewrite ?length_app; cbn; split; try done; lia.
Qed.

Lemma rtc_budget c s s' :
  flag s = true -> rtc (cstep c) s s' ->
  length (got s') + budget s' <= length (got s) + budget s.
Proof.
  intros Hf Hs. induction Hs as [|s1 s2 s3 H12 H23 IH]; [lia|].
  destruct (cstep_budget c s1 s2 Hf H12) as [Hf2 Hb]. specialize (IH Hf2). lia.
Qed.

(** ** Properties *)

(** C30: The mutex and the flag in every interleaving: the mutex is held
    exactly while [shutdownReadWrite] is between its lock and the end of
    the function (through all its system calls), the flag is set exactly
    from [_shutdownReadWrite = true] on, the socket is shut down exactly
    from [shutdownSocketReadWrite] on, an unconnected-mode transceiver has
    no peer, and on the wake-up platforms a reader in [recv] or [poll]
    finds a datagram in the queue once the decoy has been sent. *)
Theorem reachable_inv c conn p q n s :
  (conn = true -> p = None) ->
  rtc (cstep c) (initial conn p q n) s -> inv c s.
Proof. intros Hp. apply rtc_inv, inv_initial, Hp. Qed.

(** C31: Whatever the interleaving, the platform and the datagrams in
    flight, a reader thread looping in [read] with a non-zero timeout
    and a concurrent [shutdownReadWrite] always terminate (every
    interleaving is finite), and every final state in which
    [shutdownReadWrite] returned has the reader stopped by
    [ConnectionLostException] and every datagram delivered.  When
    [shutdownReadWrite] throws instead, the reader can stay blocked in
    [poll] for ever: from an empty socket, the run that lets the reader
    reach its [poll] first ends there when the trace throws (where it
    can), when [fdToLocalAddress] or [shutdownSocketReadWrite] throws,
    and, on the wake-up platforms, when the decoy socket cannot be set
    up. *)
Theorem shutdown_wakes_reader c conn p q n :
  (conn = true -> p = None) -> c_timeout c <> 0%Z ->
  sn (cstep c) (initial conn p q n) /\
  (forall s, rtc (cstep c) (initial conn p q n) s -> nf (cstep c) s -> shutter s = SRet ->
     reader s = RDone RLost /\ net s = []) /\
  (c_trace_throws c = true -> blocked_end c (initial conn p [] []) SThrowTrace) /\
  blocked_end c (initial conn p [] []) SThrowShut /\
  (wakeup_needed (c_platform c) = true -> blocked_end c (initial conn p [] []) SThrowDecoy).
Proof.
  intros Hp Ht. pose proof (inv_initial c conn p q n Hp) as Hi.
  pose proof Ht as Ht'. apply Z.eqb_neq in Ht'.
  split; [by apply inv_sn|]. split; [|split; [|split]].
  - intros s Hr Hnf Hs.
    destruct (inv_progress c s (rtc_inv c _ _ Hi Hr) Hnf) as (Hn & _ & Hd).
    destruct (Hd Hs) as [r Hrd].
    pose proof (rtc_not_ready c (initial conn p q n) s Ht ltac:(discriminate) Hr) as Hnr.
    destruct r; [done|congruence].
  - intros Htr. eexists. split; [apply (run_rtc c [AReader; AReader; AShutdownThrows]);
      cbn; rewrite Ht'; cbn; rewrite Htr; reflexivity|].
    split; [apply blocked_nf; reflexivity|auto].
  - eexists. split; [apply (run_rtc c [AReader; AReader; AShutdown; AShutdown; AShutdownThrows]);
      cbn; rewrite Ht'; reflexivity|].
    split; [apply blocked_nf; reflexivity|auto].
  - intros Hw. eexists.
    split; [apply (run_rtc c [AReader; AReader; AShutdown; AShutdown; AShutdown; AShutdown;
                              AShutdownThrows]); cbn; rewrite Ht'; cbn; rewrite Hw; reflexivity|].
    split; [apply blocked_nf; cbn; unfold shut_wakes; rewrite ?Hw; reflexivity|auto].
Qed.

(** C32: Once [shutdownReadWrite] has returned, the reader thread
    returns at most one more datagram, and none when it is at its flag
    check or waiting in [poll]: only a [read] that passed the flag check
    before the flag was set can still return one. *)
Theorem after_shutdown_at_most_one c conn p q n s s' :
  (conn = true -> p = None) ->
  rtc (cstep c) (initial conn p q n) s -> shutter s = SRet ->
  rtc (cstep c) s s' ->
  length (got s') <= length (got s) + budget s /\ budget s <= 1.
Proof.
  intros Hp Hr Hs Hr'.
  destruct (rtc_inv c _ _ (inv_initial c conn p q n Hp) Hr) as [_ I2 _ _ _ _].
  rewrite Hs in I2. split.
  - pose proof (rtc_budget c s s' I2 Hr'). lia.
  - unfold budget. case_match; lia.
Qed.

(** C33: The decoy is not always ignored, as the comment at lines 94-95
    says: on the wake-up platforms, when the reader has passed its flag
    check before [shutdownReadWrite] runs, the whole shutdown completes,
    the reader's [recv] returns the 1-byte decoy as a datagram of the
    connection, and only its next [read] throws. *)
Theorem decoy_read_as_datagram c srv :
  wakeup_needed (c_platform c) = true ->
  exists s, rtc (cstep c) (initial false (Some srv) [] []) s /\
            shutter s = SRet /\ got s = [decoy c] /\ reader s = RDone RLost.
Proof.
  intros Hw. eexists. split.
  - apply (run_rtc c [AReader; AShutdown; AShutdown; AShutdown; AShutdown; AShutdown;
                      AShutdown; AReader; AReader]).
    cbn. rewrite Hw. cbn. reflexivity.
  - cbn. auto.
Qed.

(** ** Witnesses *)

Definition srv : sockaddr := mk_sockaddr AF_INET 2130706433 10000.
Definition dsrc : sockaddr := mk_sockaddr AF_INET 2130706433 40000.
(** Apple, a [read] timeout of [-1], and a trace that can throw. *)
Definition c_apple : config := mkConfig Apple (-1) dsrc true.
Definition dg : datagram := (srv, [Byte.x01; Byte.x02]).

(** The reader passes its check, then the whole shutdown runs. *)
Definition race_prefix : list actor :=
  [AReader; AShutdown; AShutdown; AShutdown; AShutdown; AShutdown; AShutdown].

Definition race_mid : cstate :=
  mkC RRecv SRet true false false (mkSock [decoy c_apple] None true) [] [].

Definition race_end : cstate :=
  mkC (RDone RLost) SRet true false false (mkSock [] None true) [] [decoy c_apple].

Lemma reachable_inv_witness :
  (false = true -> Some srv = None) /\
  rtc (cstep c_apple) (initial false (Some srv) [] []) race_end /\
  inv c_apple race_end.
Proof.
  assert (Hr : rtc (cstep c_apple) (initial false (Some srv) [] []) race_end)
    by (apply (run_rtc c_apple (race_prefix ++ [AReader; AReader])); vm_compute; reflexivity).
  split; [discriminate|split; [exact Hr|]].
  apply (reachable_inv c_apple false (Some srv) [] [] race_end); [discriminate|exact Hr].
Defined.

Lemma shutdown_wakes_reader_witness :
  (true = true -> @None sockaddr = None) /\ c_timeout c_apple <> 0%Z /\
  (sn (cstep c_apple) (initial true None [] [dg]) /\
   (forall s, rtc (cstep c_apple) (initial true None [] [dg]) s -> nf (cstep c_apple) s ->
      shutter s = SRet -> reader s = RDone RLost /\ net s = []) /\
   (c_trace_throws c_apple = true -> blocked_end c_apple (initial true None [] []) SThrowTrace) /\
   blocked_end c_apple (initial true None [] []) SThrowShut /\
   (wakeup_needed (c_platform c_apple) = true ->
    blocked_end c_apple (initial true None [] []) SThrowDecoy)).
Proof.
  split; [reflexivity|split; [discriminate|]].
  apply (shutdown_wakes_reader c_apple true None [] [dg]); [reflexivity|discriminate].
Defined.

Lemma after_shutdown_at_most_one_witness :
  (false = true -> Some srv = None) /\
  rtc (cstep c_apple) (initial false (Some srv) [] []) race_mid /\ shutter race_mid = SRet /\
  rtc (cstep c_apple) race_mid race_end /\
  (length (got race_end) <= length (got race_mid) + budget race_mid /\ budget race_mid <= 1).
Proof.
  assert (H1 : rtc (cstep c_apple) (initial false (Some srv) [] []) race_mid)
    by (apply (run_rtc c_apple race_prefix); vm_compute; reflexivity).
  assert (H2 : rtc (cstep c_apple) race_mid race_end)
    by (apply (run_rtc c_apple [AReader; AReader]); vm_compute; reflexivity).
  split; [discriminate|split; [exact H1|split; [reflexivity|split; [exact H2|]]]].
  apply (after_shutdown_at_most_one c_apple false (Some srv) [] [] race_mid race_end);
    [discriminate|exact H1|reflexivity|exact H2].
Defined.

Lemma decoy_read_as_datagram_witness :
  wakeup_needed (c_platform c_apple) = true /\
  exists s, rtc (cstep c_apple) (initial false (Some srv) [] []) s /\
            shutter s = SRet /\ got s = [decoy c_apple] /\ reader s = RDone RLost.
Proof. split; [reflexivity|apply (decoy_read_as_datagram c_apple srv); reflexivity]. Defined.
