(* ===== verification/Refine.v ===== *)
(** * The reader thread of [Concurrent.v] refines [read]

    [Concurrent.v] takes the reader thread's atomic steps
    ([reader_step]) over an abstract socket ([ksock]: a queue, a peer,
    the shut-down bit); [Read.v] translates [read] itself, which runs
    here against the kernel [NetOS] of [Net.v].  The two are two models
    of the same lines 242-364, and this file relates them in the manner
    of a simulation diagram: [matches t w s] says that the transceiver
    [t] and the kernel [w] agree with the interleaving state [s] on the
    socket's queue and peer, on [_connect] and on the flag, and
    [reader_refines_read] shows that each outcome of one call of [read]
    (a datagram, "not ready", [ConnectionLostException], or a wait that
    never returns) is reached by steps of the reader alone in the
    interleaving, after which the two models agree again.  The
    interleaving's datagram is whole where [read]'s is cut to the
    receive ceiling.  The kernel's step agrees too: [NetOS.deliver] to
    the transceiver's socket is the interleaving's [deliver_step]
    ([deliver_matches]). *)

From stdpp Require Import base relations.
From Stdlib Require Import ZArith List Lia.
From S2P Require Import Types Os Limits Read Net Concurrent.

#[local] Existing Instance NetOS.net_api.

(** ** The abstraction *)

(** The kernel socket seen by the interleaving: before any
    [shutdownSocketReadWrite]. *)
Definition abs_sock (k : NetOS.nsock) : ksock :=
  mkSock (NetOS.n_queue k) (NetOS.n_peer k) false.

(** The transceiver [t] over the kernel [w] is the reader's side of the
    interleaving state [s]. *)
Definition matches (t : transceiver) (w : NetOS.nworld) (s : cstate) : Prop :=
  exists k, assoc (NetOS.socks w) (_fd t) = Some k /\ sock s = abs_sock k /\
            connect s = _connect t /\ flag s = _shutdownReadWrite t.

(** The outcome [r] of one call of [read] on [t] is matched by the
    reader from [s]: a datagram by the reader's next datagram, "not
    ready" and [ConnectionLostException] by the reader's end, a wait
    that never returns by a reader blocked in [poll]. *)
Definition read_matched (c : config) (t : transceiver) (s : cstate)
           (r : St NetOS.nworld * Prelude.outcome thrown (bool * Buffer)) : Prop :=
  match r with
  | (s', Prelude.Ok (true, buf')) =>
      exists s2 d, rtc (cstep c) s s2 /\ reader s2 = RRepeat /\ got s2 = got s ++ [d] /\
        b buf' = firstn (Z.to_nat (packetSize (_rcvSize t))) d.2 /\ matches (tr s') (os s') s2
  | (s', Prelude.Ok (false, _)) =>
      exists s2, rtc (cstep c) s s2 /\ reader s2 = RDone RNotReady /\ matches (tr s') (os s') s2
  | (s', Prelude.Throw (Thrown ConnectionLostException)) =>
      exists s2, rtc (cstep c) s s2 /\ reader s2 = RDone RLost /\ matches (tr s') (os s') s2
  | (_, Prelude.OutOfFuel) =>
      exists s2, rtc (cstep c) s s2 /\ reader s2 = RSelect /\ reader_step c s2 = None
  | _ => False
  end.

(** ** Lemmas *)

(** The reader scheduled [n] times in a row. *)
Lemma reader_run c n s s' :
  run c (repeat AReader n) s = Some s' -> rtc (cstep c) s s'.
Proof. apply run_rtc. Qed.

(** The kernel after [read] took the oldest datagram matches the
    reader's socket after the same datagram. *)
Lemma matches_set_sock t fd w k' (s : cstate) :
  _fd t = fd -> sock s = abs_sock k' -> connect s = _connect t ->
  flag s = _shutdownReadWrite t -> matches t (NetOS.set_sock fd k' w) s.
Proof.
  intros <- Hs Hc Hf. exists k'. split; [apply NetOS.sock_set_same|auto].
Qed.

(** The kernel's filter and the interleaving's agree. *)
Lemma accepts_agree p a : NetOS.accepts p a = accepts p a.
Proof.
  destruct p as [x|]; [|reflexivity]. cbn.
  destruct (sockaddr_eqb x a) eqn:E; symmetry.
  - apply bool_decide_eq_true. apply sockaddr_eqb_eq. exact E.
  - apply bool_decide_eq_false. intros Hx. apply sockaddr_eqb_eq in Hx. congruence.
Qed.

(** The kernel's delivery of a datagram to the transceiver's socket is
    the interleaving's [deliver_step]: both queue it exactly when the
    socket accepts its sender, and they agree again afterwards. *)
Lemma deliver_matches t w s k src d n :
  matches t w s -> assoc (NetOS.socks w) (_fd t) = Some k ->
  NetOS.sock_at (NetOS.socks w) (NetOS.n_local k) = Some (_fd t) -> net s = (src, d) :: n ->
  exists s', deliver_step s = Some s' /\ net s' = n /\
             matches t (NetOS.deliver w src (NetOS.n_local k) d) s'.
Proof.
  intros [k0 [Hk0 [Hs [Hc Hf]]]] Hk Hat Hn. rewrite Hk in Hk0. injection Hk0 as <-.
  unfold deliver_step. rewrite Hn. eexists. split; [reflexivity|]. split; [reflexivity|].
  unfold NetOS.deliver. rewrite Hat, Hk, accepts_agree, Hs. cbn.
  destruct (accepts (NetOS.n_peer k) src).
  - apply matches_set_sock; cbn; auto.
  - exists k. cbn. repeat split; auto.
Qed.

(** ** The refinement *)

(** C11: Every call of [read] over the kernel [NetOS] is matched by the
    reader thread of the interleaving, scheduled alone from its flag
    check ([RRepeat]) with the mutex free, in a state that agrees with
    the transceiver and the kernel: a datagram returned by [read] is
    the one the reader appends to [got] (cut to the receive ceiling),
    "not ready" and [ConnectionLostException] end the reader's thread
    the same way, and a [read] that waits forever is a reader blocked in
    [poll]; no other outcome (an assertion, another exception) occurs,
    and after a returned call the two models agree again.  The level-1
    trace is off or formats the descriptor without a system call
    ([trace_quiet]). *)
Theorem reader_refines_read c t w lg s f buf :
  matches t w s -> reader s = RRepeat -> locked s = false ->
  _fd t <> INVALID_SOCKET -> trace_quiet t 1 = true -> i buf = 0%nat ->
  exceeds (packetSize (_rcvSize t)) (buf_size buf) = false ->
  read_matched c t s (read (S f) buf (c_timeout c) (mkSt t w lg)).
Proof.
  intros [k [Hk [Hs [Hc Hf]]]] Hr Hl Hv Hloc Hi Hx. unfold read_matched.
  destruct s as [r sh fl lk cn sk nt gt]; cbn in Hr, Hl, Hs, Hc, Hf |- *; subst r lk sk cn fl.
  destruct (_shutdownReadWrite t) eqn:Hsd.
  - rewrite read_run. cbn [tr]. rewrite Hi, Hx. cbn [Nat.eqb].
    rewrite read_loop_repeat. cbn [tr]. rewrite Hsd. cbv beta iota.
    eexists. split; [apply (reader_run c 1); reflexivity|]. split; [reflexivity|].
    exists k. cbn [tr os]. auto.
  - destruct (NetOS.n_queue k) as [|[src d] q] eqn:Hq.
    + rewrite (net_read_empty f buf (c_timeout c) t w lg k Hv Hsd Hi Hx Hk Hq).
      destruct (c_timeout c =? 0) eqn:Ht; cbv beta iota.
      * eexists. split; [apply (reader_run c 2); cbn; rewrite Hq, Ht; reflexivity|].
        split; [reflexivity|]. exists k. cbn [tr os]. auto.
      * eexists. split; [apply (reader_run c 2); cbn; rewrite Hq, Ht; reflexivity|].
        split; [reflexivity|]. cbn. rewrite Hq. reflexivity.
    + rewrite (net_read_datagram f buf (c_timeout c) t w lg k src d q Hv Hloc Hsd Hi Hx Hk Hq).
      destruct (_connect t) eqn:Hct; cbv beta iota; do 2 eexists.
      * split; [apply (reader_run c 3); cbn; rewrite Hq; reflexivity|].
        do 3 (split; [reflexivity|]). apply matches_set_sock; cbn; first [reflexivity | congruence].
      * split; [apply (reader_run c 2); cbn; rewrite Hq; reflexivity|].
        do 3 (split; [reflexivity|]). apply matches_set_sock; cbn; first [reflexivity | congruence].
Qed.

(** ** Witness *)

Section RefineWitness.

(** The receiver of [Net.v] (ceiling 2 bytes, waiting for its first
    peer) with one 3-byte datagram from [addrA] queued, and the
    interleaving at its start with the same queue and a timeout of 0. *)
Definition rsock : NetOS.nsock := NetOS.mkNSock addrB None [(addrA, [Byte.x01; Byte.x02; Byte.x03])].
Definition rworld : NetOS.nworld := NetOS.mkNWorld [(4%Z, rsock)] 5.
Definition rconf : config := mkConfig OtherUnix 0 addrB false.
Definition rstart : cstate := initial true None [(addrA, [Byte.x01; Byte.x02; Byte.x03])] [].

Lemma reader_refines_read_witness :
  matches trB rworld rstart /\
  read_matched rconf trB rstart (read 1 (mkBuffer [] 0) (c_timeout rconf) (mkSt trB rworld [])).
Proof.
  assert (Hm : matches trB rworld rstart) by (exists rsock; repeat split).
  split; [exact Hm|].
  apply (reader_refines_read rconf trB rworld [] rstart 0 (mkBuffer [] 0) Hm);
    try reflexivity; try discriminate.
Defined.
End RefineWitness.
